(** * vector-math: Vector2, Vector3 and Vector4 over IEEE-754 doubles

    A shallow embedding of [src/classes/vector2.ts], [vector3.ts] and
    [vector4.ts].  A JavaScript [number] is a binary64 value; it is modelled
    by the Standard Library's executable specification of IEEE-754
    arithmetic ([spec_float] with [prec = 53], [emax = 1024]), which has one
    NaN, two zeros and two infinities, exactly what JavaScript can observe.

    The development has two layers.
    - A value layer: a record of fields per class and every getter and
      static function as a function of the field values of its arguments.
    - An object layer: a heap of objects addressed by references, in which
      [new] allocates, instance methods assign fields in place, and a static
      function returns a reference.  It settles the statements about
      instance identity ("returns [a] itself", "returns a new instance"). *)

From Stdlib Require Import ZArith Bool Lia Reals Lra.
From Stdlib Require Import Floats.SpecFloat.
From stdpp Require Import base list.

Local Open Scope Z_scope.

(** ** JavaScript numbers *)

Definition number : Type := spec_float.

Definition prec : Z := 53.
Definition emax : Z := 1024.

Declare Scope num_scope.
Delimit Scope num_scope with num.
Bind Scope num_scope with number.

Definition add (a b : number) : number := SFadd prec emax a b.
Definition sub (a b : number) : number := SFsub prec emax a b.
Definition mul (a b : number) : number := SFmul prec emax a b.
Definition div (a b : number) : number := SFdiv prec emax a b.
Definition neg (a : number) : number := SFopp a.
Definition Math_sqrt (a : number) : number := SFsqrt prec emax a.

(** The relational operators; each is [false] as soon as an operand is NaN. *)
Definition lt (a b : number) : bool := SFltb a b.
Definition gt (a b : number) : bool := SFltb b a.
Definition le (a b : number) : bool := SFleb a b.
Definition ge (a b : number) : bool := SFleb b a.
(** [a == b] on numbers: [-0 == 0] holds and [NaN == NaN] does not. *)
Definition eqb (a b : number) : bool := SFeqb a b.

Infix "+" := add : num_scope.
Infix "-" := sub : num_scope.
Infix "*" := mul : num_scope.
Infix "/" := div : num_scope.
Notation "- a" := (neg a) : num_scope.
Infix "<?" := lt : num_scope.
Infix ">?" := gt : num_scope.
Infix "<=?" := le : num_scope.
Infix ">=?" := ge : num_scope.
Infix "==" := eqb (at level 70, no associativity) : num_scope.

(** Literals. *)
Definition n0 : number := S754_zero false.
Definition n1 : number := S754_finite false 4503599627370496 (-52).
Definition Infinity : number := S754_infinity false.
Definition NaN : number := S754_nan.

(** [of_Z m e] is the double nearest to [m * 2^e]. *)
Definition of_Z (m e : Z) : number := binary_normalize prec emax m e false.

(** [ToBoolean] on a number: [+0], [-0] and [NaN] are falsy. *)
Definition truthy (a : number) : bool :=
  match a with
  | S754_zero _ | S754_nan => false
  | _ => true
  end.

Definition isNaN (a : number) : bool :=
  match a with S754_nan => true | _ => false end.

Definition is_zero (a : number) : bool :=
  match a with S754_zero _ => true | _ => false end.

(** A representable double: the mantissa and exponent are in range. *)
Definition valid (a : number) : bool := valid_binary prec emax a.

(** The sign bit is set (NaN has none). *)
Definition sign_set (a : number) : bool :=
  match a with
  | S754_zero s | S754_infinity s | S754_finite s _ _ => s
  | S754_nan => false
  end.

(** [has_sign s a]: [a] is not NaN and its sign bit is [s]. *)
Definition has_sign (s : bool) (a : number) : Prop :=
  match a with
  | S754_zero s' | S754_infinity s' | S754_finite s' _ _ => s' = s
  | S754_nan => False
  end.

(** An optional constructor argument: [None] is [undefined].  The field
    keeps its initialiser [d] unless the argument is truthy:
    [if (x) this.x = x]. *)
Definition init (d : number) (arg : option number) : number :=
  match arg with
  | Some v => if truthy v then v else d
  | None => d
  end.

(** What the constructor stores for the quotient of [n] by the zero of
    sign [s]: the infinity of the quotient's sign, or the initialiser [d]
    when the quotient is NaN (the dividend is a zero or NaN). *)
Definition quotient_by_zero (d n : number) (s : bool) : number :=
  if truthy n then S754_infinity (xorb (sign_set n) s) else d.

(** One field of the interpolation [a + (b - a) * t], each of the three
    steps stored through the constructor of a field with initialiser [d]. *)
Definition lerp_field (d a b t : number) : number :=
  init d (Some (a + init d (Some (init d (Some (b - a)) * t))))%num.

(** The second operand of the arithmetic functions: [Vector | number],
    told apart by [typeof b === "number"]. *)
Inductive operand (V : Type) : Type :=
  | Num (n : number)
  | Vec (v : V).
Arguments Num {V} n.
Arguments Vec {V} v.

(** ** Vector2 (value layer)

    [Angle] is left out of the three classes: it needs [Math.acos] and
    [Math.PI] and no statement below is about it.  So are the constants
    [kEpsilon] and [kEpsilonNormalSqrt], which no function reads. *)

Module Vector2.

Local Open Scope num_scope.

(** The fields of an instance. *)
Record t : Type := mk { x : number; y : number }.

(** [constructor]: every field starts at its initialiser (0, and 1 for
    [w]) and is assigned only when the argument is truthy. *)
Definition constructor (ax ay : option number) : t :=
  {| x := init n0 ax; y := init n0 ay |}.

(** [new V(...)] with every argument supplied. *)
Definition new (ax ay : number) : t :=
  constructor (Some ax) (Some ay).

Definition right : t := new n1 n0.
Definition left : t := new (- n1) n0.
Definition up : t := new n0 n1.
Definition down : t := new n0 (- n1).
Definition one : t := new n1 n1.
Definition zero : t := new n0 n0.
Definition negativeInfinity : t := new (- Infinity) (- Infinity).
Definition positiveInfinity : t := new Infinity Infinity.

Definition magnitude (this : t) : number :=
  Math_sqrt (x this * x this + y this * y this).

Definition sqrMagnitude (this : t) : number :=
  Math_sqrt (magnitude this).

Definition normalized (this : t) : t :=
  let mag := magnitude this in
  if mag >? n0 then new (x this / mag) (y this / mag)
  else zero.

Definition ClampMagnitude (vector : t) (maxLength : number) : t :=
  let mag := magnitude vector in
  let multiplier := if mag >? maxLength then maxLength / mag else n1 in
  new (x vector * multiplier) (y vector * multiplier).

(** [Cross] passes one argument; [y] is [undefined]. *)
Definition Cross (lhs rhs : t) : t :=
  constructor (Some (x lhs * y rhs - x rhs * y lhs)) None.

Definition Add (a : t) (b : operand t) : t :=
  match b with
  | Num b => new (x a + b) (y a + b)
  | Vec b => new (x a + x b) (y a + y b)
  end.

Definition Subtract (a : t) (b : operand t) : t :=
  match b with
  | Num b => new (x a - b) (y a - b)
  | Vec b => new (x a - x b) (y a - y b)
  end.

Definition Multiply (a : t) (b : operand t) : t :=
  match b with
  | Num b => new (x a * b) (y a * b)
  | Vec b => new (x a * x b) (y a * y b)
  end.

Definition Divide (a : t) (b : operand t) : t :=
  match b with
  | Num b => new (x a / b) (y a / b)
  | Vec b => new (x a / x b) (y a / y b)
  end.

Definition Distance (a b : t) : number :=
  magnitude (Subtract a (Vec b)).

Definition Dot (lhs rhs : t) : number :=
  x lhs * x rhs + y lhs * y rhs.

Definition DoLerp (a b : t) (t' : number) : t :=
  let subtracted := Subtract b (Vec a) in
  let multiplied := Multiply subtracted (Num t') in
  let added := Add a (Vec multiplied) in
  added.

Definition Lerp (a b : t) (t' : number) : t :=
  if t' <? n0 then a
  else if t' >? n1 then b
  else DoLerp a b t'.

Definition LerpUnclamped (a b : t) (t' : number) : t :=
  DoLerp a b t'.

Definition Magnitude (vector : t) : number := magnitude vector.

Definition Max (lhs rhs : t) : t :=
  new (if x lhs >=? x rhs then x lhs else x rhs)
      (if y lhs >=? y rhs then y lhs else y rhs).

Definition Min (lhs rhs : t) : t :=
  new (if x lhs <=? x rhs then x lhs else x rhs)
      (if y lhs <=? y rhs then y lhs else y rhs).

Definition MoveTowards (current target : t) (maxDistanceDelta : number) : t :=
  let distance := Distance target current in
  Lerp current target (maxDistanceDelta / distance).

(** The instance methods assign the fields of the receiver directly,
    without the constructor; each gives the receiver's fields after the
    call.  A field of [rhs] is read before the same field of [this] is
    written and no other field of [this] is read, so the result is the
    same when [rhs] is the receiver itself. *)
Module Method.
Definition Add (this : t) (rhs : operand t) : t :=
  match rhs with
  | Num rhs => {| x := x this + rhs; y := y this + rhs |}
  | Vec rhs => {| x := x this + x rhs; y := y this + y rhs |}
  end.

Definition Subtract (this : t) (rhs : operand t) : t :=
  match rhs with
  | Num rhs => {| x := x this - rhs; y := y this - rhs |}
  | Vec rhs => {| x := x this - x rhs; y := y this - y rhs |}
  end.

Definition Multiply (this : t) (rhs : operand t) : t :=
  match rhs with
  | Num rhs => {| x := x this * rhs; y := y this * rhs |}
  | Vec rhs => {| x := x this * x rhs; y := y this * y rhs |}
  end.

Definition Divide (this : t) (rhs : operand t) : t :=
  match rhs with
  | Num rhs => {| x := x this / rhs; y := y this / rhs |}
  | Vec rhs => {| x := x this / x rhs; y := y this / y rhs |}
  end.

End Method.

(** No field is NaN. *)
Definition NaN_free (v : t) : Prop :=
  isNaN (x v) = false /\ isNaN (y v) = false.

End Vector2.

(** ** Vector3 (value layer) *)

Module Vector3.

Local Open Scope num_scope.

(** The fields of an instance. *)
Record t : Type := mk { x : number; y : number; z : number }.

(** [constructor]: every field starts at its initialiser (0, and 1 for
    [w]) and is assigned only when the argument is truthy. *)
Definition constructor (ax ay az : option number) : t :=
  {| x := init n0 ax; y := init n0 ay; z := init n0 az |}.

(** [new V(...)] with every argument supplied. *)
Definition new (ax ay az : number) : t :=
  constructor (Some ax) (Some ay) (Some az).

Definition right : t := new n1 n0 n0.
Definition left : t := new (- n1) n0 n0.
Definition up : t := new n0 n1 n0.
Definition down : t := new n0 (- n1) n0.
Definition forward : t := new n0 n0 n1.
Definition back : t := new n0 n0 (- n1).
Definition one : t := new n1 n1 n1.
Definition zero : t := new n0 n0 n0.
Definition negativeInfinity : t := new (- Infinity) (- Infinity) (- Infinity).
Definition positiveInfinity : t := new Infinity Infinity Infinity.

Definition magnitude (this : t) : number :=
  Math_sqrt (x this * x this + y this * y this + z this * z this).

Definition sqrMagnitude (this : t) : number :=
  Math_sqrt (magnitude this).

Definition normalized (this : t) : t :=
  let mag := magnitude this in
  if mag >? n0 then new (x this / mag) (y this / mag) (z this / mag)
  else zero.

Definition ClampMagnitude (vector : t) (maxLength : number) : t :=
  let mag := magnitude vector in
  let multiplier := if mag >? maxLength then maxLength / mag else n1 in
  new (x vector * multiplier) (y vector * multiplier) (z vector * multiplier).

Definition Cross (lhs rhs : t) : t :=
  new (y lhs * z rhs - z lhs * y rhs)
      (z lhs * x rhs - x lhs * z rhs)
      (x lhs * y rhs - y lhs * x rhs).

Definition Add (a : t) (b : operand t) : t :=
  match b with
  | Num b => new (x a + b) (y a + b) (z a + b)
  | Vec b => new (x a + x b) (y a + y b) (z a + z b)
  end.

Definition Subtract (a : t) (b : operand t) : t :=
  match b with
  | Num b => new (x a - b) (y a - b) (z a - b)
  | Vec b => new (x a - x b) (y a - y b) (z a - z b)
  end.

Definition Multiply (a : t) (b : operand t) : t :=
  match b with
  | Num b => new (x a * b) (y a * b) (z a * b)
  | Vec b => new (x a * x b) (y a * y b) (z a * z b)
  end.

Definition Divide (a : t) (b : operand t) : t :=
  match b with
  | Num b => new (x a / b) (y a / b) (z a / b)
  | Vec b => new (x a / x b) (y a / y b) (z a / z b)
  end.

Definition Distance (a b : t) : number :=
  magnitude (Subtract a (Vec b)).

Definition Dot (lhs rhs : t) : number :=
  x lhs * x rhs + y lhs * y rhs + z lhs * z rhs.

Definition DoLerp (a b : t) (t' : number) : t :=
  let subtracted := Subtract b (Vec a) in
  let multiplied := Multiply subtracted (Num t') in
  let added := Add a (Vec multiplied) in
  added.

Definition Lerp (a b : t) (t' : number) : t :=
  if t' <? n0 then a
  else if t' >? n1 then b
  else DoLerp a b t'.

Definition LerpUnclamped (a b : t) (t' : number) : t :=
  DoLerp a b t'.

Definition Magnitude (vector : t) : number := magnitude vector.

Definition Max (lhs rhs : t) : t :=
  new (if x lhs >=? x rhs then x lhs else x rhs)
      (if y lhs >=? y rhs then y lhs else y rhs)
      (if z lhs >=? z rhs then z lhs else z rhs).

Definition Min (lhs rhs : t) : t :=
  new (if x lhs <=? x rhs then x lhs else x rhs)
      (if y lhs <=? y rhs then y lhs else y rhs)
      (if z lhs <=? z rhs then z lhs else z rhs).

Definition MoveTowards (current target : t) (maxDistanceDelta : number) : t :=
  let distance := Distance target current in
  Lerp current target (maxDistanceDelta / distance).

(** The instance methods assign the fields of the receiver directly,
    without the constructor; each gives the receiver's fields after the
    call.  A field of [rhs] is read before the same field of [this] is
    written and no other field of [this] is read, so the result is the
    same when [rhs] is the receiver itself. *)
Module Method.
Definition Add (this : t) (rhs : operand t) : t :=
  match rhs with
  | Num rhs => {| x := x this + rhs; y := y this + rhs; z := z this + rhs |}
  | Vec rhs => {| x := x this + x rhs; y := y this + y rhs; z := z this + z rhs |}
  end.

Definition Subtract (this : t) (rhs : operand t) : t :=
  match rhs with
  | Num rhs => {| x := x this - rhs; y := y this - rhs; z := z this - rhs |}
  | Vec rhs => {| x := x this - x rhs; y := y this - y rhs; z := z this - z rhs |}
  end.

Definition Multiply (this : t) (rhs : operand t) : t :=
  match rhs with
  | Num rhs => {| x := x this * rhs; y := y this * rhs; z := z this * rhs |}
  | Vec rhs => {| x := x this * x rhs; y := y this * y rhs; z := z this * z rhs |}
  end.

Definition Divide (this : t) (rhs : operand t) : t :=
  match rhs with
  | Num rhs => {| x := x this / rhs; y := y this / rhs; z := z this / rhs |}
  | Vec rhs => {| x := x this / x rhs; y := y this / y rhs; z := z this / z rhs |}
  end.

End Method.

(** No field is NaN. *)
Definition NaN_free (v : t) : Prop :=
  isNaN (x v) = false /\ isNaN (y v) = false /\ isNaN (z v) = false.

End Vector3.

(** ** Vector4 (value layer) *)

Module Vector4.

Local Open Scope num_scope.

(** The fields of an instance. *)
Record t : Type := mk { x : number; y : number; z : number; w : number }.

(** [constructor]: every field starts at its initialiser (0, and 1 for
    [w]) and is assigned only when the argument is truthy. *)
Definition constructor (ax ay az aw : option number) : t :=
  {| x := init n0 ax; y := init n0 ay; z := init n0 az; w := init n1 aw |}.

(** [new V(...)] with every argument supplied. *)
Definition new (ax ay az aw : number) : t :=
  constructor (Some ax) (Some ay) (Some az) (Some aw).

Definition one : t := new n1 n1 n1 n1.
Definition zero : t := new n0 n0 n0 n0.
Definition negativeInfinity : t := new (- Infinity) (- Infinity) (- Infinity) (- Infinity).
Definition positiveInfinity : t := new Infinity Infinity Infinity Infinity.

Definition magnitude (this : t) : number :=
  Math_sqrt (x this * x this + y this * y this + z this * z this + w this * w this).

Definition sqrMagnitude (this : t) : number :=
  Math_sqrt (magnitude this).

Definition normalized (this : t) : t :=
  let mag := magnitude this in
  if mag >? n0 then new (x this / mag) (y this / mag) (z this / mag) (w this / mag)
  else zero.

Definition ClampMagnitude (vector : t) (maxLength : number) : t :=
  let mag := magnitude vector in
  let multiplier := if mag >? maxLength then maxLength / mag else n1 in
  new (x vector * multiplier) (y vector * multiplier) (z vector * multiplier) (w vector * multiplier).


Definition Add (a : t) (b : operand t) : t :=
  match b with
  | Num b => new (x a + b) (y a + b) (z a + b) (w a + b)
  | Vec b => new (x a + x b) (y a + y b) (z a + z b) (w a + w b)
  end.

Definition Subtract (a : t) (b : operand t) : t :=
  match b with
  | Num b => new (x a - b) (y a - b) (z a - b) (w a - b)
  | Vec b => new (x a - x b) (y a - y b) (z a - z b) (w a - w b)
  end.

Definition Multiply (a : t) (b : operand t) : t :=
  match b with
  | Num b => new (x a * b) (y a * b) (z a * b) (w a * b)
  | Vec b => new (x a * x b) (y a * y b) (z a * z b) (w a * w b)
  end.

Definition Divide (a : t) (b : operand t) : t :=
  match b with
  | Num b => new (x a / b) (y a / b) (z a / b) (w a / b)
  | Vec b => new (x a / x b) (y a / y b) (z a / z b) (w a / w b)
  end.

Definition Distance (a b : t) : number :=
  magnitude (Subtract a (Vec b)).

Definition Dot (lhs rhs : t) : number :=
  x lhs * x rhs + y lhs * y rhs + z lhs * z rhs + w lhs * w rhs.

Definition DoLerp (a b : t) (t' : number) : t :=
  let subtracted := Subtract b (Vec a) in
  let multiplied := Multiply subtracted (Num t') in
  let added := Add a (Vec multiplied) in
  added.

Definition Lerp (a b : t) (t' : number) : t :=
  if t' <? n0 then a
  else if t' >? n1 then b
  else DoLerp a b t'.

Definition LerpUnclamped (a b : t) (t' : number) : t :=
  DoLerp a b t'.

Definition Magnitude (vector : t) : number := magnitude vector.

Definition Max (lhs rhs : t) : t :=
  new (if x lhs >=? x rhs then x lhs else x rhs)
      (if y lhs >=? y rhs then y lhs else y rhs)
      (if z lhs >=? z rhs then z lhs else z rhs)
      (if w lhs >=? w rhs then w lhs else w rhs).

Definition Min (lhs rhs : t) : t :=
  new (if x lhs <=? x rhs then x lhs else x rhs)
      (if y lhs <=? y rhs then y lhs else y rhs)
      (if z lhs <=? z rhs then z lhs else z rhs)
      (if w lhs <=? w rhs then w lhs else w rhs).

Definition MoveTowards (current target : t) (maxDistanceDelta : number) : t :=
  let distance := Distance target current in
  Lerp current target (maxDistanceDelta / distance).

(** The instance methods assign the fields of the receiver directly,
    without the constructor; each gives the receiver's fields after the
    call.  A field of [rhs] is read before the same field of [this] is
    written and no other field of [this] is read, so the result is the
    same when [rhs] is the receiver itself. *)
Module Method.
Definition Add (this : t) (rhs : operand t) : t :=
  match rhs with
  | Num rhs => {| x := x this + rhs; y := y this + rhs; z := z this + rhs; w := w this + rhs |}
  | Vec rhs => {| x := x this + x rhs; y := y this + y rhs; z := z this + z rhs; w := w this + w rhs |}
  end.

Definition Subtract (this : t) (rhs : operand t) : t :=
  match rhs with
  | Num rhs => {| x := x this - rhs; y := y this - rhs; z := z this - rhs; w := w this - rhs |}
  | Vec rhs => {| x := x this - x rhs; y := y this - y rhs; z := z this - z rhs; w := w this - w rhs |}
  end.

Definition Multiply (this : t) (rhs : operand t) : t :=
  match rhs with
  | Num rhs => {| x := x this * rhs; y := y this * rhs; z := z this * rhs; w := w this * rhs |}
  | Vec rhs => {| x := x this * x rhs; y := y this * y rhs; z := z this * z rhs; w := w this * w rhs |}
  end.

Definition Divide (this : t) (rhs : operand t) : t :=
  match rhs with
  | Num rhs => {| x := x this / rhs; y := y this / rhs; z := z this / rhs; w := w this / rhs |}
  | Vec rhs => {| x := x this / x rhs; y := y this / y rhs; z := z this / z rhs; w := w this / w rhs |}
  end.

End Method.

(** No field is NaN. *)
Definition NaN_free (v : t) : Prop :=
  isNaN (x v) = false /\ isNaN (y v) = false /\ isNaN (z v) = false /\ isNaN (w v) = false.

End Vector4.

(** ** Objects and references (object layer)

    An instance lives in a heap and is named by a reference.  [new]
    allocates at the end of the heap, so a reference is valid exactly when
    it is below the heap's length and a fresh one differs from every
    reference in use.  A computation takes the heap and returns a result
    with the heap after it; [None] stands for the [TypeError] of reading a
    field through a reference to no object, the only way these functions
    can fail. *)

Module Obj.

Definition ref : Type := nat.

Section Heap.

Context {V : Type}.

Definition heap : Type := list V.

Definition M (A : Type) : Type := heap -> option (A * heap).

Definition ret {A : Type} (a : A) : M A :=
  fun h => Some (a, h).

Definition bind {A B : Type} (m : M A) (k : A -> M B) : M B :=
  fun h => match m h with
           | Some (a, h') => k a h'
           | None => None
           end.

(** Read all fields of the object behind [r]. *)
Definition load (r : ref) : M V :=
  fun h => match h !! r with
           | Some v => Some (v, h)
           | None => None
           end.

(** [new]: a fresh object holding [v]. *)
Definition alloc (v : V) : M ref :=
  fun h => Some (length h, h ++ [v]).

(** Assign the fields of the object behind [r] in place. *)
Definition assign (r : ref) (v : V) : M unit :=
  fun h => match h !! r with
           | Some _ => Some (tt, <[r := v]> h)
           | None => None
           end.

End Heap.

Arguments heap V : clear implicits.
Arguments M V A : clear implicits.

Notation "'let*' x := m 'in' k" := (bind m (fun x => k))
  (at level 10, x name, m at level 100, k at level 200).

(** The code shared, up to the number of fields, by the three classes,
    over the field-level functions of one class. *)
Section Class.

Context {V : Type}.
Variables (vAdd vSubtract vMultiply vDivide : V -> operand V -> V).
Variables (mAdd mSubtract mMultiply mDivide : V -> operand V -> V).
Variable vmagnitude : V -> number.
Variable vnormalized : V -> V.
Variable vClampMagnitude : V -> number -> V.

Local Open Scope num_scope.

Definition load_operand (b : operand ref) : M V (operand V) :=
  match b with
  | Num n => ret (Num n)
  | Vec r => let* v := load r in ret (Vec v)
  end.

(** A static function that reads its arguments and returns [new V(...)]. *)
Definition static (f : V -> operand V -> V) (a : ref) (b : operand ref) : M V ref :=
  let* va := load a in
  let* vb := load_operand b in
  alloc (f va vb).

(** An instance method: [this.x op= ...] for each field, no result. *)
Definition method (f : V -> operand V -> V) (this : ref) (rhs : operand ref) : M V unit :=
  let* vthis := load this in
  let* vrhs := load_operand rhs in
  assign this (f vthis vrhs).

Definition Add : ref -> operand ref -> M V ref := static vAdd.
Definition Subtract : ref -> operand ref -> M V ref := static vSubtract.
Definition Multiply : ref -> operand ref -> M V ref := static vMultiply.
Definition Divide : ref -> operand ref -> M V ref := static vDivide.

Definition Add_method : ref -> operand ref -> M V unit := method mAdd.
Definition Subtract_method : ref -> operand ref -> M V unit := method mSubtract.
Definition Multiply_method : ref -> operand ref -> M V unit := method mMultiply.
Definition Divide_method : ref -> operand ref -> M V unit := method mDivide.

Definition magnitude (this : ref) : M V number :=
  let* v := load this in ret (vmagnitude v).

Definition normalized (this : ref) : M V ref :=
  let* v := load this in alloc (vnormalized v).

Definition ClampMagnitude (vector : ref) (maxLength : number) : M V ref :=
  let* v := load vector in alloc (vClampMagnitude v maxLength).

Definition Distance (a b : ref) : M V number :=
  let* d := Subtract a (Vec b) in magnitude d.

Definition DoLerp (a b : ref) (t : number) : M V ref :=
  let* subtracted := Subtract b (Vec a) in
  let* multiplied := Multiply subtracted (Num t) in
  let* added := Add a (Vec multiplied) in
  ret added.

Definition Lerp (a b : ref) (t : number) : M V ref :=
  if t <? n0 then ret a
  else if t >? n1 then ret b
  else DoLerp a b t.

Definition LerpUnclamped (a b : ref) (t : number) : M V ref :=
  DoLerp a b t.

Definition MoveTowards (current target : ref) (maxDistanceDelta : number) : M V ref :=
  let* distance := Distance target current in
  Lerp current target (maxDistanceDelta / distance).

End Class.

End Obj.

(** The three classes as objects. *)

Module Vector2Obj.
Definition heap : Type := Obj.heap Vector2.t.
Definition zero : Obj.M Vector2.t Obj.ref := Obj.alloc Vector2.zero.
Definition Add := Obj.Add Vector2.Add.
Definition Subtract := Obj.Subtract Vector2.Subtract.
Definition Multiply := Obj.Multiply Vector2.Multiply.
Definition Divide := Obj.Divide Vector2.Divide.
Definition Add_method := Obj.Add_method Vector2.Method.Add.
Definition Subtract_method := Obj.Subtract_method Vector2.Method.Subtract.
Definition Multiply_method := Obj.Multiply_method Vector2.Method.Multiply.
Definition Divide_method := Obj.Divide_method Vector2.Method.Divide.
Definition normalized := Obj.normalized Vector2.normalized.
Definition ClampMagnitude := Obj.ClampMagnitude Vector2.ClampMagnitude.
Definition Distance := Obj.Distance Vector2.Subtract Vector2.magnitude.
Definition Lerp := Obj.Lerp Vector2.Add Vector2.Subtract Vector2.Multiply.
Definition LerpUnclamped := Obj.LerpUnclamped Vector2.Add Vector2.Subtract Vector2.Multiply.
Definition MoveTowards :=
  Obj.MoveTowards Vector2.Add Vector2.Subtract Vector2.Multiply Vector2.magnitude.
End Vector2Obj.

Module Vector3Obj.
Definition heap : Type := Obj.heap Vector3.t.
Definition zero : Obj.M Vector3.t Obj.ref := Obj.alloc Vector3.zero.
Definition Add := Obj.Add Vector3.Add.
Definition Subtract := Obj.Subtract Vector3.Subtract.
Definition Multiply := Obj.Multiply Vector3.Multiply.
Definition Divide := Obj.Divide Vector3.Divide.
Definition Add_method := Obj.Add_method Vector3.Method.Add.
Definition Subtract_method := Obj.Subtract_method Vector3.Method.Subtract.
Definition Multiply_method := Obj.Multiply_method Vector3.Method.Multiply.
Definition Divide_method := Obj.Divide_method Vector3.Method.Divide.
Definition normalized := Obj.normalized Vector3.normalized.
Definition ClampMagnitude := Obj.ClampMagnitude Vector3.ClampMagnitude.
Definition Distance := Obj.Distance Vector3.Subtract Vector3.magnitude.
Definition Lerp := Obj.Lerp Vector3.Add Vector3.Subtract Vector3.Multiply.
Definition LerpUnclamped := Obj.LerpUnclamped Vector3.Add Vector3.Subtract Vector3.Multiply.
Definition MoveTowards :=
  Obj.MoveTowards Vector3.Add Vector3.Subtract Vector3.Multiply Vector3.magnitude.
End Vector3Obj.

Module Vector4Obj.
Definition heap : Type := Obj.heap Vector4.t.
Definition zero : Obj.M Vector4.t Obj.ref := Obj.alloc Vector4.zero.
Definition Add := Obj.Add Vector4.Add.
Definition Subtract := Obj.Subtract Vector4.Subtract.
Definition Multiply := Obj.Multiply Vector4.Multiply.
Definition Divide := Obj.Divide Vector4.Divide.
Definition Add_method := Obj.Add_method Vector4.Method.Add.
Definition Subtract_method := Obj.Subtract_method Vector4.Method.Subtract.
Definition Multiply_method := Obj.Multiply_method Vector4.Method.Multiply.
Definition Divide_method := Obj.Divide_method Vector4.Method.Divide.
Definition normalized := Obj.normalized Vector4.normalized.
Definition ClampMagnitude := Obj.ClampMagnitude Vector4.ClampMagnitude.
Definition Distance := Obj.Distance Vector4.Subtract Vector4.magnitude.
Definition Lerp := Obj.Lerp Vector4.Add Vector4.Subtract Vector4.Multiply.
Definition LerpUnclamped := Obj.LerpUnclamped Vector4.Add Vector4.Subtract Vector4.Multiply.
Definition MoveTowards :=
  Obj.MoveTowards Vector4.Add Vector4.Subtract Vector4.Multiply Vector4.magnitude.
End Vector4Obj.

(** ** Numbers and vectors of the examples *)

Definition n2 : number := of_Z 2 0.
Definition n3 : number := of_Z 3 0.
Definition n4 : number := of_Z 4 0.
Definition n5 : number := of_Z 5 0.
Definition half : number := of_Z 1 (-1).
(** [2^54] and [2^600]; the square of the latter is above every double. *)
Definition two_54 : number := of_Z 1 54.
Definition two_600 : number := of_Z 1 600.

(** [new Vector2(0, 2)] *)
Definition v_0_2 : Vector2.t := Vector2.new n0 n2.
(** [new Vector2(2^54, 0)] and [new Vector2(1, 0)] *)
Definition v_two_54 : Vector2.t := Vector2.new two_54 n0.
Definition v_1_0 : Vector2.t := Vector2.new n1 n0.
(** [new Vector2(2^600, 2^600)] *)
Definition v_huge : Vector2.t := Vector2.new two_600 two_600.
(** [new Vector3(3, 4, 0)] *)
Definition v_3_4_0 : Vector3.t := Vector3.new n3 n4 n0.

(** ** Predicates of the further properties *)

Definition is_infinite (a : number) : bool :=
  match a with S754_infinity _ => true | _ => false end.

(** Neither NaN nor an infinity. *)
Definition is_finite (a : number) : bool :=
  negb (isNaN a || is_infinite a).

(** The argument the constructor acts on: a falsy one counts as omitted. *)
Definition effective (a : number) : option number :=
  if truthy a then Some a else None.

(** [keeps_objects m]: when [m] returns, every object of the heap it was
    given is still there with the same fields. *)
Definition keeps_objects {V A : Type} (m : Obj.M V A) : Prop :=
  forall (h : Obj.heap V) (r : A) (h' : Obj.heap V),
    m h = Some (r, h') ->
    forall (i : Obj.ref) (v : V), h !! i = Some v -> h' !! i = Some v.

(** [operand_value h rhs vr]: in the heap [h] the operand [rhs] denotes
    [vr], a number or the fields of the object it refers to. *)
Definition operand_value {V : Type} (h : Obj.heap V)
    (rhs : operand Obj.ref) (vr : operand V) : Prop :=
  match rhs, vr with
  | Num n, Num n' => n = n'
  | Vec r, Vec v => h !! r = Some v
  | _, _ => False
  end.

(** [receiver_only m f]: when the instance method [m] returns, the heap has
    the same size, every object but the receiver is untouched, and the
    receiver holds [f] of its former fields and of the operand, read before
    the call. *)
Definition receiver_only {V : Type}
    (m : Obj.ref -> operand Obj.ref -> Obj.M V unit)
    (f : V -> operand V -> V) : Prop :=
  forall (h : Obj.heap V) (this : Obj.ref) (rhs : operand Obj.ref)
         (u : unit) (h' : Obj.heap V),
    m this rhs h = Some (u, h') ->
    length h' = length h
    /\ (forall i : Obj.ref, i <> this -> h' !! i = h !! i)
    /\ exists (v : V) (vr : operand V),
        h !! this = Some v /\ operand_value h rhs vr
        /\ h' !! this = Some (f v vr).

(** ** Real values and relative error *)

(** The least exponent of a double, [-1074]. *)
Definition femin : Z := SpecFloat.emin prec emax.

(** [2^e] as a real number. *)
Definition bpow (e : Z) : R := powerRZ 2 e.

(** The absolute value of a finite number, as a real number.  An infinity
    and NaN have none and are given 0: a statement on [absR a] comes with
    [is_finite a = true]. *)
Definition absR (x : number) : R :=
  match x with
  | S754_finite _ m e => (IZR (Z.pos m) * bpow e)%R
  | _ => 0%R
  end.

(** [Number.EPSILON], [2^-52]: the gap between 1 and the next double. *)
Definition EPSILON : R := (/ 4503599627370496)%R.

(** [moderate a]: [a] is a zero, or a normal number, of 53 significant
    bits, with [2^-101 <= |a| < 2^100].  The squares of such numbers, and
    the sums of four of them, neither overflow nor fall among the
    subnormal numbers. *)
Definition moderate (a : number) : bool :=
  match a with
  | S754_zero _ => true
  | S754_finite _ m e =>
      (Z.pos (digits2_pos m) =? prec) && (-153 <=? e) && (e <=? 47)
  | _ => false
  end.

(** [near s p lo hi a T]: the number [a] stands for the real [T >= 0]
    with relative error at most [p].  Either [T] is 0 and [a] is a zero, or
    [a] is a normal number of sign bit [s], with an exponent between [lo]
    and [hi], whose absolute value is within [p * T] of [T]. *)
Definition near (s : bool) (p : R) (lo hi : Z) (a : number) (T : R) : Prop :=
  (T = 0%R /\ is_zero a = true)
  \/ ((0 < T)%R /\ exists (m : positive) (e : Z),
        a = S754_finite s m e
        /\ Z.pos (digits2_pos m) = prec /\ lo <= e <= hi
        /\ (Rabs (IZR (Z.pos m) * bpow e - T) <= p * T)%R).

(** * Properties *)

(** ** Numbers *)

Section NumberFacts.

Local Open Scope num_scope.

(** Rounding acts on the magnitude only: the sign passes through. *)
Lemma binary_round_aux_negb (s : bool) (m e : Z) (l : location) :
  binary_round_aux prec emax (negb s) m e l
  = SFopp (binary_round_aux prec emax s m e l).
Proof.
  unfold binary_round_aux.
  destruct (shr_fexp prec emax m e l) as [mrs' e'].
  destruct (shr_fexp prec emax _ e' loc_Exact) as [mrs'' e''].
  destruct (shr_m mrs'') as [|p|p]; simpl; try reflexivity.
  destruct (e'' <=? emax - prec)%Z; reflexivity.
Qed.

Lemma binary_round_negb (s : bool) (m : positive) (e : Z) :
  binary_round prec emax (negb s) m e = SFopp (binary_round prec emax s m e).
Proof.
  unfold binary_round.
  destruct (shl_align m e _) as [mz ez].
  apply binary_round_aux_negb.
Qed.

Lemma binary_normalize_opp (m e : Z) :
  binary_normalize prec emax (- m) e false
  = match m with
    | Z0 => S754_zero false
    | _ => SFopp (binary_normalize prec emax m e false)
    end.
Proof.
  destruct m as [|p|p]; simpl; try reflexivity.
  - apply (binary_round_negb false).
  - apply (binary_round_negb true).
Qed.

Lemma neg_involutive (a : number) : - (- a) = a.
Proof. destruct a as [s|s| |s m e]; simpl; rewrite ?negb_involutive; reflexivity. Qed.

Lemma truthy_neg (a : number) : truthy (- a) = truthy a.
Proof. destruct a; reflexivity. Qed.

Lemma truthy_not_NaN (a : number) : truthy a = true -> isNaN a = false.
Proof. destruct a; simpl; congruence. Qed.

(** [b - a] is the negation of [a - b], except that both are [+0] when the
    operands are equal (and both are NaN together). *)
Lemma sub_swap (a b : number) :
  b - a = - (a - b) \/ (a - b = n0 /\ b - a = n0).
Proof.
  destruct a as [sa|sa| |sa ma ea], b as [sb|sb| |sb mb eb];
    try (destruct sa, sb; simpl; auto; fail);
    try (destruct sa; simpl; auto; fail);
    try (destruct sb; simpl; auto; fail);
    try (simpl; rewrite ?negb_involutive; auto; fail).
  unfold sub, SFsub.
  rewrite (Z.min_comm eb ea).
  set (ez := Z.min ea eb).
  set (A := cond_Zopp sa (Z.pos (fst (shl_align ma ea ez)))).
  set (B := cond_Zopp sb (Z.pos (fst (shl_align mb eb ez)))).
  replace (B - A)%Z with (- (A - B))%Z by lia.
  rewrite binary_normalize_opp.
  destruct (A - B)%Z eqn:E; [right | left | left]; auto.
Qed.

Lemma mul_comm (a b : number) : a * b = b * a.
Proof.
  destruct a as [sa|sa| |sa ma ea], b as [sb|sb| |sb mb eb]; simpl;
    rewrite ?(xorb_comm sb sa); try reflexivity.
  unfold mul, SFmul. now rewrite Pos.mul_comm, Z.add_comm.
Qed.

Lemma mul_neg_neg (a : number) : (- a) * (- a) = a * a.
Proof.
  destruct a as [s|s| |s m e]; try reflexivity; destruct s; reflexivity.
Qed.

Lemma eqb_refl (a : number) : isNaN a = false -> (a == a) = true.
Proof.
  destruct a as [s|s| |s m e]; simpl; try congruence; intros _;
    unfold eqb, SFeqb, SFcompare.
  - reflexivity.
  - destruct s; reflexivity.
  - rewrite Z.compare_refl, Pos.compare_cont_refl. destruct s; reflexivity.
Qed.

(** The constructor applied to the two differences [a - b] and [b - a]:
    either both fields keep the initialiser, or they hold [a - b] and its
    negation. *)
Lemma init_sub_swap (d a b : number) :
  (truthy (a - b) = true /\ init d (Some (a - b)) = a - b
                         /\ init d (Some (b - a)) = - (a - b))
  \/ (init d (Some (a - b)) = d /\ init d (Some (b - a)) = d).
Proof.
  destruct (sub_swap a b) as [E | [E1 E2]].
  - simpl. rewrite E, truthy_neg.
    destruct (truthy (a - b)); auto.
  - right. simpl. rewrite E1, E2. auto.
Qed.

(** Squaring forgets which way round the difference was taken. *)
Lemma sq_init_sub_swap (d a b : number) :
  init d (Some (b - a)) * init d (Some (b - a))
  = init d (Some (a - b)) * init d (Some (a - b)).
Proof.
  destruct (init_sub_swap d a b) as [(_ & E1 & E2) | [E1 E2]];
    rewrite E1, E2; [apply mul_neg_neg | reflexivity].
Qed.

Lemma init_not_NaN (d : number) (arg : option number) :
  isNaN d = false -> isNaN (init d arg) = false.
Proof.
  intros Hd. destruct arg as [v|]; simpl; auto.
  destruct (truthy v) eqn:E; auto using truthy_not_NaN.
Qed.

(** Division by [+0] or [-0]: an infinity, or NaN when the dividend is a
    zero or NaN. *)
Lemma div_zero (n : number) (s : bool) :
  n / S754_zero s
  = if truthy n then S754_infinity (xorb (sign_set n) s) else NaN.
Proof. destruct n; reflexivity. Qed.

Lemma init_div_zero (d n : number) (s : bool) :
  init d (Some (n / S754_zero s))
  = if truthy n then S754_infinity (xorb (sign_set n) s) else d.
Proof. rewrite div_zero. destruct (truthy n); reflexivity. Qed.

Lemma sub_self (a : number) : truthy (a - a) = false.
Proof.
  destruct a as [s|s| |s m e]; try (destruct s; reflexivity); try reflexivity.
  unfold sub, SFsub. now rewrite Z.sub_diag.
Qed.

Lemma mul_zero_r (a : number) (s : bool) : truthy (a * S754_zero s) = false.
Proof. destruct a; reflexivity. Qed.

Lemma mul_NaN_r (a : number) : a * NaN = NaN.
Proof. destruct a; reflexivity. Qed.

(** Adding [+0] and storing the sum keeps every number but [-0], which
    becomes [+0]. *)
Lemma init_add_n0 (a : number) :
  isNaN a = false -> (init n0 (Some (a + n0)) == a) = true.
Proof.
  intros Ha. destruct a as [s|s| |s m e]; try discriminate.
  - destruct s; reflexivity.
  - apply (eqb_refl (S754_infinity s)); reflexivity.
  - apply (eqb_refl (S754_finite s m e)); reflexivity.
Qed.

(** *** Comparisons *)

Lemma SFcompare_swap (a b : number) :
  SFcompare b a = option_map CompOpp (SFcompare a b).
Proof.
  destruct a as [sa|sa| |sa ma ea], b as [sb|sb| |sb mb eb]; simpl;
    try reflexivity;
    try (destruct sa; reflexivity);
    try (destruct sb; reflexivity);
    try (destruct sa, sb; reflexivity).
  rewrite (Z.compare_antisym ea eb).
  assert (H : Pos.compare_cont Eq mb ma = CompOpp (Pos.compare_cont Eq ma mb))
    by (symmetry; apply (Pos.compare_cont_antisym ma mb Eq)).
  rewrite H.
  destruct sa, sb; simpl; try reflexivity;
    destruct (ea ?= eb)%Z; simpl; try reflexivity;
    now rewrite CompOpp_involutive.
Qed.

Lemma le_not_gt (a b : number) : (a <=? b) = true -> (a >? b) = false.
Proof.
  unfold le, gt, SFleb, SFltb. rewrite (SFcompare_swap a b).
  destruct (SFcompare a b) as [[]|]; simpl; congruence.
Qed.

Lemma le_not_NaN (a b : number) : (a <=? b) = true -> isNaN a = false.
Proof. destruct a, b; simpl; try reflexivity; discriminate. Qed.

(** A negative number is below every number whose sign bit is clear. *)
Lemma negative_lt_has_sign (m a : number) :
  (m <? n0) = true -> has_sign false a -> (a >? m) = true.
Proof.
  destruct m as [sm|sm| |sm mm em]; try discriminate;
    destruct sm; try discriminate; intros _;
    destruct a as [s|s| |s ma ea]; simpl; try tauto; intros ->; reflexivity.
Qed.

Lemma negative_has_sign (m : number) : (m <? n0) = true -> has_sign true m.
Proof.
  destruct m as [sm|sm| |sm mm em]; try discriminate;
    destruct sm; try discriminate; reflexivity.
Qed.

(** *** Multiplying by one *)

Lemma digits2_pos_xO (p : positive) :
  Z.pos (digits2_pos p~0) = (Z.pos (digits2_pos p) + 1)%Z.
Proof. cbn [digits2_pos]. apply Pos2Z.inj_succ. Qed.

(** A representable number times 1 needs no rounding. *)
Lemma mul_one_r (a : number) : valid a = true -> a * n1 = a.
Proof.
  destruct a as [s|s| |s m e]; intros Hv;
    try (simpl; rewrite ?xorb_false_r; reflexivity).
  unfold valid, valid_binary, bounded, canonical_mantissa in Hv.
  apply andb_prop in Hv as [Hc Hb].
  apply Z.eqb_eq in Hc.
  unfold mul, SFmul, n1.
  rewrite xorb_false_r, Pos.mul_comm.
  match goal with
  | |- context [Z.pos (?a * m)] =>
      let t := eval cbv [Pos.mul] in (a * m)%positive in
      change (a * m)%positive with t
  end.
  unfold binary_round_aux, shr_fexp.
  cbn [Zdigits2].
  rewrite !digits2_pos_xO.
  replace (fexp _ _ _) with e.
  2:{ rewrite <- Hc at 1. f_equal. lia. }
  replace (e - (e + -52))%Z with 52%Z by lia.
  cbn [shr shr_record_of_loc SpecFloat.iter_pos shr_1 orb].
  cbn [shr_m loc_of_shr_record round_nearest_even Zdigits2].
  replace (e + -52 + 52)%Z with e by lia.
  rewrite Hc, Z.sub_diag.
  cbn [shr shr_m shr_record_of_loc].
  now rewrite Hb.
Qed.

(** *** Signs

    Rounding a non-negative integer mantissa never yields NaN and keeps the
    sign it is given. *)

Lemma shr_1_nonneg (r : shr_record) :
  (0 <= shr_m r)%Z -> (0 <= shr_m (shr_1 r))%Z.
Proof.
  destruct r as [m r s]; simpl.
  destruct m as [|[p|p|]|[p|p|]]; simpl; lia.
Qed.

Lemma iter_pos_preserves {A : Type} (P : A -> Prop) (f : A -> A) :
  (forall a, P a -> P (f a)) ->
  forall (p : positive) (a : A), P a -> P (SpecFloat.iter_pos f p a).
Proof.
  intros Hf. induction p as [p IH|p IH|]; intros a Ha; simpl; auto.
Qed.

Lemma shr_nonneg (r : shr_record) (e n : Z) :
  (0 <= shr_m r)%Z -> (0 <= shr_m (fst (shr r e n)))%Z.
Proof.
  intros Hr. destruct n as [|p|p]; simpl; auto.
  apply (iter_pos_preserves (fun r => 0 <= shr_m r)%Z); auto using shr_1_nonneg.
Qed.

Lemma shr_fexp_nonneg (m e : Z) (l : location) :
  (0 <= m)%Z -> (0 <= shr_m (fst (shr_fexp prec emax m e l)))%Z.
Proof.
  intros Hm. unfold shr_fexp. apply shr_nonneg.
  destruct l as [|[]]; exact Hm.
Qed.

Lemma round_nearest_even_nonneg (m : Z) (l : location) :
  (0 <= m)%Z -> (0 <= round_nearest_even m l)%Z.
Proof.
  intros Hm. destruct l as [|[]]; simpl; try lia.
  destruct (Z.even m); lia.
Qed.

Lemma binary_round_aux_has_sign (s : bool) (m e : Z) (l : location) :
  (0 <= m)%Z -> has_sign s (binary_round_aux prec emax s m e l).
Proof.
  intros Hm. unfold binary_round_aux.
  pose proof (shr_fexp_nonneg m e l Hm) as H1.
  destruct (shr_fexp prec emax m e l) as [mrs' e']. simpl in H1.
  pose proof (shr_fexp_nonneg _ e' loc_Exact
                (round_nearest_even_nonneg _ (loc_of_shr_record mrs') H1)) as H2.
  destruct (shr_fexp prec emax _ e' loc_Exact) as [mrs'' e'']. simpl in H2.
  destruct (shr_m mrs'') as [|p|p]; simpl; try reflexivity; try lia.
  destruct (e'' <=? emax - prec)%Z; reflexivity.
Qed.

Lemma binary_round_has_sign (s : bool) (m : positive) (e : Z) :
  has_sign s (binary_round prec emax s m e).
Proof.
  unfold binary_round. destruct (shl_align m e _) as [mz ez].
  apply binary_round_aux_has_sign. lia.
Qed.

Lemma mul_self_has_sign (a : number) :
  isNaN a = false -> has_sign false (a * a).
Proof.
  destruct a as [s|s| |s m e]; simpl; try congruence; intros _;
    try (destruct s; reflexivity).
  unfold mul, SFmul. rewrite xorb_nilpotent.
  apply binary_round_aux_has_sign. lia.
Qed.

Lemma add_has_sign (a b : number) :
  has_sign false a -> has_sign false b -> has_sign false (a + b).
Proof.
  destruct a as [sa|sa| |sa ma ea], b as [sb|sb| |sb mb eb]; simpl;
    try tauto; intros -> ->; try reflexivity.
  unfold add, SFadd. simpl. apply binary_round_has_sign.
Qed.

Lemma sqrt_has_sign (a : number) :
  has_sign false a -> has_sign false (Math_sqrt a).
Proof.
  destruct a as [s|s| |s m e]; simpl; try tauto; intros ->; try reflexivity.
  unfold Math_sqrt, SFsqrt, SFsqrt_core_binary.
  set (m' := match _ with Z0 => _ | _ => _ end).
  assert (Hm' : (0 <= m')%Z).
  { subst m'. destruct (_ - _)%Z; try lia. apply Z.shiftl_nonneg. lia. }
  pose proof (Z.sqrtrem_spec m' Hm') as Hs.
  destruct (Z.sqrtrem m') as [q r].
  apply binary_round_aux_has_sign. lia.
Qed.

(** The sign of a quotient is the exclusive or of the signs, whenever the
    quotient is a number at all. *)
Lemma div_has_sign (sa sb : bool) (a b : number) :
  has_sign sa a -> has_sign sb b ->
  has_sign (xorb sa sb) (a / b)
  \/ (is_zero a = true /\ is_zero b = true)
  \/ (exists s s', a = S754_infinity s /\ b = S754_infinity s').
Proof.
  destruct a as [sa'|sa'| |sa' ma ea], b as [sb'|sb'| |sb' mb eb];
    cbn [has_sign is_zero]; try tauto; intros -> ->;
    try (left; reflexivity);
    try (right; left; split; reflexivity);
    try (right; right; eexists; eexists; split; reflexivity).
  left. unfold div, SFdiv, SFdiv_core_binary. cbv zeta.
  match goal with
  | |- context [Z.div_eucl ?t _] => set (m' := t)
  end.
  assert (Hm' : (0 <= m')%Z).
  { subst m'. destruct (_ - _ - _)%Z; try lia. apply Z.shiftl_nonneg. lia. }
  pose proof (Z.div_pos m' (Z.pos mb) Hm' ltac:(lia)) as Hq.
  unfold Z.div in Hq.
  destruct (Z.div_eucl m' (Z.pos mb)) as [q r].
  apply binary_round_aux_has_sign. exact Hq.
Qed.

(** The sign of a product, likewise. *)
Lemma mul_has_sign (sa sb : bool) (a b : number) :
  has_sign sa a -> has_sign sb b -> isNaN (a * b) = false ->
  has_sign (xorb sa sb) (a * b).
Proof.
  destruct a as [sa'|sa'| |sa' ma ea], b as [sb'|sb'| |sb' mb eb]; simpl;
    try tauto; intros -> ->; try discriminate; try reflexivity.
  intros _. apply binary_round_aux_has_sign. lia.
Qed.

(** NaN operands give NaN results. *)
Lemma add_not_NaN (a b : number) :
  isNaN (a + b) = false -> isNaN a = false /\ isNaN b = false.
Proof. destruct a, b; simpl; auto; discriminate. Qed.

Lemma mul_not_NaN (a b : number) :
  isNaN (a * b) = false -> isNaN a = false /\ isNaN b = false.
Proof. destruct a, b; simpl; auto; discriminate. Qed.

Lemma sqrt_not_NaN (a : number) :
  isNaN (Math_sqrt a) = false -> isNaN a = false.
Proof. destruct a; simpl; auto. Qed.

End NumberFacts.

(** ** Objects *)

Section ObjectFacts.

Context {V : Type}.
Variables (vAdd vSubtract vMultiply : V -> operand V -> V).
Variable vmagnitude : V -> number.

Implicit Types (h : Obj.heap V) (a b r : Obj.ref) (t : number).

Local Open Scope num_scope.

Lemma load_Some h r v : h !! r = Some v -> Obj.load r h = Some (v, h).
Proof. unfold Obj.load. now intros ->. Qed.

(** An object survives allocation. *)
Lemma lookup_alloc h r v (l : list V) : h !! r = Some v -> (h ++ l) !! r = Some v.
Proof. intros H. now apply lookup_app_l_Some. Qed.

(** A reference in use is not the next one allocated. *)
Lemma ref_in_use_lt h r v : h !! r = Some v -> (r < length h)%nat.
Proof. intros H. apply lookup_lt_is_Some. eauto. Qed.

Lemma static_Vec (f : V -> operand V -> V) h a b va vb :
  h !! a = Some va -> h !! b = Some vb ->
  Obj.static f a (Vec b) h = Some (length h, h ++ [f va (Vec vb)]).
Proof.
  intros Ha Hb. unfold Obj.static, Obj.bind, Obj.load_operand, Obj.bind.
  rewrite (load_Some _ _ _ Ha), (load_Some _ _ _ Hb). reflexivity.
Qed.

Lemma static_Num (f : V -> operand V -> V) h a n va :
  h !! a = Some va ->
  Obj.static f a (Num n) h = Some (length h, h ++ [f va (Num n)]).
Proof.
  intros Ha. unfold Obj.static, Obj.bind, Obj.load_operand.
  rewrite (load_Some _ _ _ Ha). reflexivity.
Qed.

(** An instance method overwrites the receiver in place and allocates
    nothing. *)
Lemma method_Num (f : V -> operand V -> V) h this n v :
  h !! this = Some v ->
  Obj.method f this (Num n) h = Some (tt, <[this := f v (Num n)]> h).
Proof.
  intros Ha. unfold Obj.method, Obj.bind, Obj.load_operand, Obj.assign.
  rewrite (load_Some _ _ _ Ha). simpl. now rewrite Ha.
Qed.

Lemma method_Vec (f : V -> operand V -> V) h this rhs v vr :
  h !! this = Some v -> h !! rhs = Some vr ->
  Obj.method f this (Vec rhs) h = Some (tt, <[this := f v (Vec vr)]> h).
Proof.
  intros Ha Hr. unfold Obj.method, Obj.bind, Obj.load_operand, Obj.bind, Obj.assign.
  rewrite (load_Some _ _ _ Ha), (load_Some _ _ _ Hr). simpl. now rewrite Ha.
Qed.

(** [DoLerp] allocates three objects, the last of which it returns. *)
Lemma DoLerp_spec h a b t va vb :
  h !! a = Some va -> h !! b = Some vb ->
  let subtracted := vSubtract vb (Vec va) in
  let multiplied := vMultiply subtracted (Num t) in
  let added := vAdd va (Vec multiplied) in
  Obj.DoLerp vAdd vSubtract vMultiply a b t h
  = Some (S (S (length h)), h ++ [subtracted; multiplied; added]).
Proof.
  intros Ha Hb. cbv zeta.
  unfold Obj.DoLerp, Obj.Subtract, Obj.Multiply, Obj.Add.
  unfold Obj.bind at 1. rewrite (static_Vec _ h b a vb va Hb Ha).
  unfold Obj.bind at 1.
  rewrite (static_Num _ (h ++ _) (length h) t (vSubtract vb (Vec va)))
    by (now rewrite lookup_app_r, Nat.sub_diag by lia).
  unfold Obj.bind at 1.
  rewrite (static_Vec _ ((h ++ _) ++ _) a (length (h ++ _)) va
             (vMultiply (vSubtract vb (Vec va)) (Num t))).
  - unfold Obj.ret. rewrite !length_app. simpl.
    rewrite <- !app_assoc. simpl. do 2 f_equal. lia.
  - now do 2 apply lookup_alloc.
  - now rewrite lookup_app_r, Nat.sub_diag by lia.
Qed.

Lemma Lerp_below h a b t :
  (t <? n0) = true -> Obj.Lerp vAdd vSubtract vMultiply a b t h = Some (a, h).
Proof. intros Ht. unfold Obj.Lerp. now rewrite Ht. Qed.

Lemma Lerp_above h a b t :
  (t <? n0) = false -> (t >? n1) = true ->
  Obj.Lerp vAdd vSubtract vMultiply a b t h = Some (b, h).
Proof. intros H0 H1. unfold Obj.Lerp. now rewrite H0, H1. Qed.

Lemma Lerp_between h a b t :
  (t <? n0) = false -> (t >? n1) = false ->
  Obj.Lerp vAdd vSubtract vMultiply a b t h
  = Obj.LerpUnclamped vAdd vSubtract vMultiply a b t h.
Proof. intros H0 H1. unfold Obj.Lerp. now rewrite H0, H1. Qed.

(** The three outcomes of [Lerp] together. *)
Lemma Lerp_object_cases h a b t :
  ((t <? n0) = true ->
   Obj.Lerp vAdd vSubtract vMultiply a b t h = Some (a, h))
  /\ ((t <? n0) = false -> (t >? n1) = true ->
      Obj.Lerp vAdd vSubtract vMultiply a b t h = Some (b, h))
  /\ ((t <? n0) = false -> (t >? n1) = false ->
      Obj.Lerp vAdd vSubtract vMultiply a b t h
      = Obj.LerpUnclamped vAdd vSubtract vMultiply a b t h
      /\ forall va vb : V,
          h !! a = Some va -> h !! b = Some vb ->
          Obj.Lerp vAdd vSubtract vMultiply a b t h
          = Some (S (S (length h)),
                  h ++ [vSubtract vb (Vec va);
                        vMultiply (vSubtract vb (Vec va)) (Num t);
                        vAdd va (Vec (vMultiply (vSubtract vb (Vec va)) (Num t)))])
          /\ S (S (length h)) <> a /\ S (S (length h)) <> b).
Proof.
  split; [apply Lerp_below | split; [apply Lerp_above |]].
  intros H0 H1. split; [now apply Lerp_between |].
  intros va vb Ha Hb. split.
  - rewrite Lerp_between by assumption. now apply DoLerp_spec.
  - apply ref_in_use_lt in Ha, Hb. lia.
Qed.

(** [Distance] allocates the difference and returns its magnitude. *)
Lemma Distance_spec h a b va vb :
  h !! a = Some va -> h !! b = Some vb ->
  Obj.Distance vSubtract vmagnitude a b h
  = Some (vmagnitude (vSubtract va (Vec vb)), h ++ [vSubtract va (Vec vb)]).
Proof.
  intros Ha Hb. unfold Obj.Distance, Obj.Subtract, Obj.magnitude.
  unfold Obj.bind at 1. rewrite (static_Vec _ h a b va vb Ha Hb).
  unfold Obj.bind, Obj.load.
  now rewrite lookup_app_r, Nat.sub_diag by lia.
Qed.

Lemma MoveTowards_spec h current target d vc vt :
  h !! current = Some vc -> h !! target = Some vt ->
  Obj.MoveTowards vAdd vSubtract vMultiply vmagnitude current target d h
  = Obj.Lerp vAdd vSubtract vMultiply current target
      (d / vmagnitude (vSubtract vt (Vec vc)))
      (h ++ [vSubtract vt (Vec vc)]).
Proof.
  intros Hc Ht. unfold Obj.MoveTowards. unfold Obj.bind at 1.
  now rewrite (Distance_spec h target current vt vc Ht Hc).
Qed.

Lemma alloc_after_load (f : V -> V) h r v :
  h !! r = Some v ->
  Obj.bind (Obj.load r) (fun x => Obj.alloc (f x)) h
  = Some (length h, h ++ [f v]).
Proof. intros H. unfold Obj.bind. now rewrite (load_Some _ _ _ H). Qed.

End ObjectFacts.

(** ** Rounding

    The operations on doubles round to nearest; the lemmas below bound the
    error of one operation on normal numbers, first on the integers of
    the mantissa, then on the real numbers. *)

Section IntegerRounding.

(** [digits2_pos m] is the number of bits of [m]. *)
Lemma digits2_pos_bounds (m : positive) :
  2 ^ (Z.pos (digits2_pos m) - 1) <= Z.pos m < 2 ^ Z.pos (digits2_pos m).
Proof.
  induction m as [m IH|m IH|]; cbn [digits2_pos];
    rewrite ?Pos2Z.inj_succ.
  - replace (Z.succ (Z.pos (digits2_pos m)) - 1) with (Z.succ (Z.pos (digits2_pos m) - 1)) by lia.
    rewrite !Z.pow_succ_r by lia. lia.
  - replace (Z.succ (Z.pos (digits2_pos m)) - 1) with (Z.succ (Z.pos (digits2_pos m) - 1)) by lia.
    rewrite !Z.pow_succ_r by lia. lia.
  - simpl. lia.
Qed.

Lemma digits2_pos_unique (m : positive) (k : Z) :
  2 ^ (k - 1) <= Z.pos m < 2 ^ k -> Z.pos (digits2_pos m) = k.
Proof.
  intros [H1 H2]. pose proof (digits2_pos_bounds m) as [B1 B2].
  set (d := Z.pos (digits2_pos m)) in *.
  assert (0 < k).
  { destruct (Z_lt_le_dec 0 k); auto.
    assert (2 ^ k <= 2 ^ 0) by (apply Z.pow_le_mono_r; lia).
    simpl in *. lia. }
  destruct (Z_lt_le_dec d k) as [L|L].
  - assert (2 ^ d <= 2 ^ (k - 1)) by (apply Z.pow_le_mono_r; lia). lia.
  - destruct (Z_lt_le_dec k d) as [L'|L']; [| lia].
    assert (2 ^ k <= 2 ^ (d - 1)) by (apply Z.pow_le_mono_r; lia). lia.
Qed.

(** One step of the right shift halves the mantissa. *)
Lemma shr_1_div (r : shr_record) :
  0 <= shr_m r -> shr_m (shr_1 r) = shr_m r / 2.
Proof.
  destruct r as [m r s]; simpl.
  destruct m as [|[p|p|]|p]; simpl; intros H; try lia; try reflexivity.
  - rewrite Pos2Z.inj_xI. apply Z.div_unique with 1; lia.
  - rewrite Pos2Z.inj_xO. apply Z.div_unique with 0; lia.
Qed.

Lemma pow2_xO (p : positive) : 2 ^ Z.pos p~0 = 2 ^ Z.pos p * 2 ^ Z.pos p.
Proof. rewrite Pos2Z.inj_xO, <- Z.pow_add_r by lia. f_equal. lia. Qed.

Lemma pow2_xI (p : positive) : 2 ^ Z.pos p~1 = 2 * (2 ^ Z.pos p * 2 ^ Z.pos p).
Proof.
  rewrite Pos2Z.inj_xI, <- Z.pow_add_r, <- Z.pow_succ_r by lia. f_equal. lia.
Qed.

(** [p] steps divide it by [2^p]. *)
Lemma iter_shr_1_div (p : positive) (r : shr_record) :
  0 <= shr_m r ->
  shr_m (SpecFloat.iter_pos shr_1 p r) = shr_m r / 2 ^ Z.pos p.
Proof.
  revert r. induction p as [p IH|p IH|]; intros r Hr; cbn [SpecFloat.iter_pos].
  - assert (H1 : 0 <= shr_m (shr_1 r)) by now apply shr_1_nonneg.
    assert (H2 : 0 <= shr_m (SpecFloat.iter_pos shr_1 p (shr_1 r)))
      by (apply (iter_pos_preserves (fun r => 0 <= shr_m r)); auto using shr_1_nonneg).
    rewrite IH, IH, shr_1_div by assumption.
    rewrite !Z.div_div by (try apply Z.pow_pos_nonneg; lia).
    f_equal. rewrite (pow2_xI p). lia.
  - assert (H2 : 0 <= shr_m (SpecFloat.iter_pos shr_1 p r))
      by (apply (iter_pos_preserves (fun r => 0 <= shr_m r)); auto using shr_1_nonneg).
    rewrite IH, IH by assumption.
    rewrite !Z.div_div by (try apply Z.pow_pos_nonneg; lia).
    f_equal. rewrite (pow2_xO p). lia.
  - now apply shr_1_div.
Qed.

Lemma shr_record_of_loc_m (m : Z) (l : location) : shr_m (shr_record_of_loc m l) = m.
Proof. destruct l as [|[]]; reflexivity. Qed.

Lemma round_nearest_even_range (m : Z) (l : location) :
  round_nearest_even m l = m \/ round_nearest_even m l = m + 1.
Proof. destruct l as [|[]]; simpl; auto. destruct (Z.even m); auto. Qed.

Lemma femin_eq : femin = -1074.
Proof. reflexivity. Qed.

(** Shifting a mantissa to the exponent of its format divides it by a
    power of 2. *)
Lemma shr_fexp_spec (M E : Z) (l : location) :
  0 <= M ->
  let n := Z.max 0 (fexp prec emax (Zdigits2 M + E) - E) in
  exists r, shr_fexp prec emax M E l = (r, E + n) /\ shr_m r = M / 2 ^ n.
Proof.
  intros HM n. unfold shr_fexp. subst n.
  set (k := fexp prec emax (Zdigits2 M + E) - E).
  destruct k as [|p|p] eqn:Ek; cbn [shr Z.max].
  - eexists; split; [rewrite Z.add_0_r; reflexivity |].
    rewrite shr_record_of_loc_m. simpl. now rewrite Z.div_1_r.
  - replace (Z.max 0 (Z.pos p)) with (Z.pos p) by lia.
    eexists; split; [reflexivity |].
    rewrite iter_shr_1_div; rewrite shr_record_of_loc_m; auto.
  - replace (Z.max 0 (Z.neg p)) with 0 by lia.
    eexists; split; [rewrite Z.add_0_r; reflexivity |].
    rewrite shr_record_of_loc_m. simpl. now rewrite Z.div_1_r.
Qed.

Lemma Zdigits2_unique (M k : Z) :
  2 ^ (k - 1) <= M < 2 ^ k -> 0 < M -> Zdigits2 M = k.
Proof.
  intros H HM. destruct M as [|m|m]; try lia.
  simpl. now apply digits2_pos_unique.
Qed.

(** Rounding a mantissa [M] of [d >= 53] bits whose result is a normal
    number: the result has 53 bits, and its mantissa is the quotient [q]
    of [M] by [2^(d - 53)] or [q + 1], the latter carrying to the next
    exponent when it reaches [2^53]. *)
Lemma binary_round_aux_shift (s : bool) (M : positive) (E : Z) (l : location) :
  let d := Z.pos (digits2_pos M) in
  let n := d - prec in
  let q := Z.pos M / 2 ^ n in
  prec <= d -> femin <= d + E - prec -> d + E <= emax - 1 ->
  exists (m' : positive) (e' : Z),
    binary_round_aux prec emax s (Z.pos M) E l = S754_finite s m' e'
    /\ Z.pos (digits2_pos m') = prec
    /\ 2 ^ (prec - 1) <= q
    /\ ((e' = E + n /\ (Z.pos m' = q \/ Z.pos m' = q + 1))
        \/ (e' = E + n + 1 /\ q + 1 = 2 ^ prec /\ Z.pos m' = 2 ^ (prec - 1))).
Proof.
  intros d n q Hd Hmin Hmax.
  pose proof (digits2_pos_bounds M) as [B1 B2]. fold d in B1, B2.
  assert (Hn : 0 <= n) by (unfold n; lia).
  assert (P2 : 0 < 2 ^ n) by (apply Z.pow_pos_nonneg; lia).
  assert (Hsplit : 2 ^ d = 2 ^ n * 2 ^ prec).
  { rewrite <- Z.pow_add_r by (unfold prec; lia). f_equal. unfold n. lia. }
  assert (Hsplit' : 2 ^ (d - 1) = 2 ^ n * 2 ^ (prec - 1)).
  { rewrite <- Z.pow_add_r by (unfold prec; lia). f_equal. unfold n. lia. }
  assert (Q1 : 2 ^ (prec - 1) <= q).
  { unfold q. apply Z.div_le_lower_bound; lia. }
  assert (Q2 : q < 2 ^ prec).
  { unfold q. apply Z.div_lt_upper_bound; lia. }
  unfold binary_round_aux.
  destruct (shr_fexp_spec (Z.pos M) E l ltac:(lia)) as (r1 & E1 & R1).
  cbn [Zdigits2] in E1, R1. fold d in E1, R1.
  assert (F1 : fexp prec emax (d + E) - E = n).
  { unfold fexp. fold femin. unfold n. lia. }
  rewrite F1 in E1, R1. replace (Z.max 0 n) with n in E1, R1 by lia.
  fold q in R1. rewrite E1. rewrite R1.
  set (M1 := round_nearest_even q (loc_of_shr_record r1)).
  assert (HM1 : M1 = q \/ M1 = q + 1) by apply round_nearest_even_range.
  assert (HM1pos : 0 < M1).
  { assert (0 < 2 ^ (prec - 1)) by (apply Z.pow_pos_nonneg; unfold prec; lia). lia. }
  destruct (shr_fexp_spec M1 (E + n) loc_Exact ltac:(lia)) as (r2 & E2 & R2).
  assert (Hp : 2 ^ prec = 2 * 2 ^ (prec - 1)) by reflexivity.
  destruct (Z_lt_le_dec M1 (2 ^ prec)) as [L|L].
  - assert (D1 : Zdigits2 M1 = prec) by (apply Zdigits2_unique; lia).
    rewrite D1 in E2, R2.
    assert (F2 : fexp prec emax (prec + (E + n)) - (E + n) = 0).
    { unfold fexp. fold femin. unfold n. lia. }
    rewrite F2 in E2, R2. change (Z.max 0 0) with 0 in E2, R2.
    rewrite Z.add_0_r in E2. simpl (2 ^ 0) in R2. rewrite Z.div_1_r in R2.
    rewrite E2, R2.
    destruct M1 as [|m1|m1] eqn:EM1; try lia.
    exists m1, (E + n).
    replace (E + n <=? emax - prec) with true
      by (symmetry; apply Z.leb_le; unfold n; lia).
    split; [reflexivity |]. split; [| split; [exact Q1 |]].
    + apply digits2_pos_unique. lia.
    + left. split; [reflexivity | exact HM1].
  - assert (EM1 : M1 = 2 ^ prec) by lia.
    assert (D1 : Zdigits2 M1 = prec + 1).
    { apply Zdigits2_unique; [| lia].
      replace (prec + 1 - 1) with prec by lia.
      rewrite EM1. split; [lia |]. apply Z.pow_lt_mono_r; unfold prec; lia. }
    rewrite D1 in E2, R2.
    assert (F2 : fexp prec emax (prec + 1 + (E + n)) - (E + n) = 1).
    { unfold fexp. fold femin. unfold n. lia. }
    rewrite F2 in E2, R2. change (Z.max 0 1) with 1 in E2, R2.
    rewrite E2, R2, EM1.
    change (2 ^ prec / 2 ^ 1) with (2 ^ (prec - 1)).
    change (2 ^ (prec - 1)) with (Z.pos 4503599627370496) at 1.
    cbv iota.
    exists 4503599627370496%positive, (E + n + 1).
    replace (E + n + 1 <=? emax - prec) with true
      by (symmetry; apply Z.leb_le; unfold n; lia).
    split; [reflexivity |]. split; [reflexivity |]. split; [exact Q1 |].
    right. split; [reflexivity |]. split; [lia | reflexivity].
Qed.

End IntegerRounding.

Section RealRounding.

Local Open Scope R_scope.

(** Powers of 2. *)
Lemma bpow_pos (e : Z) : 0 < bpow e.
Proof. apply powerRZ_lt. lra. Qed.

Lemma bpow_add (a b : Z) : bpow (a + b) = bpow a * bpow b.
Proof. apply powerRZ_add. lra. Qed.

Lemma bpow_IZR (n : Z) : (0 <= n)%Z -> bpow n = IZR (2 ^ n).
Proof.
  intros Hn. unfold bpow. rewrite <- (Z2Nat.id n Hn).
  rewrite <- pow_powerRZ. rewrite <- pow_IZR. reflexivity.
Qed.

Lemma bpow_le (a b : Z) : (a <= b)%Z -> bpow a <= bpow b.
Proof.
  intros H. replace b with (a + (b - a))%Z by lia.
  rewrite bpow_add, (bpow_IZR (b - a)) by lia.
  assert (1 <= IZR (2 ^ (b - a))).
  { apply IZR_le. assert (0 < 2 ^ (b - a))%Z by (apply Z.pow_pos_nonneg; lia). lia. }
  pose proof (bpow_pos a). nra.
Qed.

(** The value of a rounded mantissa is within one unit in the last place
    of every number between [M] and [M + 1] units. *)
Lemma round_real (s : bool) (M : positive) (E : Z) (l : location) (T : R) :
  let d := Z.pos (digits2_pos M) in
  (prec <= d)%Z -> (femin <= d + E - prec)%Z -> (d + E <= emax - 1)%Z ->
  IZR (Z.pos M) * bpow E <= T <= (IZR (Z.pos M) + 1) * bpow E ->
  exists (m' : positive) (e' : Z),
    binary_round_aux prec emax s (Z.pos M) E l = S754_finite s m' e'
    /\ Z.pos (digits2_pos m') = prec
    /\ (d + E - prec <= e' <= d + E - prec + 1)%Z
    /\ Rabs (IZR (Z.pos m') * bpow e' - T) <= EPSILON * T.
Proof.
  intros d Hd Hmin Hmax [T1 T2].
  destruct (binary_round_aux_shift s M E l Hd Hmin Hmax)
    as (m' & e' & Hr & Hdig & Q1 & Hc).
  fold d in Q1, Hc.
  set (n := (d - prec)%Z) in *. set (q := (Z.pos M / 2 ^ n)%Z) in *.
  exists m', e'. split; [exact Hr |]. split; [exact Hdig |].
  assert (Hn : (0 <= n)%Z) by (unfold n; lia).
  assert (P2 : (0 < 2 ^ n)%Z) by (apply Z.pow_pos_nonneg; lia).
  pose proof (Z.mul_div_le (Z.pos M) (2 ^ n) P2) as D1.
  pose proof (Z.mul_succ_div_gt (Z.pos M) (2 ^ n) P2) as D2.
  fold q in D1, D2.
  set (B := bpow (E + n)).
  assert (HB : 0 < B) by apply bpow_pos.
  assert (EB : B = bpow E * IZR (2 ^ n)).
  { unfold B. now rewrite bpow_add, (bpow_IZR n). }
  assert (TB1 : IZR q * B <= T).
  { apply Rle_trans with (2 := T1). rewrite EB.
    pose proof (bpow_pos E).
    assert (IZR q * IZR (2 ^ n) <= IZR (Z.pos M)).
    { rewrite <- mult_IZR. apply IZR_le. lia. }
    nra. }
  assert (TB2 : T <= (IZR q + 1) * B).
  { apply Rle_trans with (1 := T2). rewrite EB.
    pose proof (bpow_pos E).
    assert (IZR (Z.pos M) + 1 <= (IZR q + 1) * IZR (2 ^ n)).
    { rewrite <- plus_IZR, <- (plus_IZR q 1), <- mult_IZR. apply IZR_le. lia. }
    nra. }
  assert (HV : IZR (Z.pos m') * bpow e' = IZR q * B
               \/ IZR (Z.pos m') * bpow e' = (IZR q + 1) * B).
  { destruct Hc as [[-> [-> | ->]] | (-> & Hq & ->)].
    - now left.
    - right. now rewrite plus_IZR.
    - right. rewrite <- (plus_IZR q 1), Hq.
      replace (E + n + 1)%Z with ((E + n) + 1)%Z by lia.
      rewrite bpow_add. fold B.
      change (bpow 1) with (powerRZ 2 1). simpl.
      change (2 ^ prec)%Z with (2 * 2 ^ (prec - 1))%Z.
      rewrite mult_IZR. lra. }
  assert (HQ : 4503599627370496 <= IZR q).
  { change 4503599627370496 with (IZR (2 ^ (prec - 1))). now apply IZR_le. }
  split; [destruct Hc as [[-> _] | (-> & _)]; unfold n; lia |].
  assert (HuT : B <= EPSILON * T).
  { unfold EPSILON. apply Rmult_le_reg_l with 4503599627370496; [lra |].
    replace (4503599627370496 * (/ 4503599627370496 * T)) with T by (field; lra).
    nra. }
  apply Rabs_le. destruct HV as [-> | ->]; split; lra.
Qed.

(** [digits2_pos] from bounds that need not be tight. *)
Lemma digits2_pos_range (m : positive) (lo hi : Z) :
  (0 <= lo)%Z -> (2 ^ lo <= Z.pos m < 2 ^ hi)%Z ->
  (lo < Z.pos (digits2_pos m) <= hi)%Z.
Proof.
  intros Hlo [H1 H2]. pose proof (digits2_pos_bounds m) as [B1 B2].
  set (d := Z.pos (digits2_pos m)) in *.
  split.
  - destruct (Z_lt_le_dec lo d) as [L|L]; [exact L |].
    assert (2 ^ d <= 2 ^ lo)%Z by (apply Z.pow_le_mono_r; lia). lia.
  - destruct (Z_lt_le_dec hi d) as [L|L]; [| exact L].
    assert (0 <= hi)%Z.
    { destruct (Z_lt_le_dec hi 0) as [N|N]; [| exact N].
      rewrite (Z.pow_neg_r 2 hi N) in H2. lia. }
    assert (2 ^ hi <= 2 ^ (d - 1))%Z by (apply Z.pow_le_mono_r; lia). lia.
Qed.

Lemma normal_bounds (m : positive) :
  Z.pos (digits2_pos m) = prec ->
  (2 ^ 52 <= Z.pos m < 2 ^ 53)%Z.
Proof.
  intros H. pose proof (digits2_pos_bounds m) as B. rewrite H in B. exact B.
Qed.

Lemma iter_xO (m : positive) (k : positive) :
  Z.pos (Pos.iter xO m k) = (Z.pos m * 2 ^ Z.pos k)%Z.
Proof.
  induction k as [|k IH] using Pos.peano_ind.
  - simpl. lia.
  - rewrite Pos.iter_succ, Pos2Z.inj_xO, IH, Pos2Z.inj_succ, Z.pow_succ_r by lia. lia.
Qed.

(** *** Multiplication *)

(** The product of two normal numbers, when it is a normal number: the
    result has the sign of the product and is within [EPSILON], relative,
    of the real product. *)
Lemma mul_spec (sx sy : bool) (mx my : positive) (ex ey : Z) :
  Z.pos (digits2_pos mx) = prec -> Z.pos (digits2_pos my) = prec ->
  (-1126 <= ex + ey <= 917)%Z ->
  exists (m : positive) (e : Z),
    mul (S754_finite sx mx ex) (S754_finite sy my ey)
    = S754_finite (xorb sx sy) m e
    /\ Z.pos (digits2_pos m) = prec
    /\ (ex + ey + 52 <= e <= ex + ey + 54)%Z
    /\ Rabs (IZR (Z.pos m) * bpow e
             - (IZR (Z.pos mx) * bpow ex) * (IZR (Z.pos my) * bpow ey))
       <= EPSILON * ((IZR (Z.pos mx) * bpow ex) * (IZR (Z.pos my) * bpow ey)).
Proof.
  intros Hx Hy He.
  pose proof (normal_bounds mx Hx) as Bx. pose proof (normal_bounds my Hy) as By.
  assert (HP : (2 ^ 104 <= Z.pos (mx * my) < 2 ^ 106)%Z).
  { rewrite Pos2Z.inj_mul.
    change (2 ^ 104)%Z with (2 ^ 52 * 2 ^ 52)%Z.
    change (2 ^ 106)%Z with (2 ^ 53 * 2 ^ 53)%Z. nia. }
  pose proof (digits2_pos_range (mx * my) 104 106 ltac:(lia) HP) as Hd.
  unfold mul, SFmul.
  set (T := (IZR (Z.pos mx) * bpow ex) * (IZR (Z.pos my) * bpow ey)).
  assert (ET : T = IZR (Z.pos (mx * my)) * bpow (ex + ey)).
  { unfold T. rewrite Pos2Z.inj_mul, mult_IZR, bpow_add. ring. }
  destruct (round_real (xorb sx sy) (mx * my) (ex + ey) loc_Exact T)
    as (m & e & Hr & Hdig & Hexp & Herr).
  - unfold prec. lia.
  - rewrite femin_eq. unfold prec. lia.
  - unfold emax. lia.
  - rewrite ET. pose proof (bpow_pos (ex + ey)). split; nra.
  - exists m, e. split; [exact Hr |]. split; [exact Hdig |].
    split; [unfold prec in Hexp; lia | exact Herr].
Qed.

(** *** Addition of two numbers whose sign bit is clear *)

(** Aligning a mantissa on a lower exponent multiplies it by a power of 2. *)
Lemma shl_align_fst (m : positive) (e e' : Z) :
  (e' <= e)%Z -> Z.pos (fst (shl_align m e e')) = (Z.pos m * 2 ^ (e - e'))%Z.
Proof.
  intros H. unfold shl_align. destruct (e' - e)%Z as [|p|p] eqn:E.
  - replace (e - e')%Z with 0%Z by lia. simpl. lia.
  - lia.
  - simpl fst. rewrite iter_xO. replace (e - e')%Z with (Z.pos p) by lia. reflexivity.
Qed.

Lemma shl_align_id (m : positive) (e e' : Z) :
  (e <= e')%Z -> shl_align m e e' = (m, e).
Proof.
  intros H. unfold shl_align. destruct (e' - e)%Z as [|p|p] eqn:E; try reflexivity. lia.
Qed.

Lemma pow2_ge_1 (k : Z) : (0 <= k)%Z -> (1 <= 2 ^ k)%Z.
Proof. intros H. change 1%Z with (2 ^ 0)%Z. apply Z.pow_le_mono_r; lia. Qed.

(** The sum of two aligned 53-bit mantissas. *)
Lemma aligned_sum_bounds (mx my : positive) (a b : Z) :
  Z.pos (digits2_pos mx) = prec -> Z.pos (digits2_pos my) = prec ->
  (0 <= a)%Z -> (0 <= b)%Z -> (a = 0 \/ b = 0)%Z ->
  (2 ^ (52 + Z.max a b) <= Z.pos mx * 2 ^ a + Z.pos my * 2 ^ b < 2 ^ (54 + Z.max a b))%Z.
Proof.
  intros Hx Hy Ha Hb Hab.
  pose proof (normal_bounds mx Hx) as Bx. pose proof (normal_bounds my Hy) as By.
  rewrite !Z.pow_add_r by lia.
  change (2 ^ 52)%Z with 4503599627370496%Z in *.
  change (2 ^ 53)%Z with 9007199254740992%Z in *.
  change (2 ^ 54)%Z with 18014398509481984%Z.
  destruct Hab as [-> | ->]; change (2 ^ 0)%Z with 1%Z.
  - rewrite Z.max_r by lia. pose proof (pow2_ge_1 b Hb). nia.
  - rewrite Z.max_l by lia. pose proof (pow2_ge_1 a Ha). nia.
Qed.

Lemma bpow_shift (m : positive) (e e' : Z) :
  (e' <= e)%Z -> IZR (Z.pos m * 2 ^ (e - e')) * bpow e' = IZR (Z.pos m) * bpow e.
Proof.
  intros H. rewrite mult_IZR, <- bpow_IZR by lia.
  replace e with ((e - e') + e')%Z at 2 by lia. rewrite bpow_add. ring.
Qed.

(** The sum of two normal numbers whose sign bit is clear, below the
    overflow threshold. *)
Lemma add_spec (mx my : positive) (ex ey : Z) :
  Z.pos (digits2_pos mx) = prec -> Z.pos (digits2_pos my) = prec ->
  (-1074 <= ex <= 968)%Z -> (-1074 <= ey <= 968)%Z ->
  exists (m : positive) (e : Z),
    add (S754_finite false mx ex) (S754_finite false my ey) = S754_finite false m e
    /\ Z.pos (digits2_pos m) = prec
    /\ (Z.max ex ey <= e <= Z.max ex ey + 2)%Z
    /\ Rabs (IZR (Z.pos m) * bpow e
             - (IZR (Z.pos mx) * bpow ex + IZR (Z.pos my) * bpow ey))
       <= EPSILON * (IZR (Z.pos mx) * bpow ex + IZR (Z.pos my) * bpow ey).
Proof.
  intros Hx Hy Hex Hey.
  unfold add, SFadd. set (ez := Z.min ex ey).
  assert (Hzx : (ez <= ex)%Z) by (unfold ez; lia).
  assert (Hzy : (ez <= ey)%Z) by (unfold ez; lia).
  pose proof (shl_align_fst mx ex ez Hzx) as Ex.
  pose proof (shl_align_fst my ey ez Hzy) as Ey.
  set (px := fst (shl_align mx ex ez)) in *.
  set (py := fst (shl_align my ey ez)) in *.
  change (cond_Zopp false (Z.pos px) + cond_Zopp false (Z.pos py))%Z
    with (Z.pos (px + py)).
  cbn [binary_normalize]. unfold binary_round.
  assert (HS : Z.pos (px + py)
               = (Z.pos mx * 2 ^ (ex - ez) + Z.pos my * 2 ^ (ey - ez))%Z)
    by (rewrite Pos2Z.inj_add; lia).
  pose proof (aligned_sum_bounds mx my (ex - ez) (ey - ez) Hx Hy
                ltac:(lia) ltac:(lia) ltac:(unfold ez; lia)) as HB.
  rewrite <- HS in HB.
  assert (Hk : Z.max (ex - ez) (ey - ez) = (Z.max ex ey - ez)%Z) by lia.
  rewrite Hk in HB.
  pose proof (digits2_pos_range (px + py) (52 + (Z.max ex ey - ez)) _
                ltac:(unfold ez; lia) HB) as Hd.
  set (dS := Z.pos (digits2_pos (px + py))) in *.
  rewrite shl_align_id
    by (unfold fexp, SpecFloat.emin, emax, prec in *; lia).
  set (T := IZR (Z.pos mx) * bpow ex + IZR (Z.pos my) * bpow ey).
  assert (ET : T = IZR (Z.pos (px + py)) * bpow ez).
  { unfold T. rewrite HS, plus_IZR, Rmult_plus_distr_r, !bpow_shift by lia.
    reflexivity. }
  destruct (round_real false (px + py) ez loc_Exact T)
    as (m & e & Hr & Hdig & Hexp & Herr).
  - fold dS. unfold prec. lia.
  - fold dS. rewrite femin_eq. unfold prec. lia.
  - fold dS. unfold emax. lia.
  - rewrite ET. pose proof (bpow_pos ez). split; nra.
  - exists m, e. split; [exact Hr |]. split; [exact Hdig |].
    split; [fold dS in Hexp; unfold prec in Hexp; lia | exact Herr].
Qed.

(** *** Square root *)

(** The integer square root taken by [Math.sqrt]: the mantissa is shifted
    by 52 or 53 bits, so that the root has 53 bits. *)
Lemma sqrt_core_spec (m : positive) (e : Z) :
  Z.pos (digits2_pos m) = prec -> (-2000 <= e <= 1900)%Z ->
  exists (q : positive) (l : location),
    SFsqrt_core_binary prec emax (Z.pos m) e = (Z.pos q, (e / 2 - 26)%Z, l)
    /\ (Z.pos q * Z.pos q <= Z.pos m * 2 ^ (e - 2 * (e / 2 - 26))
        < (Z.pos q + 1) * (Z.pos q + 1))%Z
    /\ (2 ^ 52 <= Z.pos q < 2 ^ 53)%Z.
Proof.
  intros Hd He.
  pose proof (normal_bounds m Hd) as Bm.
  unfold SFsqrt_core_binary.
  change (Zdigits2 (Z.pos m)) with (Z.pos (digits2_pos m)). rewrite Hd.
  rewrite !Z.div2_div.
  assert (E0 : ((prec + e + 1) / 2 = e / 2 + 27)%Z).
  { unfold prec. replace (53 + e + 1)%Z with (e + 27 * 2)%Z by lia.
    apply Z.div_add. lia. }
  assert (E1 : Z.min (fexp prec emax ((prec + e + 1) / 2)) (e / 2) = (e / 2 - 26)%Z).
  { rewrite E0. unfold fexp, SpecFloat.emin, emax, prec.
    assert (-1000 <= e / 2 <= 950)%Z.
    { split; [apply Z.div_le_lower_bound | apply Z.div_le_upper_bound]; lia. }
    lia. }
  rewrite E1.
  pose proof (Z.div_mod e 2 ltac:(lia)) as Hdm.
  pose proof (Z.mod_pos_bound e 2 ltac:(lia)) as Hmod.
  set (s := (e - 2 * (e / 2 - 26))%Z).
  assert (Hs : (s = 52 \/ s = 53)%Z) by (unfold s; lia).
  assert (Hm' : (2 ^ 104 <= Z.pos m * 2 ^ s < 2 ^ 106)%Z).
  { change (2 ^ 52)%Z with 4503599627370496%Z in Bm.
    change (2 ^ 53)%Z with 9007199254740992%Z in Bm.
    destruct Hs as [-> | ->];
      [change (2 ^ 52)%Z with 4503599627370496%Z
      |change (2 ^ 53)%Z with 9007199254740992%Z];
      change (2 ^ 104)%Z with (4503599627370496 * 4503599627370496)%Z;
      change (2 ^ 106)%Z with (9007199254740992 * 9007199254740992)%Z; nia. }
  assert (Em : match s with
               | 0%Z => Z.pos m
               | Z.pos _ => Z.shiftl (Z.pos m) s
               | Z.neg _ => 0%Z
               end = (Z.pos m * 2 ^ s)%Z).
  { destruct s as [|p|p] eqn:Es; try lia. apply Z.shiftl_mul_pow2. lia. }
  rewrite Em.
  pose proof (Z.sqrtrem_spec (Z.pos m * 2 ^ s) ltac:(lia)) as Hsq.
  destruct (Z.sqrtrem (Z.pos m * 2 ^ s)) as [q r].
  destruct Hsq as [Hq Hr].
  change (2 ^ 104)%Z with (4503599627370496 * 4503599627370496)%Z in Hm'.
  change (2 ^ 106)%Z with (9007199254740992 * 9007199254740992)%Z in Hm'.
  destruct q as [|q|q]; try lia.
  exists q. eexists. split; [reflexivity |].
  split; [lia |].
  change (2 ^ 52)%Z with 4503599627370496%Z.
  change (2 ^ 53)%Z with 9007199254740992%Z.
  nia.
Qed.

Lemma sqrt_between (q m' : Z) :
  (0 <= q)%Z -> (q * q <= m' < (q + 1) * (q + 1))%Z ->
  IZR q <= sqrt (IZR m') <= IZR q + 1.
Proof.
  intros Hq [H1 H2].
  assert (Q0 : 0 <= IZR q) by (apply IZR_le; exact Hq).
  split.
  - rewrite <- (sqrt_square (IZR q)) at 1 by exact Q0.
    apply sqrt_le_1_alt. rewrite <- mult_IZR. apply IZR_le. exact H1.
  - rewrite <- (sqrt_square (IZR q + 1)) by lra.
    apply sqrt_le_1_alt. rewrite <- plus_IZR, <- mult_IZR. apply IZR_le. lia.
Qed.

(** The square root of a normal number. *)
Lemma sqrt_spec (m : positive) (e : Z) :
  Z.pos (digits2_pos m) = prec -> (-2000 <= e <= 1900)%Z ->
  exists (m' : positive) (e' : Z),
    Math_sqrt (S754_finite false m e) = S754_finite false m' e'
    /\ Z.pos (digits2_pos m') = prec
    /\ (e / 2 - 26 <= e' <= e / 2 - 25)%Z
    /\ Rabs (IZR (Z.pos m') * bpow e' - sqrt (IZR (Z.pos m) * bpow e))
       <= EPSILON * sqrt (IZR (Z.pos m) * bpow e).
Proof.
  intros Hd He.
  destruct (sqrt_core_spec m e Hd He) as (q & l & Hc & Hq & Bq).
  unfold Math_sqrt, SFsqrt. rewrite Hc.
  set (e1 := (e / 2 - 26)%Z) in *.
  assert (He1 : (-1026 <= e1 <= 924)%Z).
  { unfold e1.
    assert (-1000 <= e / 2 <= 950)%Z.
    { split; [apply Z.div_le_lower_bound | apply Z.div_le_upper_bound]; lia. }
    lia. }
  pose proof (Z.div_mod e 2 ltac:(lia)) as Hdm.
  pose proof (Z.mod_pos_bound e 2 ltac:(lia)) as Hmod.
  assert (Hs : (0 <= e - 2 * e1)%Z) by (unfold e1; lia).
  assert (Hdq : Z.pos (digits2_pos q) = prec).
  { pose proof (digits2_pos_range q 52 53 ltac:(lia) Bq). unfold prec. lia. }
  set (T := sqrt (IZR (Z.pos m) * bpow e)).
  assert (ET : T = sqrt (IZR (Z.pos m * 2 ^ (e - 2 * e1))) * bpow e1).
  { unfold T. pose proof (bpow_pos e1) as Hb.
    rewrite <- (sqrt_square (bpow e1)) at 1 by lra.
    rewrite <- sqrt_mult_alt by (apply IZR_le; lia).
    f_equal. rewrite <- bpow_add.
    replace (e1 + e1)%Z with (2 * e1)%Z by lia.
    rewrite bpow_shift by lia. reflexivity. }
  pose proof (sqrt_between (Z.pos q) _ ltac:(lia) Hq) as Hsb.
  destruct (round_real false q e1 l T) as (m' & e' & Hr & Hdig & Hexp & Herr).
  - rewrite Hdq. lia.
  - rewrite Hdq, femin_eq. lia.
  - rewrite Hdq. unfold prec, emax. lia.
  - rewrite ET. pose proof (bpow_pos e1). split; nra.
  - exists m', e'. split; [exact Hr |]. split; [exact Hdig |].
    split; [rewrite Hdq in Hexp; lia | exact Herr].
Qed.

(** *** Division *)

(** The integer quotient taken by the division: the dividend is shifted
    by 53 bits, so that the quotient has 53 or 54 bits. *)
Lemma div_core_spec (mx my : positive) (ex ey : Z) :
  Z.pos (digits2_pos mx) = prec -> Z.pos (digits2_pos my) = prec ->
  (-1021 <= ex - ey)%Z ->
  exists (q : positive) (r : Z) (l : location),
    SFdiv_core_binary prec emax (Z.pos mx) ex (Z.pos my) ey
    = (Z.pos q, (ex - ey - 53)%Z, l)
    /\ (Z.pos mx * 2 ^ 53 = Z.pos my * Z.pos q + r)%Z
    /\ (0 <= r < Z.pos my)%Z
    /\ (2 ^ 52 <= Z.pos q < 2 ^ 54)%Z.
Proof.
  intros Hx Hy He.
  pose proof (normal_bounds mx Hx) as Bx. pose proof (normal_bounds my Hy) as By.
  unfold SFdiv_core_binary.
  change (Zdigits2 (Z.pos mx)) with (Z.pos (digits2_pos mx)).
  change (Zdigits2 (Z.pos my)) with (Z.pos (digits2_pos my)).
  rewrite Hx, Hy.
  assert (E1 : Z.min (fexp prec emax (prec + ex - (prec + ey))) (ex - ey)
               = (ex - ey - 53)%Z).
  { unfold fexp, SpecFloat.emin, emax, prec. lia. }
  rewrite E1.
  replace (ex - ey - (ex - ey - 53))%Z with 53%Z by lia.
  rewrite Z.shiftl_mul_pow2 by lia.
  pose proof (Z_div_mod (Z.pos mx * 2 ^ 53) (Z.pos my) ltac:(lia)) as Hdiv.
  destruct (Z.div_eucl (Z.pos mx * 2 ^ 53) (Z.pos my)) as [q r].
  destruct Hdiv as [Hq Hr].
  change (2 ^ 52)%Z with 4503599627370496%Z in *.
  change (2 ^ 53)%Z with 9007199254740992%Z in *.
  change (2 ^ 54)%Z with 18014398509481984%Z.
  assert (Hq1 : (4503599627370496 <= q)%Z) by nia.
  assert (Hq2 : (q < 18014398509481984)%Z) by nia.
  destruct q as [|q|q]; try lia.
  exists q, r. eexists. split; [reflexivity |].
  split; [exact Hq |]. split; [exact Hr | lia].
Qed.

(** The quotient of two normal numbers, when it is a normal number. *)
Lemma div_spec (sx sy : bool) (mx my : positive) (ex ey : Z) :
  Z.pos (digits2_pos mx) = prec -> Z.pos (digits2_pos my) = prec ->
  (-1021 <= ex - ey <= 1020)%Z ->
  exists (m : positive) (e : Z),
    div (S754_finite sx mx ex) (S754_finite sy my ey)
    = S754_finite (xorb sx sy) m e
    /\ Z.pos (digits2_pos m) = prec
    /\ (ex - ey - 53 <= e <= ex - ey - 51)%Z
    /\ Rabs (IZR (Z.pos m) * bpow e
             - (IZR (Z.pos mx) * bpow ex) / (IZR (Z.pos my) * bpow ey))
       <= EPSILON * ((IZR (Z.pos mx) * bpow ex) / (IZR (Z.pos my) * bpow ey)).
Proof.
  intros Hx Hy He.
  destruct (div_core_spec mx my ex ey Hx Hy ltac:(lia))
    as (q & r & l & Hc & Hq & Hr & Bq).
  unfold div, SFdiv. rewrite Hc.
  set (e1 := (ex - ey - 53)%Z) in *.
  pose proof (digits2_pos_range q 52 54 ltac:(lia) Bq) as Hdq.
  set (T := (IZR (Z.pos mx) * bpow ex) / (IZR (Z.pos my) * bpow ey)).
  assert (Py : 0 < IZR (Z.pos my)) by (apply IZR_lt; lia).
  pose proof (bpow_pos ey) as Pey. pose proof (bpow_pos e1) as Pe1.
  assert (ET : T = (IZR (Z.pos mx * 2 ^ 53) / IZR (Z.pos my)) * bpow e1).
  { unfold T. replace ex with (53 + e1 + ey)%Z at 1 by (unfold e1; lia).
    rewrite !bpow_add, mult_IZR, <- (bpow_IZR 53) by lia.
    field. split; lra. }
  assert (Hrho : IZR (Z.pos q) <= IZR (Z.pos mx * 2 ^ 53) / IZR (Z.pos my)
                 <= IZR (Z.pos q) + 1).
  { rewrite Hq, plus_IZR, mult_IZR.
    assert (R0 : 0 <= IZR r) by (apply IZR_le; lia).
    assert (R1 : IZR r <= IZR (Z.pos my)) by (apply IZR_le; lia).
    assert (Hi : 0 < / IZR (Z.pos my)) by (apply Rinv_0_lt_compat; exact Py).
    replace ((IZR (Z.pos my) * IZR (Z.pos q) + IZR r) / IZR (Z.pos my))
      with (IZR (Z.pos q) + IZR r * / IZR (Z.pos my)) by (field; lra).
    assert (IZR (Z.pos my) * / IZR (Z.pos my) = 1) by (field; lra).
    split; nra. }
  destruct (round_real (xorb sx sy) q e1 l T) as (m & e & Hres & Hdig & Hexp & Herr).
  - unfold prec. lia.
  - rewrite femin_eq. unfold e1, prec. lia.
  - unfold e1, emax. lia.
  - rewrite ET. split; nra.
  - exists m, e. split; [exact Hres |]. split; [exact Hdig |].
    split; [unfold prec in Hexp; lia | exact Herr].
Qed.

(** [EPSILON] is positive and small. *)
Lemma EPSILON_pos : 0 < EPSILON.
Proof. unfold EPSILON. lra. Qed.

Lemma EPSILON_small : EPSILON <= / 1000000.
Proof. unfold EPSILON. lra. Qed.

Lemma finite_pos (m : positive) (e : Z) : 0 < IZR (Z.pos m) * bpow e.
Proof.
  apply Rmult_lt_0_compat; [apply IZR_lt; lia | apply bpow_pos].
Qed.

(** A relative error as an interval. *)
Lemma Rabs_rel (v T p : R) :
  Rabs (v - T) <= p * T <-> T * (1 - p) <= v <= T * (1 + p).
Proof.
  split.
  - intros H. unfold Rabs in H. destruct (Rcase_abs (v - T)); lra.
  - intros H. apply Rabs_le. lra.
Qed.

(** *** How the relative errors add up *)

(** Each lemma takes operands known with relative errors [p] and [q], a
    result rounded with relative error [EPSILON], and gives the relative
    error [r] of the result. *)
Lemma err_mul (a b v A B p q r : R) :
  0 < A -> 0 < B -> 0 <= p <= 1 -> 0 <= q <= 1 ->
  Rabs (a - A) <= p * A -> Rabs (b - B) <= q * B ->
  Rabs (v - a * b) <= EPSILON * (a * b) ->
  (1 + p) * (1 + q) * (1 + EPSILON) <= 1 + r ->
  Rabs (v - A * B) <= r * (A * B).
Proof.
  intros HA HB Hp Hq Ha Hb Hv Hr.
  pose proof EPSILON_pos as U0. pose proof EPSILON_small as U1.
  apply Rabs_rel in Ha, Hb, Hv. apply Rabs_rel.
  assert (a0 : 0 <= a) by nra. assert (b0 : 0 <= b) by nra.
  assert (Up : a * b <= (A * (1 + p)) * (B * (1 + q))).
  { apply Rmult_le_compat; lra. }
  assert (Lo : (A * (1 - p)) * (B * (1 - q)) <= a * b).
  { apply Rmult_le_compat; nra. }
  assert (AB : 0 < A * B) by nra.
  assert (C1 : 1 - r <= (1 - p) * (1 - q) * (1 - EPSILON)) by nra.
  assert (ab0 : 0 <= a * b) by nra.
  split.
  - apply Rle_trans with ((A * B) * ((1 - p) * (1 - q) * (1 - EPSILON))).
    + apply Rmult_le_compat_l; lra.
    + apply Rle_trans with ((a * b) * (1 - EPSILON)); [| lra].
      replace (A * B * ((1 - p) * (1 - q) * (1 - EPSILON)))
        with ((A * (1 - p)) * (B * (1 - q)) * (1 - EPSILON)) by ring.
      apply Rmult_le_compat_r; lra.
  - apply Rle_trans with ((A * B) * ((1 + p) * (1 + q) * (1 + EPSILON))).
    + apply Rle_trans with ((a * b) * (1 + EPSILON)); [lra |].
      replace (A * B * ((1 + p) * (1 + q) * (1 + EPSILON)))
        with ((A * (1 + p)) * (B * (1 + q)) * (1 + EPSILON)) by ring.
      apply Rmult_le_compat_r; lra.
    + apply Rmult_le_compat_l; lra.
Qed.

Lemma err_add (a b v A B p r : R) :
  0 <= A -> 0 <= B -> 0 <= p <= 1 ->
  Rabs (a - A) <= p * A -> Rabs (b - B) <= p * B ->
  Rabs (v - (a + b)) <= EPSILON * (a + b) ->
  (1 + p) * (1 + EPSILON) <= 1 + r ->
  Rabs (v - (A + B)) <= r * (A + B).
Proof.
  intros HA HB Hp Ha Hb Hv Hr.
  pose proof EPSILON_pos as U0. pose proof EPSILON_small as U1.
  apply Rabs_rel in Ha, Hb, Hv. apply Rabs_rel.
  assert (S0 : 0 <= A + B) by lra.
  assert (Up : a + b <= (A + B) * (1 + p)) by lra.
  assert (Lo : (A + B) * (1 - p) <= a + b) by lra.
  assert (C1 : 1 - r <= (1 - p) * (1 - EPSILON)) by nra.
  split.
  - apply Rle_trans with ((A + B) * ((1 - p) * (1 - EPSILON))).
    + apply Rmult_le_compat_l; lra.
    + apply Rle_trans with ((a + b) * (1 - EPSILON)); [| lra].
      rewrite <- Rmult_assoc. apply Rmult_le_compat_r; lra.
  - apply Rle_trans with ((A + B) * ((1 + p) * (1 + EPSILON))).
    + apply Rle_trans with ((a + b) * (1 + EPSILON)); [lra |].
      rewrite <- Rmult_assoc. apply Rmult_le_compat_r; lra.
    + apply Rmult_le_compat_l; lra.
Qed.

Lemma err_sqrt (a v A p h r : R) :
  0 < A -> 0 <= p <= 1 -> 0 <= h <= 1 ->
  Rabs (a - A) <= p * A ->
  Rabs (v - sqrt a) <= EPSILON * sqrt a ->
  1 + p <= (1 + h) * (1 + h) -> (1 - h) * (1 - h) <= 1 - p ->
  (1 + h) * (1 + EPSILON) <= 1 + r ->
  Rabs (v - sqrt A) <= r * sqrt A.
Proof.
  intros HA Hp Hh Ha Hv H1 H2 Hr.
  pose proof EPSILON_pos as U0. pose proof EPSILON_small as U1.
  apply Rabs_rel in Ha, Hv. apply Rabs_rel.
  assert (SA : 0 < sqrt A) by (apply sqrt_lt_R0; exact HA).
  assert (Up : sqrt a <= sqrt A * (1 + h)).
  { rewrite <- (sqrt_square (1 + h)) by lra.
    rewrite <- sqrt_mult_alt by lra.
    apply sqrt_le_1_alt. nra. }
  assert (Lo : sqrt A * (1 - h) <= sqrt a).
  { rewrite <- (sqrt_square (1 - h)) by lra.
    rewrite <- sqrt_mult_alt by lra.
    apply sqrt_le_1_alt. nra. }
  assert (Sa : 0 <= sqrt a) by apply sqrt_pos.
  assert (C1 : 1 - r <= (1 - h) * (1 - EPSILON)) by nra.
  split.
  - apply Rle_trans with (sqrt A * ((1 - h) * (1 - EPSILON))).
    + apply Rmult_le_compat_l; lra.
    + apply Rle_trans with (sqrt a * (1 - EPSILON)); [| lra].
      rewrite <- Rmult_assoc. apply Rmult_le_compat_r; lra.
  - apply Rle_trans with (sqrt A * ((1 + h) * (1 + EPSILON))).
    + apply Rle_trans with (sqrt a * (1 + EPSILON)); [lra |].
      rewrite <- Rmult_assoc. apply Rmult_le_compat_r; lra.
    + apply Rmult_le_compat_l; lra.
Qed.

Lemma err_div (a b v A B p q r : R) :
  0 < A -> 0 < B -> 0 <= p <= 1 -> 0 <= q <= / 2 ->
  Rabs (a - A) <= p * A -> Rabs (b - B) <= q * B ->
  Rabs (v - a / b) <= EPSILON * (a / b) ->
  (1 + p) * (1 + EPSILON) <= (1 + r) * (1 - q) ->
  Rabs (v - A / B) <= r * (A / B).
Proof.
  intros HA HB Hp Hq Ha Hb Hv Hr.
  pose proof EPSILON_pos as U0. pose proof EPSILON_small as U1.
  apply Rabs_rel in Ha, Hb, Hv. apply Rabs_rel.
  assert (b0 : 0 < b) by nra.
  assert (a0 : 0 <= a) by nra.
  assert (Q : 0 < A / B) by (apply Rdiv_lt_0_compat; lra).
  assert (qa : 0 <= a / b) by (apply Rmult_le_pos; [lra | left; apply Rinv_0_lt_compat; lra]).
  (* a / b <= (A / B) * ((1 + p) / (1 - q)) *)
  assert (Up : a / b * (1 - q) <= A / B * (1 + p)).
  { apply Rmult_le_reg_r with (B * b); [nra |].
    replace (a / b * (1 - q) * (B * b)) with (a * (B * (1 - q))) by (field; lra).
    replace (A / B * (1 + p) * (B * b)) with ((A * (1 + p)) * b) by (field; lra).
    apply Rmult_le_compat; nra. }
  assert (Lo : A / B * (1 - p) <= a / b * (1 + q)).
  { apply Rmult_le_reg_r with (B * b); [nra |].
    replace (A / B * (1 - p) * (B * b)) with ((A * (1 - p)) * b) by (field; lra).
    replace (a / b * (1 + q) * (B * b)) with (a * (B * (1 + q))) by (field; lra).
    apply Rmult_le_compat; nra. }
  assert (C1 : (1 - r) * (1 + q) <= (1 - p) * (1 - EPSILON)) by nra.
  split.
  - apply Rmult_le_reg_r with (1 + q); [lra |].
    apply Rle_trans with (A / B * ((1 - p) * (1 - EPSILON))).
    + rewrite Rmult_assoc. apply Rmult_le_compat_l; lra.
    + apply Rle_trans with (a / b * (1 + q) * (1 - EPSILON)).
      * rewrite <- Rmult_assoc. apply Rmult_le_compat_r; lra.
      * replace (a / b * (1 + q) * (1 - EPSILON)) with (a / b * (1 - EPSILON) * (1 + q)) by ring.
        apply Rmult_le_compat_r; lra.
  - apply Rmult_le_reg_r with (1 - q); [lra |].
    apply Rle_trans with (A / B * ((1 + p) * (1 + EPSILON))).
    + apply Rle_trans with (a / b * (1 - q) * (1 + EPSILON)).
      * replace (a / b * (1 - q) * (1 + EPSILON)) with (a / b * (1 + EPSILON) * (1 - q)) by ring.
        apply Rmult_le_compat_r; lra.
      * rewrite <- Rmult_assoc. apply Rmult_le_compat_r; lra.
    + rewrite Rmult_assoc. apply Rmult_le_compat_l; lra.
Qed.

(** Products of errors that are at most [100 * EPSILON] are negligible. *)
Lemma small_product (p q : R) :
  0 <= p <= 100 * EPSILON -> 0 <= q <= 100 * EPSILON -> 0 <= p * q <= EPSILON / 50.
Proof.
  intros Hp Hq. pose proof EPSILON_pos as U0. pose proof EPSILON_small as U1.
  assert (p * q <= (100 * EPSILON) * (100 * EPSILON)) by (apply Rmult_le_compat; lra).
  split; nra.
Qed.

Lemma EPSILON_le_100 : 0 <= EPSILON <= 100 * EPSILON.
Proof. pose proof EPSILON_pos. lra. Qed.

(** *** Operations on numbers that are [near] a real

    [near] is monotone in the error and in the exponent range. *)
Lemma near_weaken (s : bool) (p p' : R) (lo lo' hi hi' : Z) (a : number) (T : R) :
  near s p lo hi a T -> p <= p' -> (lo' <= lo)%Z -> (hi <= hi')%Z ->
  near s p' lo' hi' a T.
Proof.
  intros [H | (HT & m & e & -> & Hd & He & Hr)] Hp Hlo Hhi; [left; exact H |].
  right. split; [exact HT |]. exists m, e.
  split; [reflexivity |]. split; [exact Hd |]. split; [lia |].
  apply Rle_trans with (1 := Hr). apply Rmult_le_compat_r; lra.
Qed.

(** A [moderate] number is its own absolute value, without error. *)
Lemma near_moderate (a : number) :
  moderate a = true -> near (sign_set a) 0 (-153) 47 a (absR a).
Proof.
  destruct a as [s|s| |s m e]; try discriminate; intros H.
  - left. split; reflexivity.
  - right. cbn [moderate] in H.
    apply andb_prop in H as [H H3]. apply andb_prop in H as [H1 H2].
    split; [apply finite_pos |]. exists m, e.
    split; [reflexivity |]. split; [lia |]. split; [lia |].
    cbn [absR]. replace (IZR (Z.pos m) * bpow e - IZR (Z.pos m) * bpow e) with 0 by ring.
    rewrite Rabs_R0. lra.
Qed.

(** What [near] says of the number itself. *)
Lemma near_value (s : bool) (p : R) (lo hi : Z) (a : number) (T : R) :
  near s p lo hi a T ->
  is_finite a = true /\ Rabs (absR a - T) <= p * T.
Proof.
  intros [[-> Hz] | (HT & m & e & -> & Hd & He & Hr)].
  - destruct a; try discriminate. split; [reflexivity |].
    cbn [absR]. replace (0 - 0) with 0 by ring. rewrite Rabs_R0. lra.
  - split; [reflexivity | exact Hr].
Qed.

(** A number near a positive real is above 0. *)
Lemma near_gt (p : R) (lo hi : Z) (a : number) (T : R) :
  near false p lo hi a T -> 0 < T -> (a >? n0)%num = true.
Proof.
  intros [[-> _] | (_ & m & e & -> & _)] HT; [lra | reflexivity].
Qed.

(** The constructor keeps a number that is [near] a real, for a field whose
    initialiser is 0: a zero is stored as [+0]. *)
Lemma near_init (s : bool) (p : R) (lo hi : Z) (a : number) (T : R) :
  near s p lo hi a T -> near s p lo hi (init n0 (Some a)) T.
Proof.
  intros [[HT Hz] | (HT & m & e & -> & H)].
  - left. split; [exact HT |]. destruct a; try discriminate; reflexivity.
  - right. split; [exact HT |]. exists m, e. exact (conj eq_refl H).
Qed.

(** The four operations of [magnitude], [normalized] and [ClampMagnitude];
    each adds [2 * EPSILON] to the errors of its operands. *)
Lemma near_mul (sa sb : bool) (p q : R) (lo1 hi1 lo2 hi2 : Z)
    (a b : number) (A B : R) :
  near sa p lo1 hi1 a A -> near sb q lo2 hi2 b B ->
  0 <= p <= 100 * EPSILON -> 0 <= q <= 100 * EPSILON ->
  (-1126 <= lo1 + lo2)%Z -> (hi1 + hi2 <= 917)%Z ->
  near (xorb sa sb) (p + q + 2 * EPSILON) (lo1 + lo2 + 52) (hi1 + hi2 + 54)
    (a * b)%num (A * B).
Proof.
  intros [[-> Za] | (HA & ma & ea & -> & Da & Ea & Ra)]
         [[-> Zb] | (HB & mb & eb & -> & Db & Eb & Rb)] Hp Hq Hlo Hhi.
  - left. split; [ring |]. destruct a, b; try discriminate; reflexivity.
  - left. split; [ring |]. destruct a; try discriminate; reflexivity.
  - left. split; [ring |]. destruct b; try discriminate; reflexivity.
  - right. split; [nra |].
    destruct (mul_spec sa sb ma mb ea eb Da Db ltac:(lia))
      as (m & e & Hr & Hd & He & Herr).
    exists m, e. split; [exact Hr |]. split; [exact Hd |]. split; [lia |].
    pose proof EPSILON_pos as U0. pose proof EPSILON_small as U1.
    pose proof (small_product p q Hp Hq) as S1.
    pose proof (small_product p EPSILON Hp EPSILON_le_100) as S2.
    pose proof (small_product q EPSILON Hq EPSILON_le_100) as S3.
    pose proof (small_product (p * q) EPSILON ltac:(lra) EPSILON_le_100) as S4.
    apply (err_mul _ _ _ A B p q _ HA HB ltac:(lra) ltac:(lra) Ra Rb Herr).
    nra.
Qed.

Lemma near_add (p : R) (lo1 hi1 lo2 hi2 : Z) (a b : number) (A B : R) :
  near false p lo1 hi1 a A -> near false p lo2 hi2 b B ->
  0 <= p <= 100 * EPSILON ->
  (-1074 <= lo1)%Z -> (-1074 <= lo2)%Z -> (hi1 <= 968)%Z -> (hi2 <= 968)%Z ->
  near false (p + 2 * EPSILON) (Z.min lo1 lo2) (Z.max hi1 hi2 + 2) (a + b)%num (A + B).
Proof.
  intros [[-> Za] | (HA & ma & ea & -> & Da & Ea & Ra)]
         [[-> Zb] | (HB & mb & eb & -> & Db & Eb & Rb)] Hp L1 L2 H1 H2;
    pose proof EPSILON_pos as U0.
  - left. split; [ring |].
    destruct a as [[|]| | |], b as [[|]| | |]; try discriminate; reflexivity.
  - right. split; [lra |]. exists mb, eb.
    split; [destruct a; try discriminate; reflexivity |].
    split; [exact Db |]. split; [lia |].
    replace (0 + B) with B by ring.
    apply Rle_trans with (1 := Rb). apply Rmult_le_compat_r; lra.
  - right. split; [lra |]. exists ma, ea.
    split; [destruct b; try discriminate; reflexivity |].
    split; [exact Da |]. split; [lia |].
    replace (A + 0) with A by ring.
    apply Rle_trans with (1 := Ra). apply Rmult_le_compat_r; lra.
  - right. split; [lra |].
    destruct (add_spec ma mb ea eb Da Db ltac:(lia) ltac:(lia))
      as (m & e & Hr & Hd & He & Herr).
    exists m, e. split; [exact Hr |]. split; [exact Hd |]. split; [lia |].
    pose proof EPSILON_small as U1.
    pose proof (small_product p EPSILON Hp EPSILON_le_100) as S2.
    apply (err_add _ _ _ A B p _ ltac:(lra) ltac:(lra) ltac:(lra) Ra Rb Herr).
    nra.
Qed.

Lemma near_sqrt (p : R) (lo hi l h : Z) (a : number) (A : R) :
  near false p lo hi a A -> 0 <= p <= 100 * EPSILON ->
  (-1000 <= l)%Z -> (2 * l <= lo)%Z -> (hi <= 2 * h + 1)%Z -> (h <= 949)%Z ->
  near false (p / 2 + 2 * EPSILON) (l - 26) (h - 25) (Math_sqrt a) (sqrt A).
Proof.
  intros [[-> Za] | (HA & ma & ea & -> & Da & Ea & Ra)] Hp Hl Hlo Hhi Hh.
  - left. split; [apply sqrt_0 |]. destruct a; try discriminate; reflexivity.
  - right. split; [apply sqrt_lt_R0; exact HA |].
    destruct (sqrt_spec ma ea Da ltac:(lia)) as (m & e & Hr & Hd & He & Herr).
    exists m, e. split; [exact Hr |]. split; [exact Hd |].
    assert (l <= ea / 2)%Z by (apply Z.div_le_lower_bound; lia).
    assert (ea / 2 < h + 1)%Z by (apply Z.div_lt_upper_bound; lia).
    split; [lia |].
    pose proof EPSILON_pos as U0. pose proof EPSILON_small as U1.
    pose proof (small_product p p Hp Hp) as S1.
    pose proof (small_product p EPSILON Hp EPSILON_le_100) as S2.
    pose proof (small_product EPSILON EPSILON EPSILON_le_100 EPSILON_le_100) as S3.
    apply (err_sqrt _ _ A p (p / 2 + EPSILON / 4) _ HA ltac:(lra) ltac:(lra) Ra Herr);
      nra.
Qed.

Lemma near_div (sa : bool) (p q : R) (lo1 hi1 lo2 hi2 : Z)
    (a b : number) (A B : R) :
  near sa p lo1 hi1 a A -> near false q lo2 hi2 b B -> 0 < B ->
  0 <= p <= 100 * EPSILON -> 0 <= q <= 100 * EPSILON ->
  (-1021 <= lo1 - hi2)%Z -> (hi1 - lo2 <= 1020)%Z ->
  near sa (p + q + 2 * EPSILON) (lo1 - hi2 - 53) (hi1 - lo2 - 51) (a / b)%num (A / B).
Proof.
  intros [[-> Za] | (HA & ma & ea & -> & Da & Ea & Ra)]
         [[-> Zb] | (HB & mb & eb & -> & Db & Eb & Rb)] HB0 Hp Hq Hlo Hhi;
    try lra.
  - left. split; [unfold Rdiv; ring |]. destruct a; try discriminate; reflexivity.
  - right. split; [apply Rdiv_lt_0_compat; lra |].
    destruct (div_spec sa false ma mb ea eb Da Db ltac:(lia))
      as (m & e & Hr & Hd & He & Herr).
    rewrite xorb_false_r in Hr.
    exists m, e. split; [exact Hr |]. split; [exact Hd |]. split; [lia |].
    pose proof EPSILON_pos as U0. pose proof EPSILON_small as U1.
    pose proof (small_product p q Hp Hq) as S1.
    pose proof (small_product p EPSILON Hp EPSILON_le_100) as S2.
    pose proof (small_product q EPSILON Hq EPSILON_le_100) as S3.
    pose proof (small_product q q Hq Hq) as S4.
    apply (err_div _ _ _ A B p q _ HA HB ltac:(lra) ltac:(lra) Ra Rb Herr).
    nra.
Qed.

End RealRounding.

(** ** The length of a vector of moderate numbers *)

Section LengthFacts.

Local Open Scope R_scope.

(** [absR] is not negative, and positive on a [moderate] number that is
    not zero. *)
Lemma absR_nonneg (a : number) : 0 <= absR a.
Proof.
  destruct a as [s|s| |s m e]; cbn [absR]; try lra.
  left. apply finite_pos.
Qed.

Lemma absR_pos (a : number) :
  moderate a = true -> is_zero a = false -> 0 < absR a.
Proof.
  destruct a as [s|s| |s m e]; try discriminate. intros _ _. apply finite_pos.
Qed.

(** The square of a field. *)
Lemma near_sq (s : bool) (p : R) (lo hi : Z) (a : number) (A : R) :
  near s p lo hi a A -> 0 <= p <= 40 * EPSILON ->
  (-500 <= lo)%Z -> (hi <= 400)%Z ->
  near false (2 * p + 2 * EPSILON) (2 * lo + 52) (2 * hi + 54) (a * a)%num (A * A).
Proof.
  intros H Hp Hlo Hhi. pose proof EPSILON_pos as U0.
  pose proof (near_mul s s p p lo hi lo hi a a A A H H
                ltac:(lra) ltac:(lra) ltac:(lia) ltac:(lia)) as N.
  rewrite xorb_nilpotent in N.
  apply (near_weaken _ _ _ _ _ _ _ _ _ N); [lra | lia | lia].
Qed.

(** One more square added to a sum of squares. *)
Lemma near_add_sq (s : bool) (p q : R) (lo hi k : Z) (a b : number) (A B : R) :
  near false q (2 * lo + 52) (2 * hi + k) a A -> near s p lo hi b B ->
  0 <= p <= 40 * EPSILON -> 2 * p + 2 * EPSILON <= q <= 90 * EPSILON ->
  (-500 <= lo)%Z -> (hi <= 400)%Z -> (54 <= k <= 100)%Z ->
  near false (q + 2 * EPSILON) (2 * lo + 52) (2 * hi + (k + 2)) (a + b * b)%num (A + B * B).
Proof.
  intros Ha Hb Hp Hq Hlo Hhi Hk. pose proof EPSILON_pos as U0.
  pose proof (near_sq s p lo hi b B Hb Hp Hlo Hhi) as Sb.
  pose proof (near_weaken _ _ q _ (2 * lo + 52) _ (2 * hi + k) _ _ Sb
                ltac:(lra) ltac:(lia) ltac:(lia)) as Sb'.
  pose proof (near_add q _ _ _ _ _ _ _ _ Ha Sb'
                ltac:(lra) ltac:(lia) ltac:(lia) ltac:(lia) ltac:(lia)) as N.
  apply (near_weaken _ _ _ _ _ _ _ _ _ N); [lra | lia | lia].
Qed.

(** [magnitude] of fields known with relative error [p]: the square root
    of the sum of the squares, with relative error [p + 6 * EPSILON]. *)
Lemma Vector2_magnitude_near (v : Vector2.t) (sx sy : bool) (p : R) (lo hi : Z) (X Y : R) :
  near sx p lo hi (Vector2.x v) X -> near sy p lo hi (Vector2.y v) Y ->
  0 <= p <= 40 * EPSILON -> (-500 <= lo)%Z -> (hi <= 400)%Z ->
  near false (p + 6 * EPSILON) lo (hi + 5) (Vector2.magnitude v) (sqrt (X * X + Y * Y)).
Proof.
  intros Hx Hy Hp Hlo Hhi. pose proof EPSILON_pos as U0.
  pose proof (near_sq sx p lo hi _ X Hx Hp Hlo Hhi) as Sx.
  pose proof (near_add_sq sy p (2 * p + 2 * EPSILON) lo hi 54 _ _ _ _ Sx Hy Hp
                ltac:(lra) Hlo Hhi ltac:(lia)) as S1.
  unfold Vector2.magnitude.
  pose proof (near_sqrt _ _ _ (lo + 26) (hi + 28) _ _ S1
                ltac:(lra) ltac:(lia) ltac:(lia) ltac:(lia) ltac:(lia)) as N.
  apply (near_weaken _ _ _ _ _ _ _ _ _ N); [lra | lia | lia].
Qed.

Lemma Vector3_magnitude_near (v : Vector3.t) (sx sy sz : bool) (p : R) (lo hi : Z)
    (X Y Z : R) :
  near sx p lo hi (Vector3.x v) X -> near sy p lo hi (Vector3.y v) Y ->
  near sz p lo hi (Vector3.z v) Z ->
  0 <= p <= 40 * EPSILON -> (-500 <= lo)%Z -> (hi <= 400)%Z ->
  near false (p + 6 * EPSILON) lo (hi + 5) (Vector3.magnitude v)
    (sqrt (X * X + Y * Y + Z * Z)).
Proof.
  intros Hx Hy Hz Hp Hlo Hhi. pose proof EPSILON_pos as U0.
  pose proof (near_sq sx p lo hi _ X Hx Hp Hlo Hhi) as Sx.
  pose proof (near_add_sq sy p (2 * p + 2 * EPSILON) lo hi 54 _ _ _ _ Sx Hy Hp
                ltac:(lra) Hlo Hhi ltac:(lia)) as S1.
  pose proof (near_add_sq sz p _ lo hi _ _ _ _ _ S1 Hz Hp
                ltac:(lra) Hlo Hhi ltac:(lia)) as S2.
  unfold Vector3.magnitude.
  pose proof (near_sqrt _ _ _ (lo + 26) (hi + 29) _ _ S2
                ltac:(lra) ltac:(lia) ltac:(lia) ltac:(lia) ltac:(lia)) as N.
  apply (near_weaken _ _ _ _ _ _ _ _ _ N); [lra | lia | lia].
Qed.

Lemma Vector4_magnitude_near (v : Vector4.t) (sx sy sz sw : bool) (p : R) (lo hi : Z)
    (X Y Z W : R) :
  near sx p lo hi (Vector4.x v) X -> near sy p lo hi (Vector4.y v) Y ->
  near sz p lo hi (Vector4.z v) Z -> near sw p lo hi (Vector4.w v) W ->
  0 <= p <= 40 * EPSILON -> (-500 <= lo)%Z -> (hi <= 400)%Z ->
  near false (p + 6 * EPSILON) lo (hi + 5) (Vector4.magnitude v)
    (sqrt (X * X + Y * Y + Z * Z + W * W)).
Proof.
  intros Hx Hy Hz Hw Hp Hlo Hhi. pose proof EPSILON_pos as U0.
  pose proof (near_sq sx p lo hi _ X Hx Hp Hlo Hhi) as Sx.
  pose proof (near_add_sq sy p (2 * p + 2 * EPSILON) lo hi 54 _ _ _ _ Sx Hy Hp
                ltac:(lra) Hlo Hhi ltac:(lia)) as S1.
  pose proof (near_add_sq sz p _ lo hi _ _ _ _ _ S1 Hz Hp
                ltac:(lra) Hlo Hhi ltac:(lia)) as S2.
  pose proof (near_add_sq sw p _ lo hi _ _ _ _ _ S2 Hw Hp
                ltac:(lra) Hlo Hhi ltac:(lia)) as S3.
  unfold Vector4.magnitude.
  pose proof (near_sqrt _ _ _ (lo + 26) (hi + 30) _ _ S3
                ltac:(lra) ltac:(lia) ltac:(lia) ltac:(lia) ltac:(lia)) as N.
  apply (near_weaken _ _ _ _ _ _ _ _ _ N); [lra | lia | lia].
Qed.

(** Two identities on the real numbers: the quotients by the length have
    length 1, and scaling by [r] multiplies the length by [r]. *)
Lemma sqrt_sum_pos (S : R) : 0 < S -> 0 < sqrt S /\ sqrt S * sqrt S = S.
Proof.
  intros H. split; [apply sqrt_lt_R0; exact H | apply sqrt_sqrt; lra].
Qed.

Lemma unit_quotients (S M Q : R) :
  0 < M -> M * M = S -> Q * (M * M) = S -> sqrt Q = 1.
Proof.
  intros HM E HQ. replace Q with 1; [apply sqrt_1 |].
  apply Rmult_eq_reg_r with (M * M); [lra | nra].
Qed.

(** The quotient of a field by the magnitude, as the constructor stores it. *)
Lemma near_quotient (a mag : number) (M : R) :
  moderate a = true -> near false (6 * EPSILON) (-153) 52 mag M -> 0 < M ->
  near (sign_set a) (8 * EPSILON) (-258) 149 (init n0 (Some (a / mag)%num)) (absR a / M).
Proof.
  intros Ha Hm HM. pose proof EPSILON_pos as U0.
  apply near_init.
  pose proof (near_div _ 0 (6 * EPSILON) _ _ _ _ _ _ _ _ (near_moderate a Ha) Hm HM
                ltac:(lra) ltac:(lra) ltac:(lia) ltac:(lia)) as N.
  apply (near_weaken _ _ _ _ _ _ _ _ _ N); [lra | lia | lia].
Qed.

(** [normalized] of a vector of [moderate] fields has a magnitude within
    [16 * EPSILON] of 1. *)
Lemma Vector2_normalized_near (v : Vector2.t) :
  moderate (Vector2.x v) = true -> moderate (Vector2.y v) = true ->
  is_zero (Vector2.x v) && is_zero (Vector2.y v) = false ->
  (Vector2.magnitude v >? n0)%num = true
  /\ is_finite (Vector2.magnitude (Vector2.normalized v)) = true
  /\ Rabs (absR (Vector2.magnitude (Vector2.normalized v)) - 1) <= 16 * EPSILON.
Proof.
  intros Hx Hy Hnz. pose proof EPSILON_pos as U0.
  pose proof (absR_nonneg (Vector2.x v)) as X0.
  pose proof (absR_nonneg (Vector2.y v)) as Y0.
  assert (HS : 0 < absR (Vector2.x v) * absR (Vector2.x v)
                  + absR (Vector2.y v) * absR (Vector2.y v)).
  { apply andb_false_iff in Hnz as [H | H];
      [pose proof (absR_pos _ Hx H) | pose proof (absR_pos _ Hy H)]; nra. }
  set (X := absR (Vector2.x v)) in *. set (Y := absR (Vector2.y v)) in *.
  destruct (sqrt_sum_pos _ HS) as [HM EM].
  set (M := sqrt (X * X + Y * Y)) in *.
  pose proof (Vector2_magnitude_near v _ _ 0 (-153) 47 X Y
                (near_moderate _ Hx) (near_moderate _ Hy)
                ltac:(lra) ltac:(lia) ltac:(lia)) as Hm.
  fold M in Hm.
  apply (near_weaken _ _ (6 * EPSILON) _ (-153) _ 52) in Hm; [| lra | lia | lia].
  pose proof (near_gt _ _ _ _ _ Hm HM) as Hgt.
  split; [exact Hgt |].
  unfold Vector2.normalized. cbv zeta. rewrite Hgt.
  unfold Vector2.new, Vector2.constructor.
  pose proof (Vector2_magnitude_near
                {| Vector2.x := init n0 (Some (Vector2.x v / Vector2.magnitude v)%num);
                   Vector2.y := init n0 (Some (Vector2.y v / Vector2.magnitude v)%num) |}
                _ _ (8 * EPSILON) (-258) 149 (X / M) (Y / M)
                (near_quotient _ _ M Hx Hm HM) (near_quotient _ _ M Hy Hm HM)
                ltac:(lra) ltac:(lia) ltac:(lia)) as N.
  rewrite (unit_quotients (X * X + Y * Y) M) in N;
    [| exact HM | exact EM | field; lra].
  apply near_value in N as [F E].
  split; [exact F |]. lra.
Qed.

Lemma Vector3_normalized_near (v : Vector3.t) :
  moderate (Vector3.x v) = true -> moderate (Vector3.y v) = true ->
  moderate (Vector3.z v) = true ->
  is_zero (Vector3.x v) && is_zero (Vector3.y v) && is_zero (Vector3.z v) = false ->
  (Vector3.magnitude v >? n0)%num = true
  /\ is_finite (Vector3.magnitude (Vector3.normalized v)) = true
  /\ Rabs (absR (Vector3.magnitude (Vector3.normalized v)) - 1) <= 16 * EPSILON.
Proof.
  intros Hx Hy Hz Hnz. pose proof EPSILON_pos as U0.
  pose proof (absR_nonneg (Vector3.x v)) as X0.
  pose proof (absR_nonneg (Vector3.y v)) as Y0.
  pose proof (absR_nonneg (Vector3.z v)) as Z0.
  assert (HS : 0 < absR (Vector3.x v) * absR (Vector3.x v)
                  + absR (Vector3.y v) * absR (Vector3.y v)
                  + absR (Vector3.z v) * absR (Vector3.z v)).
  { apply andb_false_iff in Hnz as [Hnz | H];
      [apply andb_false_iff in Hnz as [H | H] |];
      [pose proof (absR_pos _ Hx H) | pose proof (absR_pos _ Hy H)
       | pose proof (absR_pos _ Hz H)]; nra. }
  set (X := absR (Vector3.x v)) in *. set (Y := absR (Vector3.y v)) in *.
  set (Z := absR (Vector3.z v)) in *.
  destruct (sqrt_sum_pos _ HS) as [HM EM].
  set (M := sqrt (X * X + Y * Y + Z * Z)) in *.
  pose proof (Vector3_magnitude_near v _ _ _ 0 (-153) 47 X Y Z
                (near_moderate _ Hx) (near_moderate _ Hy) (near_moderate _ Hz)
                ltac:(lra) ltac:(lia) ltac:(lia)) as Hm.
  fold M in Hm.
  apply (near_weaken _ _ (6 * EPSILON) _ (-153) _ 52) in Hm; [| lra | lia | lia].
  pose proof (near_gt _ _ _ _ _ Hm HM) as Hgt.
  split; [exact Hgt |].
  unfold Vector3.normalized. cbv zeta. rewrite Hgt.
  unfold Vector3.new, Vector3.constructor.
  pose proof (Vector3_magnitude_near
                {| Vector3.x := init n0 (Some (Vector3.x v / Vector3.magnitude v)%num);
                   Vector3.y := init n0 (Some (Vector3.y v / Vector3.magnitude v)%num);
                   Vector3.z := init n0 (Some (Vector3.z v / Vector3.magnitude v)%num) |}
                _ _ _ (8 * EPSILON) (-258) 149 (X / M) (Y / M) (Z / M)
                (near_quotient _ _ M Hx Hm HM) (near_quotient _ _ M Hy Hm HM)
                (near_quotient _ _ M Hz Hm HM)
                ltac:(lra) ltac:(lia) ltac:(lia)) as N.
  rewrite (unit_quotients (X * X + Y * Y + Z * Z) M) in N;
    [| exact HM | exact EM | field; lra].
  apply near_value in N as [F E].
  split; [exact F |]. lra.
Qed.

Lemma Vector4_normalized_near (v : Vector4.t) :
  moderate (Vector4.x v) = true -> moderate (Vector4.y v) = true ->
  moderate (Vector4.z v) = true -> moderate (Vector4.w v) = true ->
  is_zero (Vector4.w v) = false ->
  (Vector4.magnitude v >? n0)%num = true
  /\ is_finite (Vector4.magnitude (Vector4.normalized v)) = true
  /\ Rabs (absR (Vector4.magnitude (Vector4.normalized v)) - 1) <= 16 * EPSILON.
Proof.
  intros Hx Hy Hz Hw Hnz. pose proof EPSILON_pos as U0.
  pose proof (absR_nonneg (Vector4.x v)) as X0.
  pose proof (absR_nonneg (Vector4.y v)) as Y0.
  pose proof (absR_nonneg (Vector4.z v)) as Z0.
  pose proof (absR_pos _ Hw Hnz) as W0.
  set (X := absR (Vector4.x v)) in *. set (Y := absR (Vector4.y v)) in *.
  set (Z := absR (Vector4.z v)) in *. set (W := absR (Vector4.w v)) in *.
  assert (HS : 0 < X * X + Y * Y + Z * Z + W * W) by nra.
  destruct (sqrt_sum_pos _ HS) as [HM EM].
  set (M := sqrt (X * X + Y * Y + Z * Z + W * W)) in *.
  pose proof (Vector4_magnitude_near v _ _ _ _ 0 (-153) 47 X Y Z W
                (near_moderate _ Hx) (near_moderate _ Hy) (near_moderate _ Hz)
                (near_moderate _ Hw)
                ltac:(lra) ltac:(lia) ltac:(lia)) as Hm.
  fold M in Hm.
  apply (near_weaken _ _ (6 * EPSILON) _ (-153) _ 52) in Hm; [| lra | lia | lia].
  pose proof (near_gt _ _ _ _ _ Hm HM) as Hgt.
  split; [exact Hgt |].
  unfold Vector4.normalized. cbv zeta. rewrite Hgt.
  unfold Vector4.new, Vector4.constructor.
  pose proof (near_quotient _ _ M Hw Hm HM) as Qw.
  assert (HWM : 0 < W / M) by (apply Rdiv_lt_0_compat; lra).
  assert (Ew : init n1 (Some (Vector4.w v / Vector4.magnitude v)%num)
               = init n0 (Some (Vector4.w v / Vector4.magnitude v)%num)).
  { destruct Qw as [[Q _] | (_ & m & e & Q & _)]; [fold W in Q; lra |].
    destruct (Vector4.w v / Vector4.magnitude v)%num as [s|s| |s m' e'];
      try reflexivity; discriminate. }
  rewrite Ew.
  pose proof (Vector4_magnitude_near
                {| Vector4.x := init n0 (Some (Vector4.x v / Vector4.magnitude v)%num);
                   Vector4.y := init n0 (Some (Vector4.y v / Vector4.magnitude v)%num);
                   Vector4.z := init n0 (Some (Vector4.z v / Vector4.magnitude v)%num);
                   Vector4.w := init n0 (Some (Vector4.w v / Vector4.magnitude v)%num) |}
                _ _ _ _ (8 * EPSILON) (-258) 149 (X / M) (Y / M) (Z / M) (W / M)
                (near_quotient _ _ M Hx Hm HM) (near_quotient _ _ M Hy Hm HM)
                (near_quotient _ _ M Hz Hm HM) Qw
                ltac:(lra) ltac:(lia) ltac:(lia)) as N.
  rewrite (unit_quotients (X * X + Y * Y + Z * Z + W * W) M) in N;
    [| exact HM | exact EM | field; lra].
  apply near_value in N as [F E].
  split; [exact F |]. lra.
Qed.

(** A zero is above no number whose sign bit is clear. *)
Lemma zero_not_above (mag m : number) :
  is_zero mag = true -> moderate m = true -> sign_set m = false ->
  (mag >? m)%num = false.
Proof.
  destruct mag as [s| | |]; try discriminate.
  destruct m as [s'|s'| |s' m e]; try discriminate; intros _ _ Hs;
    cbn [sign_set] in Hs; subst; reflexivity.
Qed.

Lemma scaled_length (S M r Q : R) :
  0 < M -> M * M = S -> 0 <= r -> Q = (r * r) * S -> sqrt Q = r * M.
Proof.
  intros HM E Hr ->. rewrite <- E.
  replace (r * r * (M * M)) with ((r * M) * (r * M)) by ring.
  apply sqrt_square. nra.
Qed.

(** A field scaled by the ratio, as the constructor stores it. *)
Lemma near_scaled (a ratio : number) (r : R) :
  moderate a = true -> near false (8 * EPSILON) (-258) 149 ratio r ->
  near (sign_set a) (10 * EPSILON) (-359) 250 (init n0 (Some (a * ratio)%num)) (absR a * r).
Proof.
  intros Ha Hr. pose proof EPSILON_pos as U0.
  apply near_init.
  pose proof (near_mul _ _ 0 (8 * EPSILON) _ _ _ _ _ _ _ _ (near_moderate a Ha) Hr
                ltac:(lra) ltac:(lra) ltac:(lia) ltac:(lia)) as N.
  rewrite xorb_false_r in N.
  apply (near_weaken _ _ _ _ _ _ _ _ _ N); [lra | lia | lia].
Qed.

(** The ratio [m / magnitude]. *)
Lemma near_ratio (m mag : number) (M : R) :
  moderate m = true -> sign_set m = false ->
  near false (6 * EPSILON) (-153) 52 mag M -> 0 < M ->
  near false (8 * EPSILON) (-258) 149 (m / mag)%num (absR m / M).
Proof.
  intros Hm Hs Hmag HM. pose proof EPSILON_pos as U0.
  pose proof (near_moderate m Hm) as Nm. rewrite Hs in Nm.
  pose proof (near_div _ 0 (6 * EPSILON) _ _ _ _ _ _ _ _ Nm Hmag HM
                ltac:(lra) ltac:(lra) ltac:(lia) ltac:(lia)) as N.
  apply (near_weaken _ _ _ _ _ _ _ _ _ N); [lra | lia | lia].
Qed.

(** [ClampMagnitude] of a vector of [moderate] fields to a [moderate] [m]
    below its magnitude has a magnitude within [16 * EPSILON * m] of [m]. *)
Lemma Vector2_ClampMagnitude_near (v : Vector2.t) (m : number) :
  moderate (Vector2.x v) = true -> moderate (Vector2.y v) = true ->
  moderate m = true -> sign_set m = false ->
  (Vector2.magnitude v >? m)%num = true ->
  is_finite (Vector2.magnitude (Vector2.ClampMagnitude v m)) = true
  /\ Rabs (absR (Vector2.magnitude (Vector2.ClampMagnitude v m)) - absR m)
     <= 16 * EPSILON * absR m.
Proof.
  intros Hx Hy Hm Hs Hgt. pose proof EPSILON_pos as U0.
  pose proof (absR_nonneg m) as M0.
  set (X := absR (Vector2.x v)). set (Y := absR (Vector2.y v)).
  pose proof (Vector2_magnitude_near v _ _ 0 (-153) 47 X Y
                (near_moderate _ Hx) (near_moderate _ Hy)
                ltac:(lra) ltac:(lia) ltac:(lia)) as Hmag.
  apply (near_weaken _ _ (6 * EPSILON) _ (-153) _ 52) in Hmag; [| lra | lia | lia].
  set (S := X * X + Y * Y) in *. set (M := sqrt S) in *.
  assert (HM : 0 < M).
  { destruct Hmag as [[_ Hz] | [H _]]; [| exact H].
    rewrite (zero_not_above _ _ Hz Hm Hs) in Hgt. discriminate. }
  assert (EM : M * M = S).
  { apply sqrt_sqrt. unfold S. nra. }
  pose proof (near_ratio m _ M Hm Hs Hmag HM) as Hr.
  set (r := absR m / M) in *.
  assert (Hr0 : 0 <= r) by (apply Rmult_le_pos; [lra | left; apply Rinv_0_lt_compat; lra]).
  unfold Vector2.ClampMagnitude. cbv zeta. rewrite Hgt.
  unfold Vector2.new, Vector2.constructor.
  pose proof (Vector2_magnitude_near
                {| Vector2.x := init n0 (Some (Vector2.x v * (m / Vector2.magnitude v))%num);
                   Vector2.y := init n0 (Some (Vector2.y v * (m / Vector2.magnitude v))%num) |}
                _ _ (10 * EPSILON) (-359) 250 (X * r) (Y * r)
                (near_scaled _ _ r Hx Hr) (near_scaled _ _ r Hy Hr)
                ltac:(lra) ltac:(lia) ltac:(lia)) as N.
  rewrite (scaled_length S M r) in N; [| exact HM | exact EM | exact Hr0 | unfold S; ring].
  replace (r * M) with (absR m) in N by (unfold r; field; lra).
  apply near_value in N as [F E].
  split; [exact F |]. lra.
Qed.

Lemma Vector3_ClampMagnitude_near (v : Vector3.t) (m : number) :
  moderate (Vector3.x v) = true -> moderate (Vector3.y v) = true ->
  moderate (Vector3.z v) = true ->
  moderate m = true -> sign_set m = false ->
  (Vector3.magnitude v >? m)%num = true ->
  is_finite (Vector3.magnitude (Vector3.ClampMagnitude v m)) = true
  /\ Rabs (absR (Vector3.magnitude (Vector3.ClampMagnitude v m)) - absR m)
     <= 16 * EPSILON * absR m.
Proof.
  intros Hx Hy Hz Hm Hs Hgt. pose proof EPSILON_pos as U0.
  pose proof (absR_nonneg m) as M0.
  set (X := absR (Vector3.x v)). set (Y := absR (Vector3.y v)).
  set (Z := absR (Vector3.z v)).
  pose proof (Vector3_magnitude_near v _ _ _ 0 (-153) 47 X Y Z
                (near_moderate _ Hx) (near_moderate _ Hy) (near_moderate _ Hz)
                ltac:(lra) ltac:(lia) ltac:(lia)) as Hmag.
  apply (near_weaken _ _ (6 * EPSILON) _ (-153) _ 52) in Hmag; [| lra | lia | lia].
  set (S := X * X + Y * Y + Z * Z) in *. set (M := sqrt S) in *.
  assert (HM : 0 < M).
  { destruct Hmag as [[_ Hz0] | [H _]]; [| exact H].
    rewrite (zero_not_above _ _ Hz0 Hm Hs) in Hgt. discriminate. }
  assert (EM : M * M = S).
  { apply sqrt_sqrt. unfold S. nra. }
  pose proof (near_ratio m _ M Hm Hs Hmag HM) as Hr.
  set (r := absR m / M) in *.
  assert (Hr0 : 0 <= r) by (apply Rmult_le_pos; [lra | left; apply Rinv_0_lt_compat; lra]).
  unfold Vector3.ClampMagnitude. cbv zeta. rewrite Hgt.
  unfold Vector3.new, Vector3.constructor.
  pose proof (Vector3_magnitude_near
                {| Vector3.x := init n0 (Some (Vector3.x v * (m / Vector3.magnitude v))%num);
                   Vector3.y := init n0 (Some (Vector3.y v * (m / Vector3.magnitude v))%num);
                   Vector3.z := init n0 (Some (Vector3.z v * (m / Vector3.magnitude v))%num) |}
                _ _ _ (10 * EPSILON) (-359) 250 (X * r) (Y * r) (Z * r)
                (near_scaled _ _ r Hx Hr) (near_scaled _ _ r Hy Hr)
                (near_scaled _ _ r Hz Hr)
                ltac:(lra) ltac:(lia) ltac:(lia)) as N.
  rewrite (scaled_length S M r) in N; [| exact HM | exact EM | exact Hr0 | unfold S; ring].
  replace (r * M) with (absR m) in N by (unfold r; field; lra).
  apply near_value in N as [F E].
  split; [exact F |]. lra.
Qed.

Lemma Vector4_ClampMagnitude_near (v : Vector4.t) (m : number) :
  moderate (Vector4.x v) = true -> moderate (Vector4.y v) = true ->
  moderate (Vector4.z v) = true -> moderate (Vector4.w v) = true ->
  is_zero (Vector4.w v) = false ->
  moderate m = true -> sign_set m = false -> is_zero m = false ->
  (Vector4.magnitude v >? m)%num = true ->
  is_finite (Vector4.magnitude (Vector4.ClampMagnitude v m)) = true
  /\ Rabs (absR (Vector4.magnitude (Vector4.ClampMagnitude v m)) - absR m)
     <= 16 * EPSILON * absR m.
Proof.
  intros Hx Hy Hz Hw Hwz Hm Hs Hmz Hgt. pose proof EPSILON_pos as U0.
  pose proof (absR_pos m Hm Hmz) as M0.
  pose proof (absR_pos _ Hw Hwz) as W0.
  set (X := absR (Vector4.x v)). set (Y := absR (Vector4.y v)).
  set (Z := absR (Vector4.z v)). set (W := absR (Vector4.w v)) in *.
  pose proof (Vector4_magnitude_near v _ _ _ _ 0 (-153) 47 X Y Z W
                (near_moderate _ Hx) (near_moderate _ Hy) (near_moderate _ Hz)
                (near_moderate _ Hw)
                ltac:(lra) ltac:(lia) ltac:(lia)) as Hmag.
  apply (near_weaken _ _ (6 * EPSILON) _ (-153) _ 52) in Hmag; [| lra | lia | lia].
  set (S := X * X + Y * Y + Z * Z + W * W) in *. set (M := sqrt S) in *.
  assert (HM : 0 < M).
  { destruct Hmag as [[_ Hz0] | [H _]]; [| exact H].
    rewrite (zero_not_above _ _ Hz0 Hm Hs) in Hgt. discriminate. }
  assert (EM : M * M = S).
  { apply sqrt_sqrt. unfold S. nra. }
  pose proof (near_ratio m _ M Hm Hs Hmag HM) as Hr.
  set (r := absR m / M) in *.
  assert (Hr0 : 0 < r) by (apply Rdiv_lt_0_compat; lra).
  unfold Vector4.ClampMagnitude. cbv zeta. rewrite Hgt.
  unfold Vector4.new, Vector4.constructor.
  pose proof (near_scaled _ _ r Hw Hr) as Qw.
  assert (HWr : 0 < W * r) by (apply Rmult_lt_0_compat; lra).
  assert (Ew : init n1 (Some (Vector4.w v * (m / Vector4.magnitude v))%num)
               = init n0 (Some (Vector4.w v * (m / Vector4.magnitude v))%num)).
  { destruct Qw as [[Q _] | (_ & m' & e' & Q & _)]; [fold W in Q; lra |].
    destruct (Vector4.w v * (m / Vector4.magnitude v))%num as [s0|s0| |s0 m0 e0];
      try reflexivity; discriminate. }
  rewrite Ew.
  pose proof (Vector4_magnitude_near
                {| Vector4.x := init n0 (Some (Vector4.x v * (m / Vector4.magnitude v))%num);
                   Vector4.y := init n0 (Some (Vector4.y v * (m / Vector4.magnitude v))%num);
                   Vector4.z := init n0 (Some (Vector4.z v * (m / Vector4.magnitude v))%num);
                   Vector4.w := init n0 (Some (Vector4.w v * (m / Vector4.magnitude v))%num) |}
                _ _ _ _ (10 * EPSILON) (-359) 250 (X * r) (Y * r) (Z * r) (W * r)
                (near_scaled _ _ r Hx Hr) (near_scaled _ _ r Hy Hr)
                (near_scaled _ _ r Hz Hr) Qw
                ltac:(lra) ltac:(lia) ltac:(lia)) as N.
  rewrite (scaled_length S M r) in N; [| exact HM | exact EM | lra | unfold S; ring].
  replace (r * M) with (absR m) in N by (unfold r; field; lra).
  apply near_value in N as [F E].
  split; [exact F |]. lra.
Qed.

End LengthFacts.

(** ** The three classes *)

Section VectorFacts.

Local Open Scope num_scope.

(** The stored difference [p - q] is, as a number, the negation of the
    stored difference [q - p]. *)
Lemma init_sub_anti (p q : number) :
  (init n0 (Some (p - q)) == - init n0 (Some (q - p))) = true.
Proof.
  destruct (init_sub_swap n0 p q) as [(Ht & E1 & E2) | [E1 E2]];
    rewrite E1, E2.
  - rewrite neg_involutive. apply eqb_refl. now apply truthy_not_NaN.
  - reflexivity.
Qed.

Lemma Vector2_Distance_symmetric (a b : Vector2.t) :
  Vector2.Distance a b = Vector2.Distance b a.
Proof.
  unfold Vector2.Distance, Vector2.Subtract, Vector2.magnitude,
    Vector2.new, Vector2.constructor.
  cbn [Vector2.x Vector2.y].
  now rewrite (sq_init_sub_swap n0 (Vector2.x a) (Vector2.x b)),
    (sq_init_sub_swap n0 (Vector2.y a) (Vector2.y b)).
Qed.

Lemma Vector3_Distance_symmetric (a b : Vector3.t) :
  Vector3.Distance a b = Vector3.Distance b a.
Proof.
  unfold Vector3.Distance, Vector3.Subtract, Vector3.magnitude,
    Vector3.new, Vector3.constructor.
  cbn [Vector3.x Vector3.y Vector3.z].
  now rewrite (sq_init_sub_swap n0 (Vector3.x a) (Vector3.x b)),
    (sq_init_sub_swap n0 (Vector3.y a) (Vector3.y b)),
    (sq_init_sub_swap n0 (Vector3.z a) (Vector3.z b)).
Qed.

Lemma Vector4_Distance_symmetric (a b : Vector4.t) :
  Vector4.Distance a b = Vector4.Distance b a.
Proof.
  unfold Vector4.Distance, Vector4.Subtract, Vector4.magnitude,
    Vector4.new, Vector4.constructor.
  cbn [Vector4.x Vector4.y Vector4.z Vector4.w].
  now rewrite (sq_init_sub_swap n0 (Vector4.x a) (Vector4.x b)),
    (sq_init_sub_swap n0 (Vector4.y a) (Vector4.y b)),
    (sq_init_sub_swap n0 (Vector4.z a) (Vector4.z b)),
    (sq_init_sub_swap n1 (Vector4.w a) (Vector4.w b)).
Qed.

(** C10. [Distance] is symmetric for each of the three classes and for all
    field values, infinities and NaN included: [Distance(a, b)] and
    [Distance(b, a)] are the same number. *)
Theorem Distance_symmetric :
  (forall a b : Vector2.t, Vector2.Distance a b = Vector2.Distance b a)
  /\ (forall a b : Vector3.t, Vector3.Distance a b = Vector3.Distance b a)
  /\ (forall a b : Vector4.t, Vector4.Distance a b = Vector4.Distance b a).
Proof.
  repeat split; intros a b.
  - apply Vector2_Distance_symmetric.
  - apply Vector3_Distance_symmetric.
  - apply Vector4_Distance_symmetric.
Qed.

(** C8. [Cross] is anticommutative.  For [Vector3] every component of
    [Cross(a, b)] equals ([==]) the negation of the same component of
    [Cross(b, a)]; for [Vector2] the [x] component does, and [y] stays at
    its initialiser 0. *)
Theorem Cross_anticommutative :
  (forall a b : Vector3.t,
      (Vector3.x (Vector3.Cross a b) == - Vector3.x (Vector3.Cross b a)) = true
      /\ (Vector3.y (Vector3.Cross a b) == - Vector3.y (Vector3.Cross b a)) = true
      /\ (Vector3.z (Vector3.Cross a b) == - Vector3.z (Vector3.Cross b a)) = true)
  /\ (forall a b : Vector2.t,
      (Vector2.x (Vector2.Cross a b) == - Vector2.x (Vector2.Cross b a)) = true
      /\ Vector2.y (Vector2.Cross a b) = n0).
Proof.
  split; intros a b.
  - unfold Vector3.Cross, Vector3.new, Vector3.constructor.
    cbn [Vector3.x Vector3.y Vector3.z].
    rewrite (mul_comm (Vector3.y b) (Vector3.z a)),
      (mul_comm (Vector3.z b) (Vector3.y a)),
      (mul_comm (Vector3.z b) (Vector3.x a)),
      (mul_comm (Vector3.x b) (Vector3.z a)),
      (mul_comm (Vector3.x b) (Vector3.y a)),
      (mul_comm (Vector3.y b) (Vector3.x a)).
    repeat split; apply init_sub_anti.
  - unfold Vector2.Cross, Vector2.constructor.
    cbn [Vector2.x Vector2.y].
    rewrite (mul_comm (Vector2.x b) (Vector2.y a)),
      (mul_comm (Vector2.x a) (Vector2.y b)).
    split; [apply init_sub_anti | reflexivity].
Qed.

(** C3. [sqrMagnitude] is the square root of [magnitude], that is the
    fourth root of the sum of the squared fields, for each class; it is not
    the sum of squares: for (0, 2) the sum is 4 and [sqrMagnitude] is the
    square root of 2. *)
Theorem sqrMagnitude_is_sqrt_of_magnitude :
  (forall v : Vector2.t,
      Vector2.sqrMagnitude v = Math_sqrt (Vector2.magnitude v)
      /\ Vector2.sqrMagnitude v
         = Math_sqrt (Math_sqrt (Vector2.x v * Vector2.x v
                                 + Vector2.y v * Vector2.y v)))
  /\ (forall v : Vector3.t,
      Vector3.sqrMagnitude v = Math_sqrt (Vector3.magnitude v)
      /\ Vector3.sqrMagnitude v
         = Math_sqrt (Math_sqrt (Vector3.x v * Vector3.x v
                                 + Vector3.y v * Vector3.y v
                                 + Vector3.z v * Vector3.z v)))
  /\ (forall v : Vector4.t,
      Vector4.sqrMagnitude v = Math_sqrt (Vector4.magnitude v)
      /\ Vector4.sqrMagnitude v
         = Math_sqrt (Math_sqrt (Vector4.x v * Vector4.x v
                                 + Vector4.y v * Vector4.y v
                                 + Vector4.z v * Vector4.z v
                                 + Vector4.w v * Vector4.w v)))
  /\ (Vector2.x v_0_2 * Vector2.x v_0_2 + Vector2.y v_0_2 * Vector2.y v_0_2 = n4
      /\ Vector2.magnitude v_0_2 = n2
      /\ Vector2.sqrMagnitude v_0_2 = Math_sqrt n2
      /\ (Vector2.sqrMagnitude v_0_2 == n4) = false).
Proof.
  repeat split.
Qed.

(** *** The constructor never stores NaN *)

Lemma Vector2_constructor_NaN_free (ax ay : option number) :
  Vector2.NaN_free (Vector2.constructor ax ay).
Proof. split; now apply init_not_NaN. Qed.

Lemma Vector3_constructor_NaN_free (ax ay az : option number) :
  Vector3.NaN_free (Vector3.constructor ax ay az).
Proof. repeat split; now apply init_not_NaN. Qed.

Lemma Vector4_constructor_NaN_free (ax ay az aw : option number) :
  Vector4.NaN_free (Vector4.constructor ax ay az aw).
Proof. repeat split; now apply init_not_NaN. Qed.

(** *** The magnitude is NaN or has a clear sign bit *)

Lemma Vector2_magnitude_has_sign (v : Vector2.t) :
  Vector2.NaN_free v -> has_sign false (Vector2.magnitude v).
Proof.
  intros [Hx Hy]. apply sqrt_has_sign.
  auto using add_has_sign, mul_self_has_sign.
Qed.

Lemma Vector3_magnitude_has_sign (v : Vector3.t) :
  Vector3.NaN_free v -> has_sign false (Vector3.magnitude v).
Proof.
  intros (Hx & Hy & Hz). apply sqrt_has_sign.
  auto using add_has_sign, mul_self_has_sign.
Qed.

Lemma Vector4_magnitude_has_sign (v : Vector4.t) :
  Vector4.NaN_free v -> has_sign false (Vector4.magnitude v).
Proof.
  intros (Hx & Hy & Hz & Hw). apply sqrt_has_sign.
  auto 6 using add_has_sign, mul_self_has_sign.
Qed.

Lemma Vector2_magnitude_not_NaN (v : Vector2.t) :
  isNaN (Vector2.magnitude v) = false -> Vector2.NaN_free v.
Proof.
  intros H. apply sqrt_not_NaN, add_not_NaN in H as [Hx Hy].
  apply mul_not_NaN in Hx as [Hx _]. apply mul_not_NaN in Hy as [Hy _].
  now split.
Qed.

Lemma Vector3_magnitude_not_NaN (v : Vector3.t) :
  isNaN (Vector3.magnitude v) = false -> Vector3.NaN_free v.
Proof.
  intros H. apply sqrt_not_NaN, add_not_NaN in H as [H Hz].
  apply add_not_NaN in H as [Hx Hy].
  apply mul_not_NaN in Hx as [Hx _]. apply mul_not_NaN in Hy as [Hy _].
  apply mul_not_NaN in Hz as [Hz _].
  now repeat split.
Qed.

Lemma Vector4_magnitude_not_NaN (v : Vector4.t) :
  isNaN (Vector4.magnitude v) = false -> Vector4.NaN_free v.
Proof.
  intros H. apply sqrt_not_NaN, add_not_NaN in H as [H Hw].
  apply add_not_NaN in H as [H Hz].
  apply add_not_NaN in H as [Hx Hy].
  apply mul_not_NaN in Hx as [Hx _]. apply mul_not_NaN in Hy as [Hy _].
  apply mul_not_NaN in Hz as [Hz _]. apply mul_not_NaN in Hw as [Hw _].
  now repeat split.
Qed.

(** *** Static [Divide] by zero *)

Lemma init_div_by_zero (d n z : number) :
  is_zero z = true ->
  init d (Some (n / z)) = quotient_by_zero d n (sign_set z).
Proof.
  destruct z as [s| | |]; try discriminate. intros _.
  apply init_div_zero.
Qed.

(** C1, counterexample.  [Vector2.Divide(Vector2.zero, 0)]: the quotient
    [0 / 0] is NaN, yet both fields of the result are 0, not NaN. *)
Lemma Divide_zero_by_zero_has_no_NaN :
  isNaN (n0 / n0) = true
  /\ Vector2.Divide Vector2.zero (Num n0) = Vector2.mk n0 n0
  /\ ~ (isNaN (Vector2.x (Vector2.Divide Vector2.zero (Num n0))) = true
        /\ isNaN (Vector2.y (Vector2.Divide Vector2.zero (Num n0))) = true).
Proof.
  repeat split. intros [H _]. discriminate H.
Qed.

(** C1, amended.  Static [Divide] by a zero scalar, or by a vector with a
    zero field, for each class: a field whose dividend is neither zero nor
    NaN receives the infinity of the quotient's sign, unchanged; a field
    whose dividend is zero or NaN (quotient NaN) keeps its initialiser, 0
    for [x], [y], [z] and 1 for [w], and is not NaN. *)
Theorem Divide_by_zero :
  (forall (a : Vector2.t) (s : bool),
      Vector2.Divide a (Num (S754_zero s))
      = Vector2.mk (quotient_by_zero n0 (Vector2.x a) s)
                   (quotient_by_zero n0 (Vector2.y a) s))
  /\ (forall (a : Vector3.t) (s : bool),
      Vector3.Divide a (Num (S754_zero s))
      = Vector3.mk (quotient_by_zero n0 (Vector3.x a) s)
                   (quotient_by_zero n0 (Vector3.y a) s)
                   (quotient_by_zero n0 (Vector3.z a) s))
  /\ (forall (a : Vector4.t) (s : bool),
      Vector4.Divide a (Num (S754_zero s))
      = Vector4.mk (quotient_by_zero n0 (Vector4.x a) s)
                   (quotient_by_zero n0 (Vector4.y a) s)
                   (quotient_by_zero n0 (Vector4.z a) s)
                   (quotient_by_zero n1 (Vector4.w a) s))
  /\ (forall a b : Vector2.t,
      (is_zero (Vector2.x b) = true ->
       Vector2.x (Vector2.Divide a (Vec b))
       = quotient_by_zero n0 (Vector2.x a) (sign_set (Vector2.x b)))
      /\ (is_zero (Vector2.y b) = true ->
          Vector2.y (Vector2.Divide a (Vec b))
          = quotient_by_zero n0 (Vector2.y a) (sign_set (Vector2.y b))))
  /\ (forall a b : Vector3.t,
      (is_zero (Vector3.x b) = true ->
       Vector3.x (Vector3.Divide a (Vec b))
       = quotient_by_zero n0 (Vector3.x a) (sign_set (Vector3.x b)))
      /\ (is_zero (Vector3.y b) = true ->
          Vector3.y (Vector3.Divide a (Vec b))
          = quotient_by_zero n0 (Vector3.y a) (sign_set (Vector3.y b)))
      /\ (is_zero (Vector3.z b) = true ->
          Vector3.z (Vector3.Divide a (Vec b))
          = quotient_by_zero n0 (Vector3.z a) (sign_set (Vector3.z b))))
  /\ (forall a b : Vector4.t,
      (is_zero (Vector4.x b) = true ->
       Vector4.x (Vector4.Divide a (Vec b))
       = quotient_by_zero n0 (Vector4.x a) (sign_set (Vector4.x b)))
      /\ (is_zero (Vector4.y b) = true ->
          Vector4.y (Vector4.Divide a (Vec b))
          = quotient_by_zero n0 (Vector4.y a) (sign_set (Vector4.y b)))
      /\ (is_zero (Vector4.z b) = true ->
          Vector4.z (Vector4.Divide a (Vec b))
          = quotient_by_zero n0 (Vector4.z a) (sign_set (Vector4.z b)))
      /\ (is_zero (Vector4.w b) = true ->
          Vector4.w (Vector4.Divide a (Vec b))
          = quotient_by_zero n1 (Vector4.w a) (sign_set (Vector4.w b)))).
Proof.
  repeat apply conj; intros a b;
    try (unfold Vector2.Divide, Vector2.new, Vector2.constructor;
         now rewrite !init_div_zero);
    try (unfold Vector3.Divide, Vector3.new, Vector3.constructor;
         now rewrite !init_div_zero);
    try (unfold Vector4.Divide, Vector4.new, Vector4.constructor;
         now rewrite !init_div_zero);
    repeat apply conj; apply init_div_by_zero.
Qed.

(** At (1, 1) divided by the vector (0, 0): both fields are [Infinity]. *)
Lemma Divide_by_zero_witness :
  is_zero (Vector2.x Vector2.zero) = true
  /\ Vector2.x (Vector2.Divide Vector2.one (Vec Vector2.zero)) = Infinity.
Proof.
  split; [reflexivity |].
  exact (proj1 (proj1 (proj2 (proj2 (proj2 Divide_by_zero)))
                  Vector2.one Vector2.zero) eq_refl).
Defined.

(** *** [Vector4.zero] *)

(** C2.  [Vector4.zero] is [new Vector4(0, 0, 0, 0)], whose [w] argument is
    falsy, so [w] keeps its initialiser 1; and [normalized] of the vector
    whose four fields are 0 returns that value. *)
Theorem Vector4_zero_w_is_one :
  Vector4.zero = Vector4.mk n0 n0 n0 n1
  /\ (Vector4.w Vector4.zero == n0) = false
  /\ Vector4.magnitude (Vector4.mk n0 n0 n0 n0) = n0
  /\ Vector4.normalized (Vector4.mk n0 n0 n0 n0) = Vector4.mk n0 n0 n0 n1
  /\ Vector4.magnitude Vector4.zero = n1.
Proof. repeat split. Qed.

(** *** [Lerp] *)

(** At [t = 0] (either zero) a field with initialiser 0 gets back the
    field of [a]. *)
Lemma lerp_field_zero (a b : number) (s : bool) :
  isNaN a = false -> (lerp_field n0 a b (S754_zero s) == a) = true.
Proof.
  intros Ha. unfold lerp_field.
  assert (E : init n0 (Some (init n0 (Some (b - a)) * S754_zero s)) = n0).
  { simpl. now rewrite mul_zero_r. }
  rewrite E. now apply init_add_n0.
Qed.

Lemma Lerp_at_zero_is_DoLerp (s : bool) :
  (S754_zero s <? n0) = false /\ (S754_zero s >? n1) = false.
Proof. now destruct s. Qed.

(** C4, counterexample.  [Lerp(a, b, 1)] is not always [b]: with
    [a.x = 2^54] and [b.x = 1] the difference [b.x - a.x] rounds to
    [-2^54], and the result's [x] is 0. *)
Lemma Lerp_at_one_is_not_b :
  Vector2.x v_two_54 = two_54 /\ Vector2.x v_1_0 = n1
  /\ n1 - two_54 = - two_54
  /\ Vector2.Lerp v_two_54 v_1_0 n1 = Vector2.mk n0 n0
  /\ (Vector2.x (Vector2.Lerp v_two_54 v_1_0 n1) == Vector2.x v_1_0) = false.
Proof. repeat split. Qed.

(** C4, amended.  For each class: [Lerp(a, b, t)] with [t < 0] returns the
    reference [a] and with [t > 1] the reference [b], the heap untouched;
    for every other [t] (NaN included) it is [LerpUnclamped(a, b, t)],
    which allocates three objects and returns the last, a reference other
    than [a] and [b], whose fields are [a + (b - a) * t] in double
    arithmetic with each of the three steps stored through the constructor
    ([lerp_field]).  For [Vector2] and [Vector3], [Lerp(a, b, 0)] equals
    [a] field by field whenever no field of [a] is NaN. *)
Theorem Lerp_cases :
  (forall (h : Vector2Obj.heap) (a b : Obj.ref) (t : number),
      ((t <? n0) = true -> Vector2Obj.Lerp a b t h = Some (a, h))
      /\ ((t <? n0) = false -> (t >? n1) = true ->
          Vector2Obj.Lerp a b t h = Some (b, h))
      /\ ((t <? n0) = false -> (t >? n1) = false ->
          Vector2Obj.Lerp a b t h = Vector2Obj.LerpUnclamped a b t h
          /\ forall va vb : Vector2.t,
              h !! a = Some va -> h !! b = Some vb ->
              Vector2Obj.Lerp a b t h
              = Some (S (S (length h)),
                      h ++ [Vector2.Subtract vb (Vec va);
                            Vector2.Multiply (Vector2.Subtract vb (Vec va)) (Num t);
                            Vector2.DoLerp va vb t])
              /\ S (S (length h)) <> a /\ S (S (length h)) <> b))
  /\ (forall (va vb : Vector2.t) (t : number),
      Vector2.LerpUnclamped va vb t = Vector2.DoLerp va vb t
      /\ Vector2.DoLerp va vb t
         = Vector2.mk (lerp_field n0 (Vector2.x va) (Vector2.x vb) t)
                     (lerp_field n0 (Vector2.y va) (Vector2.y vb) t))
  /\ (forall (h : Vector3Obj.heap) (a b : Obj.ref) (t : number),
      ((t <? n0) = true -> Vector3Obj.Lerp a b t h = Some (a, h))
      /\ ((t <? n0) = false -> (t >? n1) = true ->
          Vector3Obj.Lerp a b t h = Some (b, h))
      /\ ((t <? n0) = false -> (t >? n1) = false ->
          Vector3Obj.Lerp a b t h = Vector3Obj.LerpUnclamped a b t h
          /\ forall va vb : Vector3.t,
              h !! a = Some va -> h !! b = Some vb ->
              Vector3Obj.Lerp a b t h
              = Some (S (S (length h)),
                      h ++ [Vector3.Subtract vb (Vec va);
                            Vector3.Multiply (Vector3.Subtract vb (Vec va)) (Num t);
                            Vector3.DoLerp va vb t])
              /\ S (S (length h)) <> a /\ S (S (length h)) <> b))
  /\ (forall (va vb : Vector3.t) (t : number),
      Vector3.LerpUnclamped va vb t = Vector3.DoLerp va vb t
      /\ Vector3.DoLerp va vb t
         = Vector3.mk (lerp_field n0 (Vector3.x va) (Vector3.x vb) t)
                     (lerp_field n0 (Vector3.y va) (Vector3.y vb) t)
                     (lerp_field n0 (Vector3.z va) (Vector3.z vb) t))
  /\ (forall (h : Vector4Obj.heap) (a b : Obj.ref) (t : number),
      ((t <? n0) = true -> Vector4Obj.Lerp a b t h = Some (a, h))
      /\ ((t <? n0) = false -> (t >? n1) = true ->
          Vector4Obj.Lerp a b t h = Some (b, h))
      /\ ((t <? n0) = false -> (t >? n1) = false ->
          Vector4Obj.Lerp a b t h = Vector4Obj.LerpUnclamped a b t h
          /\ forall va vb : Vector4.t,
              h !! a = Some va -> h !! b = Some vb ->
              Vector4Obj.Lerp a b t h
              = Some (S (S (length h)),
                      h ++ [Vector4.Subtract vb (Vec va);
                            Vector4.Multiply (Vector4.Subtract vb (Vec va)) (Num t);
                            Vector4.DoLerp va vb t])
              /\ S (S (length h)) <> a /\ S (S (length h)) <> b))
  /\ (forall (va vb : Vector4.t) (t : number),
      Vector4.LerpUnclamped va vb t = Vector4.DoLerp va vb t
      /\ Vector4.DoLerp va vb t
         = Vector4.mk (lerp_field n0 (Vector4.x va) (Vector4.x vb) t)
                     (lerp_field n0 (Vector4.y va) (Vector4.y vb) t)
                     (lerp_field n0 (Vector4.z va) (Vector4.z vb) t)
                     (lerp_field n1 (Vector4.w va) (Vector4.w vb) t))
  /\ (forall (va vb : Vector2.t) (s : bool),
      Vector2.NaN_free va ->
      (Vector2.x (Vector2.Lerp va vb (S754_zero s)) == Vector2.x va) = true
      /\ (Vector2.y (Vector2.Lerp va vb (S754_zero s)) == Vector2.y va) = true)
  /\ (forall (va vb : Vector3.t) (s : bool),
      Vector3.NaN_free va ->
      (Vector3.x (Vector3.Lerp va vb (S754_zero s)) == Vector3.x va) = true
      /\ (Vector3.y (Vector3.Lerp va vb (S754_zero s)) == Vector3.y va) = true
      /\ (Vector3.z (Vector3.Lerp va vb (S754_zero s)) == Vector3.z va) = true).
Proof.
  repeat apply conj.
  - exact (Lerp_object_cases Vector2.Add Vector2.Subtract Vector2.Multiply).
  - intros va vb t. split; reflexivity.
  - exact (Lerp_object_cases Vector3.Add Vector3.Subtract Vector3.Multiply).
  - intros va vb t. split; reflexivity.
  - exact (Lerp_object_cases Vector4.Add Vector4.Subtract Vector4.Multiply).
  - intros va vb t. split; reflexivity.
  - intros va vb s [Hx Hy]. unfold Vector2.Lerp.
    destruct (Lerp_at_zero_is_DoLerp s) as [E0 E1]; rewrite E0, E1.
    split; now apply lerp_field_zero.
  - intros va vb s (Hx & Hy & Hz). unfold Vector3.Lerp.
    destruct (Lerp_at_zero_is_DoLerp s) as [E0 E1]; rewrite E0, E1.
    repeat split; now apply lerp_field_zero.
Qed.

(** On the heap holding (1, 1) at 0 and (0, 0) at 1, [Lerp] at [t = 0]
    returns the fresh reference 4, which holds (1, 1). *)
Lemma Lerp_cases_witness :
  (n0 <? n0) = false /\ (n0 >? n1) = false
  /\ Vector2Obj.Lerp 0%nat 1%nat n0 [Vector2.one; Vector2.zero]
     = Some (4%nat,
             [Vector2.one; Vector2.zero;
              Vector2.mk (- n1) (- n1); Vector2.zero; Vector2.one]).
Proof.
  split; [reflexivity | split; [reflexivity |]].
  exact (proj1 (proj2 (proj2 (proj2 (proj1 Lerp_cases
           [Vector2.one; Vector2.zero] 0%nat 1%nat n0)) eq_refl eq_refl)
           Vector2.one Vector2.zero eq_refl eq_refl)).
Defined.

(** *** [MoveTowards] *)

Lemma positive_div_n0 (d : number) : (d >? n0) = true -> d / n0 = Infinity.
Proof.
  destruct d as [sd|sd| |sd md ed]; try discriminate;
    destruct sd; try discriminate; reflexivity.
Qed.

(** With [t] NaN the product is NaN, which the constructor drops. *)
Lemma lerp_field_NaN (d a b : number) :
  lerp_field d a b NaN = init d (Some (a + d)).
Proof. unfold lerp_field. simpl. now rewrite mul_NaN_r. Qed.

Lemma Vector2_Subtract_self (v : Vector2.t) :
  Vector2.Subtract v (Vec v) = Vector2.zero.
Proof.
  unfold Vector2.Subtract, Vector2.new, Vector2.constructor. simpl.
  now rewrite !sub_self.
Qed.

Lemma Vector2_Distance_self (v : Vector2.t) : Vector2.Distance v v = n0.
Proof. unfold Vector2.Distance. now rewrite Vector2_Subtract_self. Qed.

Lemma Vector3_Subtract_self (v : Vector3.t) :
  Vector3.Subtract v (Vec v) = Vector3.zero.
Proof.
  unfold Vector3.Subtract, Vector3.new, Vector3.constructor. simpl.
  now rewrite !sub_self.
Qed.

Lemma Vector3_Distance_self (v : Vector3.t) : Vector3.Distance v v = n0.
Proof. unfold Vector3.Distance. now rewrite Vector3_Subtract_self. Qed.

(** C5, counterexample.  [MoveTowards] from (1, 1) to (1, 1) by 0: the
    ratio [0 / 0] is NaN, and the result is (1, 1); no field is NaN. *)
Lemma MoveTowards_zero_delta_has_no_NaN :
  Vector2.Distance Vector2.one Vector2.one = n0
  /\ isNaN (n0 / Vector2.Distance Vector2.one Vector2.one) = true
  /\ Vector2.MoveTowards Vector2.one Vector2.one n0 = Vector2.mk n1 n1
  /\ ~ (isNaN (Vector2.x (Vector2.MoveTowards Vector2.one Vector2.one n0))
        = true
        /\ isNaN (Vector2.y (Vector2.MoveTowards Vector2.one Vector2.one n0))
           = true).
Proof.
  repeat split. intros [H _]. discriminate H.
Qed.

(** C5, amended.  For each class [MoveTowards(current, target, d)] is
    [Lerp(current, target, d / Distance(target, current))], the difference
    vector being allocated on the way.  For [Vector2] and [Vector3], when
    [current] and [target] hold the same fields: the distance is 0; a
    positive [d] gives the ratio [Infinity] and the reference [target] is
    returned; [d] equal to 0 gives the ratio NaN, the interpolation routine
    runs with [t] NaN and its result has no NaN field: each field equals
    that of [current], provided [current] holds no NaN. *)
Theorem MoveTowards_cases :
  (forall (current target : Vector2.t) (d : number),
      Vector2.MoveTowards current target d
      = Vector2.Lerp current target (d / Vector2.Distance target current))
  /\ (forall (h : Vector2Obj.heap) (current target : Obj.ref) (d : number)
             (vc vt : Vector2.t),
      h !! current = Some vc -> h !! target = Some vt ->
      Vector2Obj.MoveTowards current target d h
      = Vector2Obj.Lerp current target (d / Vector2.Distance vt vc)
          (h ++ [Vector2.Subtract vt (Vec vc)]))
  /\ (forall (current target : Vector3.t) (d : number),
      Vector3.MoveTowards current target d
      = Vector3.Lerp current target (d / Vector3.Distance target current))
  /\ (forall (h : Vector3Obj.heap) (current target : Obj.ref) (d : number)
             (vc vt : Vector3.t),
      h !! current = Some vc -> h !! target = Some vt ->
      Vector3Obj.MoveTowards current target d h
      = Vector3Obj.Lerp current target (d / Vector3.Distance vt vc)
          (h ++ [Vector3.Subtract vt (Vec vc)]))
  /\ (forall (current target : Vector4.t) (d : number),
      Vector4.MoveTowards current target d
      = Vector4.Lerp current target (d / Vector4.Distance target current))
  /\ (forall (h : Vector4Obj.heap) (current target : Obj.ref) (d : number)
             (vc vt : Vector4.t),
      h !! current = Some vc -> h !! target = Some vt ->
      Vector4Obj.MoveTowards current target d h
      = Vector4Obj.Lerp current target (d / Vector4.Distance vt vc)
          (h ++ [Vector4.Subtract vt (Vec vc)]))
  /\ (forall v : Vector2.t, Vector2.Distance v v = n0)
  /\ (forall (h : Vector2Obj.heap) (current target : Obj.ref) (d : number)
             (v : Vector2.t),
      h !! current = Some v -> h !! target = Some v -> (d >? n0) = true ->
      Vector2Obj.MoveTowards current target d h = Some (target, h ++ [Vector2.zero]))
  /\ (forall (v : Vector2.t) (s : bool),
      Vector2.MoveTowards v v (S754_zero s) = Vector2.DoLerp v v NaN
      /\ Vector2.NaN_free (Vector2.MoveTowards v v (S754_zero s))
      /\ (Vector2.NaN_free v ->
          (Vector2.x (Vector2.MoveTowards v v (S754_zero s)) == Vector2.x v) = true
          /\ (Vector2.y (Vector2.MoveTowards v v (S754_zero s)) == Vector2.y v) = true))
  /\ (forall v : Vector3.t, Vector3.Distance v v = n0)
  /\ (forall (h : Vector3Obj.heap) (current target : Obj.ref) (d : number)
             (v : Vector3.t),
      h !! current = Some v -> h !! target = Some v -> (d >? n0) = true ->
      Vector3Obj.MoveTowards current target d h = Some (target, h ++ [Vector3.zero]))
  /\ (forall (v : Vector3.t) (s : bool),
      Vector3.MoveTowards v v (S754_zero s) = Vector3.DoLerp v v NaN
      /\ Vector3.NaN_free (Vector3.MoveTowards v v (S754_zero s))
      /\ (Vector3.NaN_free v ->
          (Vector3.x (Vector3.MoveTowards v v (S754_zero s)) == Vector3.x v) = true
          /\ (Vector3.y (Vector3.MoveTowards v v (S754_zero s)) == Vector3.y v) = true
          /\ (Vector3.z (Vector3.MoveTowards v v (S754_zero s)) == Vector3.z v) = true)).
Proof.
  repeat apply conj.
  - reflexivity.
  - intros h c t d vc vt Hc Ht.
    apply (MoveTowards_spec _ _ _ _ h c t d vc vt Hc Ht).
  - reflexivity.
  - intros h c t d vc vt Hc Ht.
    apply (MoveTowards_spec _ _ _ _ h c t d vc vt Hc Ht).
  - reflexivity.
  - intros h c t d vc vt Hc Ht.
    apply (MoveTowards_spec _ _ _ _ h c t d vc vt Hc Ht).
  - apply Vector2_Distance_self.
  - intros h c t d v Hc Ht Hd.
    unfold Vector2Obj.MoveTowards.
    rewrite (MoveTowards_spec _ _ _ _ h c t d v v Hc Ht).
    rewrite Vector2_Subtract_self.
    change (Vector2.magnitude Vector2.zero) with n0.
    rewrite (positive_div_n0 d Hd). reflexivity.
  - intros v s. unfold Vector2.MoveTowards. rewrite Vector2_Distance_self.
    change (S754_zero s / n0) with NaN.
    change (Vector2.Lerp v v NaN) with (Vector2.DoLerp v v NaN).
    split; [reflexivity |].
    split; [apply Vector2_constructor_NaN_free |].
    intros H. change (Vector2.DoLerp v v NaN) with
      (Vector2.mk (lerp_field n0 (Vector2.x v) (Vector2.x v) NaN) (lerp_field n0 (Vector2.y v) (Vector2.y v) NaN)).
    cbn [Vector2.x Vector2.y].
    rewrite !lerp_field_NaN.
    red in H. decompose [and] H. repeat split; now apply init_add_n0.
  - apply Vector3_Distance_self.
  - intros h c t d v Hc Ht Hd.
    unfold Vector3Obj.MoveTowards.
    rewrite (MoveTowards_spec _ _ _ _ h c t d v v Hc Ht).
    rewrite Vector3_Subtract_self.
    change (Vector3.magnitude Vector3.zero) with n0.
    rewrite (positive_div_n0 d Hd). reflexivity.
  - intros v s. unfold Vector3.MoveTowards. rewrite Vector3_Distance_self.
    change (S754_zero s / n0) with NaN.
    change (Vector3.Lerp v v NaN) with (Vector3.DoLerp v v NaN).
    split; [reflexivity |].
    split; [apply Vector3_constructor_NaN_free |].
    intros H. change (Vector3.DoLerp v v NaN) with
      (Vector3.mk (lerp_field n0 (Vector3.x v) (Vector3.x v) NaN) (lerp_field n0 (Vector3.y v) (Vector3.y v) NaN) (lerp_field n0 (Vector3.z v) (Vector3.z v) NaN)).
    cbn [Vector3.x Vector3.y Vector3.z].
    rewrite !lerp_field_NaN.
    red in H. decompose [and] H. repeat split; now apply init_add_n0.
Qed.

(** From (1, 1) at reference 0 towards an equal vector at reference 1 by
    the distance 1: reference 1 is returned. *)
Lemma MoveTowards_cases_witness :
  (n1 >? n0) = true
  /\ Vector2Obj.MoveTowards 0%nat 1%nat n1 [Vector2.one; Vector2.one]
     = Some (1%nat, [Vector2.one; Vector2.one; Vector2.zero]).
Proof.
  split; [reflexivity |].
  exact (proj1 (proj2 (proj2 (proj2 (proj2 (proj2 (proj2 (proj2
           MoveTowards_cases)))))))
           [Vector2.one; Vector2.one] 0%nat 1%nat n1 Vector2.one
           eq_refl eq_refl eq_refl).
Defined.

(** *** [normalized] *)

Lemma zero_not_gt (a b : number) : is_zero a = true -> (a >? n0) = false.
Proof. destruct a; try discriminate. reflexivity. Qed.


(** A [Vector4] whose [w] is 0, as [v.Subtract(v)] leaves it, is not
    normalized to unit length: (1, 0, 0, 0) gives (1, 0, 0, 1). *)
Lemma Vector4_normalized_w_zero :
  Vector4.normalized (Vector4.mk n1 n0 n0 n0) = Vector4.mk n1 n0 n0 n1.
Proof. reflexivity. Qed.



(** The scenario of the specification: the magnitude of (3, 4, 0) is 5 and
    that of its [normalized] is 1. *)
Lemma normalized_3_4_0 :
  Vector3.magnitude v_3_4_0 = n5
  /\ Vector3.magnitude (Vector3.normalized v_3_4_0) = n1.
Proof. split; reflexivity. Qed.

(** *** [ClampMagnitude] *)

(** The constructor stores a number that is not NaN as a number equal to
    it ([-0] becomes [+0]) when the initialiser is 0. *)
Lemma init_eqb (a : number) :
  isNaN a = false -> (init n0 (Some a) == a) = true.
Proof.
  intros Ha. destruct a as [s|s| |s m e]; try discriminate.
  - now destruct s.
  - apply (eqb_refl (S754_infinity s)); reflexivity.
  - apply (eqb_refl (S754_finite s m e)); reflexivity.
Qed.

(** A negative bound over a magnitude: the ratio has its sign bit set,
    unless it is [-Infinity / Infinity], which is NaN. *)
Lemma negative_ratio (m mag : number) :
  (m <? n0) = true -> has_sign false mag ->
  has_sign true (m / mag) \/ (m = - Infinity /\ mag = Infinity).
Proof.
  intros Hm Hs.
  destruct (div_has_sign true false m mag (negative_has_sign m Hm) Hs)
    as [H | [[Hz _] | (s & s' & -> & ->)]].
  - now left.
  - destruct m; discriminate.
  - right. simpl in Hs. subst s'.
    destruct s; [split; reflexivity | discriminate].
Qed.

Lemma has_sign_self (a : number) : isNaN a = false -> has_sign (sign_set a) a.
Proof. destruct a; simpl; congruence. Qed.

(** Multiplying by such a ratio flips the sign bit. *)
Lemma negative_ratio_flips (m mag a : number) :
  (m <? n0) = true -> has_sign false mag ->
  isNaN (a * (m / mag)) = false ->
  has_sign (negb (sign_set a)) (a * (m / mag)).
Proof.
  intros Hm Hs Hp.
  destruct (mul_not_NaN _ _ Hp) as [Ha Hr].
  rewrite <- xorb_true_r.
  apply mul_has_sign; auto using has_sign_self.
  destruct (negative_ratio m mag Hm Hs) as [H | [-> ->]]; [exact H | discriminate].
Qed.

(** A number above another is not NaN. *)
Lemma gt_not_NaN (a b : number) : (a >? b) = true -> isNaN a = false.
Proof. destruct a, b; simpl; try reflexivity; discriminate. Qed.

(** A bound whose sign bit is clear, below the magnitude: the ratio is a
    number whose sign bit is clear. *)
Lemma nonnegative_ratio (m mag : number) :
  has_sign false m -> has_sign false mag -> (mag >? m) = true ->
  has_sign false (m / mag).
Proof.
  intros Hm Hs Hgt.
  destruct (div_has_sign false false m mag Hm Hs)
    as [H | [[Hz1 Hz2] | (s & s' & -> & ->)]].
  - exact H.
  - destruct m, mag; discriminate.
  - simpl in Hm, Hs. subst. discriminate.
Qed.

(** Multiplying by such a ratio keeps the sign bit. *)
Lemma nonnegative_ratio_keeps (m mag a : number) :
  has_sign false m -> has_sign false mag -> (mag >? m) = true ->
  isNaN (a * (m / mag)) = false ->
  has_sign (sign_set a) (a * (m / mag)).
Proof.
  intros Hm Hs Hgt Hp.
  destruct (mul_not_NaN _ _ Hp) as [Ha Hr].
  rewrite <- (xorb_false_r (sign_set a)).
  apply mul_has_sign; auto using has_sign_self, nonnegative_ratio.
Qed.




(** *** NaN and the constructor *)

(** C9, counterexample.  [Lerp] with [t < 0] returns its argument [a] as it
    is: after [a = Vector2.zero; a.Divide(0)] both fields of [a] are NaN,
    and [Vector2.Lerp(a, a, -1)] is that object. *)
Lemma Lerp_returns_NaN_argument :
  Obj.bind Vector2Obj.zero (fun a =>
    Obj.bind (Vector2Obj.Divide_method a (Num n0)) (fun _ =>
      Obj.bind (Vector2Obj.Lerp a a (- n1)) (fun r =>
        Obj.bind (Obj.load r) (fun v => Obj.ret (a, r, v))))) []
  = Some ((0%nat, 0%nat, Vector2.mk NaN NaN), [Vector2.mk NaN NaN])
  /\ Vector2.Lerp (Vector2.mk NaN NaN) Vector2.zero (- n1) = Vector2.mk NaN NaN
  /\ ~ Vector2.NaN_free (Vector2.Lerp (Vector2.mk NaN NaN) Vector2.zero (- n1)).
Proof.
  repeat split. intros [H _]. discriminate H.
Qed.

(** C9, amended.  For each class, every vector that a static function
    builds through the constructor is free of NaN, whatever the fields of
    the arguments: [Add], [Subtract], [Multiply], [Divide] (scalar and
    vector operand), [LerpUnclamped], [Lerp] when [t] is neither below 0
    nor above 1, [Max], [Min], [Cross], [ClampMagnitude] and [normalized];
    a NaN value is replaced by the initialiser, 0 or, for [w], 1.  The
    instance methods assign the fields directly and do store NaN. *)
Theorem constructor_built_results_NaN_free :
  (forall (a : Vector2.t) (b : operand Vector2.t),
      Vector2.NaN_free (Vector2.Add a b)
      /\ Vector2.NaN_free (Vector2.Subtract a b)
      /\ Vector2.NaN_free (Vector2.Multiply a b)
      /\ Vector2.NaN_free (Vector2.Divide a b))
  /\ (forall (a b : Vector2.t) (t : number),
      Vector2.NaN_free (Vector2.LerpUnclamped a b t)
      /\ ((t <? n0) = false -> (t >? n1) = false ->
          Vector2.NaN_free (Vector2.Lerp a b t)))
  /\ (forall a b : Vector2.t,
      Vector2.NaN_free (Vector2.Max a b)
      /\ Vector2.NaN_free (Vector2.Min a b)
      /\ Vector2.NaN_free (Vector2.Cross a b))
  /\ (forall (v : Vector2.t) (m : number),
      Vector2.NaN_free (Vector2.ClampMagnitude v m)
      /\ Vector2.NaN_free (Vector2.normalized v))
  /\ (forall (a : Vector3.t) (b : operand Vector3.t),
      Vector3.NaN_free (Vector3.Add a b)
      /\ Vector3.NaN_free (Vector3.Subtract a b)
      /\ Vector3.NaN_free (Vector3.Multiply a b)
      /\ Vector3.NaN_free (Vector3.Divide a b))
  /\ (forall (a b : Vector3.t) (t : number),
      Vector3.NaN_free (Vector3.LerpUnclamped a b t)
      /\ ((t <? n0) = false -> (t >? n1) = false ->
          Vector3.NaN_free (Vector3.Lerp a b t)))
  /\ (forall a b : Vector3.t,
      Vector3.NaN_free (Vector3.Max a b)
      /\ Vector3.NaN_free (Vector3.Min a b)
      /\ Vector3.NaN_free (Vector3.Cross a b))
  /\ (forall (v : Vector3.t) (m : number),
      Vector3.NaN_free (Vector3.ClampMagnitude v m)
      /\ Vector3.NaN_free (Vector3.normalized v))
  /\ (forall (a : Vector4.t) (b : operand Vector4.t),
      Vector4.NaN_free (Vector4.Add a b)
      /\ Vector4.NaN_free (Vector4.Subtract a b)
      /\ Vector4.NaN_free (Vector4.Multiply a b)
      /\ Vector4.NaN_free (Vector4.Divide a b))
  /\ (forall (a b : Vector4.t) (t : number),
      Vector4.NaN_free (Vector4.LerpUnclamped a b t)
      /\ ((t <? n0) = false -> (t >? n1) = false ->
          Vector4.NaN_free (Vector4.Lerp a b t)))
  /\ (forall a b : Vector4.t,
      Vector4.NaN_free (Vector4.Max a b)
      /\ Vector4.NaN_free (Vector4.Min a b))
  /\ (forall (v : Vector4.t) (m : number),
      Vector4.NaN_free (Vector4.ClampMagnitude v m)
      /\ Vector4.NaN_free (Vector4.normalized v))
  /\ Vector2.Divide Vector2.zero (Num n0) = Vector2.mk n0 n0
  /\ Vector4.w (Vector4.Multiply Vector4.one (Num NaN)) = n1
  /\ (Vector2.Method.Divide Vector2.zero (Num n0) = Vector2.mk NaN NaN
      /\ Vector2Obj.Divide_method 0%nat (Num n0) [Vector2.zero]
         = Some (tt, [Vector2.mk NaN NaN]))
  /\ (Vector3.Method.Divide Vector3.zero (Num n0) = Vector3.mk NaN NaN NaN
      /\ Vector3Obj.Divide_method 0%nat (Num n0) [Vector3.zero]
         = Some (tt, [Vector3.mk NaN NaN NaN]))
  /\ (Vector4.Method.Multiply Vector4.one (Num NaN) = Vector4.mk NaN NaN NaN NaN
      /\ Vector4Obj.Multiply_method 0%nat (Num NaN) [Vector4.one]
         = Some (tt, [Vector4.mk NaN NaN NaN NaN])).
Proof.
  repeat apply conj; try reflexivity.
  - intros a b. repeat apply conj; destruct b; apply Vector2_constructor_NaN_free.
  - intros a b t. split; [apply Vector2_constructor_NaN_free |].
    intros H0 H1. unfold Vector2.Lerp. rewrite H0, H1.
    apply Vector2_constructor_NaN_free.
  - intros a b. refine (conj _ (conj _ _)).
    + apply Vector2_constructor_NaN_free.
    + apply Vector2_constructor_NaN_free.
    + apply Vector2_constructor_NaN_free.
  - intros v m. split; [apply Vector2_constructor_NaN_free |].
    unfold Vector2.normalized. cbv zeta.
    destruct (Vector2.magnitude v >? n0); apply Vector2_constructor_NaN_free.
  - intros a b. repeat apply conj; destruct b; apply Vector3_constructor_NaN_free.
  - intros a b t. split; [apply Vector3_constructor_NaN_free |].
    intros H0 H1. unfold Vector3.Lerp. rewrite H0, H1.
    apply Vector3_constructor_NaN_free.
  - intros a b. refine (conj _ (conj _ _)).
    + apply Vector3_constructor_NaN_free.
    + apply Vector3_constructor_NaN_free.
    + apply Vector3_constructor_NaN_free.
  - intros v m. split; [apply Vector3_constructor_NaN_free |].
    unfold Vector3.normalized. cbv zeta.
    destruct (Vector3.magnitude v >? n0); apply Vector3_constructor_NaN_free.
  - intros a b. repeat apply conj; destruct b; apply Vector4_constructor_NaN_free.
  - intros a b t. split; [apply Vector4_constructor_NaN_free |].
    intros H0 H1. unfold Vector4.Lerp. rewrite H0, H1.
    apply Vector4_constructor_NaN_free.
  - intros a b. refine (conj _ _).
    + apply Vector4_constructor_NaN_free.
    + apply Vector4_constructor_NaN_free.
  - intros v m. split; [apply Vector4_constructor_NaN_free |].
    unfold Vector4.normalized. cbv zeta.
    destruct (Vector4.magnitude v >? n0); apply Vector4_constructor_NaN_free.
Qed.

(** [Lerp] halfway between (1, 1) and (0, 0). *)
Lemma constructor_built_results_NaN_free_witness :
  (half <? n0) = false /\ (half >? n1) = false
  /\ Vector2.NaN_free (Vector2.Lerp Vector2.one Vector2.zero half).
Proof.
  split; [reflexivity | split; [reflexivity |]].
  exact (proj2 (proj1 (proj2 constructor_built_results_NaN_free)
                  Vector2.one Vector2.zero half) eq_refl eq_refl).
Defined.

(** *** The initialiser 1 of [Vector4.w]

    The same mechanism that makes [Vector4.zero.w] equal to 1 acts on every
    [Vector4] built by a static function: a [w] argument that is 0 (or NaN)
    is dropped and [w] is 1. *)

Lemma Vector4_Subtract_self (v : Vector4.t) :
  Vector4.Subtract v (Vec v) = Vector4.zero.
Proof.
  unfold Vector4.Subtract, Vector4.new, Vector4.constructor. simpl.
  now rewrite !sub_self.
Qed.

(** The distance from a [Vector4] to itself is 1. *)
Lemma Vector4_Distance_self (v : Vector4.t) : Vector4.Distance v v = n1.
Proof. unfold Vector4.Distance. now rewrite Vector4_Subtract_self. Qed.

(** [Vector4.Lerp(one, one, 0)] is (1, 1, 1, 2). *)
Lemma Vector4_Lerp_at_zero :
  Vector4.Lerp Vector4.one Vector4.one n0 = Vector4.mk n1 n1 n1 n2.
Proof. reflexivity. Qed.

(** *** Scenarios *)

(** The numbers of the examples are doubles. *)
Lemma example_numbers_valid :
  valid n1 = true /\ valid n2 = true /\ valid n3 = true /\ valid n4 = true
  /\ valid n5 = true /\ valid half = true /\ valid two_54 = true
  /\ valid two_600 = true.
Proof. repeat split. Qed.

Lemma Cross_right_up : Vector3.Cross Vector3.right Vector3.up = Vector3.forward.
Proof. reflexivity. Qed.

Lemma Dot_right_up : Vector2.Dot Vector2.right Vector2.up = n0.
Proof. reflexivity. Qed.

(** [new Vector4()] has [w = 1]. *)
Lemma Vector4_default_w : Vector4.w (Vector4.constructor None None None None) = n1.
Proof. reflexivity. Qed.

(** [let v = new Vector2(1, 1); v.Add(new Vector2(2, 3))]: [v] itself
    becomes (3, 4), whereas the static [Add] leaves it and allocates. *)
Lemma Add_method_in_place :
  Vector2Obj.Add_method 0%nat (Vec 1%nat) [Vector2.one; Vector2.new n2 n3]
  = Some (tt, [Vector2.new n3 n4; Vector2.new n2 n3])
  /\ Vector2Obj.Add 0%nat (Vec 1%nat) [Vector2.one; Vector2.new n2 n3]
     = Some (2%nat, [Vector2.one; Vector2.new n2 n3; Vector2.new n3 n4]).
Proof. split; reflexivity. Qed.

End VectorFacts.


(** * Further properties *)

(** ** More on numbers *)

Section MoreNumberFacts.

Local Open Scope num_scope.

Lemma add_comm (a b : number) : a + b = b + a.
Proof.
  destruct a as [sa|sa| |sa ma ea], b as [sb|sb| |sb mb eb];
    try reflexivity; try (destruct sa, sb; reflexivity).
  unfold add, SFadd. now rewrite Z.min_comm, Z.add_comm.
Qed.

Lemma sub_n0_r (a : number) : a - n0 = a.
Proof. destruct a as [[]|s| |s m e]; reflexivity. Qed.

(** A number that is neither NaN nor infinite, less itself, is [+0]. *)
Lemma sub_self_finite (a : number) :
  isNaN a = false -> is_infinite a = false -> a - a = n0.
Proof.
  destruct a as [[]|s| |s m e]; try discriminate; intros _ _; try reflexivity.
  unfold sub, SFsub. now rewrite Z.sub_diag.
Qed.

Lemma SFcompare_None (a b : number) :
  isNaN a = false -> isNaN b = false -> SFcompare a b <> None.
Proof. destruct a, b; simpl; congruence. Qed.

(** The order is total on numbers. *)
Lemma le_total (a b : number) :
  isNaN a = false -> isNaN b = false ->
  (a <=? b) = false -> (b <=? a) = true.
Proof.
  intros Ha Hb. unfold le, SFleb. rewrite (SFcompare_swap a b).
  pose proof (SFcompare_None a b Ha Hb) as H.
  destruct (SFcompare a b) as [[]|]; simpl; congruence.
Qed.

Lemma le_refl (a : number) : isNaN a = false -> (a <=? a) = true.
Proof.
  intros Ha. pose proof (eqb_refl a Ha) as H.
  unfold eqb, SFeqb in H. unfold le, SFleb.
  destruct (SFcompare a a) as [[]|]; congruence.
Qed.

(** Numbers that compare equal are the same number, or two zeros. *)
Lemma le_antisym (a b : number) :
  (a <=? b) = true -> (b <=? a) = true ->
  a = b \/ (is_zero a = true /\ is_zero b = true).
Proof.
  unfold le, SFleb. rewrite (SFcompare_swap a b).
  destruct (SFcompare a b) as [[]|] eqn:E; simpl; try discriminate; intros _ _.
  destruct a as [sa|sa| |sa ma ea], b as [sb|sb| |sb mb eb]; simpl in E;
    try discriminate; auto;
    try (destruct sa, sb; try discriminate; auto; fail);
    try (destruct sa; discriminate); try (destruct sb; discriminate).
  left.
  destruct sa, sb; try discriminate;
    destruct (ea ?= eb)%Z eqn:Ee; try discriminate;
    apply Z.compare_eq in Ee; subst eb;
    destruct (Pos.compare_cont Eq ma mb) eqn:Em; try discriminate;
    apply Pos.compare_eq in Em; now subst mb.
Qed.

(** Storing a number through the constructor does not change how it
    compares. *)
Lemma SFcompare_init_l (v w : number) :
  isNaN v = false -> SFcompare (init n0 (Some v)) w = SFcompare v w.
Proof. destruct v as [s|s| |s m e]; try discriminate; intros _; reflexivity. Qed.

Lemma SFcompare_init_r (v w : number) :
  isNaN v = false -> SFcompare w (init n0 (Some v)) = SFcompare w v.
Proof.
  destruct v as [s|s| |s m e]; try discriminate; intros _; try reflexivity;
    destruct w; reflexivity.
Qed.

Lemma le_init_r (v w : number) :
  isNaN v = false -> (w <=? init n0 (Some v)) = (w <=? v).
Proof. intros Hv. unfold le, SFleb. now rewrite SFcompare_init_r. Qed.

Lemma le_init_l (v w : number) :
  isNaN v = false -> (init n0 (Some v) <=? w) = (v <=? w).
Proof. intros Hv. unfold le, SFleb. now rewrite SFcompare_init_l. Qed.

Lemma init_congr (d a b : number) :
  a = b \/ (is_zero a = true /\ is_zero b = true) ->
  init d (Some a) = init d (Some b).
Proof.
  intros [-> | [Ha Hb]]; [reflexivity |].
  destruct a, b; try discriminate; reflexivity.
Qed.

Lemma init_effective (d a : number) : init d (Some a) = init d (effective a).
Proof. unfold effective. simpl. now destruct (truthy a) eqn:E; simpl; rewrite ?E. Qed.

Lemma max_field_comm (d a b : number) :
  isNaN a = false -> isNaN b = false ->
  init d (Some (if a >=? b then a else b))
  = init d (Some (if b >=? a then b else a)).
Proof.
  intros Ha Hb. unfold ge.
  destruct (SFleb b a) eqn:E1, (SFleb a b) eqn:E2; try reflexivity.
  - apply init_congr.
    destruct (le_antisym a b E2 E1) as [H | [H1 H2]]; auto.
  - pose proof (le_total b a Hb Ha E1) as H. unfold le in H. congruence.
Qed.

Lemma min_field_comm (d a b : number) :
  isNaN a = false -> isNaN b = false ->
  init d (Some (if a <=? b then a else b))
  = init d (Some (if b <=? a then b else a)).
Proof.
  intros Ha Hb.
  destruct (a <=? b) eqn:E1, (b <=? a) eqn:E2; try reflexivity.
  - apply init_congr. apply (le_antisym a b E1 E2).
  - now rewrite (le_total a b Ha Hb E1) in E2.
Qed.

Lemma max_field_upper (a b : number) :
  isNaN a = false -> isNaN b = false ->
  (a <=? init n0 (Some (if a >=? b then a else b))) = true
  /\ (b <=? init n0 (Some (if a >=? b then a else b))) = true.
Proof.
  intros Ha Hb. destruct (a >=? b) eqn:E; rewrite !le_init_r by assumption.
  - split; [apply (le_refl a Ha) | exact E].
  - split; [apply (le_total b a Hb Ha E) | apply (le_refl b Hb)].
Qed.

Lemma min_field_lower (a b : number) :
  isNaN a = false -> isNaN b = false ->
  (init n0 (Some (if a <=? b then a else b)) <=? a) = true
  /\ (init n0 (Some (if a <=? b then a else b)) <=? b) = true.
Proof.
  intros Ha Hb. destruct (a <=? b) eqn:E; rewrite !le_init_l by assumption.
  - split; [apply (le_refl a Ha) | exact E].
  - split; [apply (le_total a b Ha Hb E) | apply (le_refl b Hb)].
Qed.

(** *** Infinity *)

Lemma add_infinity_r (a b : number) :
  has_sign false a -> b = Infinity -> a + b = Infinity.
Proof.
  intros Ha ->. destruct a as [s|s| |s m e]; simpl in Ha; try tauto;
    subst s; reflexivity.
Qed.

Lemma add_infinity_l (a b : number) :
  has_sign false b -> a = Infinity -> a + b = Infinity.
Proof. intros Hb ->. rewrite add_comm. now apply add_infinity_r. Qed.

Lemma mul_self_infinite (a : number) : is_infinite a = true -> a * a = Infinity.
Proof. destruct a as [s|s| |s m e]; try discriminate. now destruct s. Qed.

Lemma div_infinity_falsy (a : number) : truthy (a / Infinity) = false.
Proof. destruct a; reflexivity. Qed.

Lemma init_div_infinity (d a : number) : init d (Some (a / Infinity)) = d.
Proof. simpl. now rewrite div_infinity_falsy. Qed.

Lemma gt_infinity (a : number) : (a >? Infinity) = false.
Proof. destruct a as [s|[]| |s m e]; try reflexivity; now destruct s. Qed.

Lemma isNaN_true (a : number) : isNaN a = true -> a = NaN.
Proof. destruct a; try discriminate; reflexivity. Qed.

Lemma lerp_field_at_zero (d a b : number) (s : bool) :
  lerp_field d a b (S754_zero s) = init d (Some (a + d)).
Proof. unfold lerp_field. simpl. now rewrite mul_zero_r. Qed.

Lemma init_mul_zero (d a : number) (s : bool) :
  init d (Some (a * S754_zero s)) = d.
Proof. simpl. now rewrite mul_zero_r. Qed.

Lemma init_sub_self (d a : number) : init d (Some (a - a)) = d.
Proof. simpl. now rewrite sub_self. Qed.

End MoreNumberFacts.

(** ** More on the three classes *)

Section MoreVectorFacts.

Local Open Scope num_scope.

(** *** [Dot], [Add] and [Multiply] commute *)

(** [Dot(a, b)] and [Dot(b, a)] are the same number, for each class and
    for all field values. *)
Theorem Dot_commutative :
  (forall a b : Vector2.t, Vector2.Dot a b = Vector2.Dot b a)
  /\ (forall a b : Vector3.t, Vector3.Dot a b = Vector3.Dot b a)
  /\ (forall a b : Vector4.t, Vector4.Dot a b = Vector4.Dot b a).
Proof.
  repeat split; intros a b.
  - unfold Vector2.Dot.
    now rewrite (mul_comm (Vector2.x a) (Vector2.x b)), (mul_comm (Vector2.y a) (Vector2.y b)).
  - unfold Vector3.Dot.
    now rewrite (mul_comm (Vector3.x a) (Vector3.x b)), (mul_comm (Vector3.y a) (Vector3.y b)), (mul_comm (Vector3.z a) (Vector3.z b)).
  - unfold Vector4.Dot.
    now rewrite (mul_comm (Vector4.x a) (Vector4.x b)), (mul_comm (Vector4.y a) (Vector4.y b)), (mul_comm (Vector4.z a) (Vector4.z b)), (mul_comm (Vector4.w a) (Vector4.w b)).
Qed.

(** The static [Add] and [Multiply] of two vectors do not depend on the
    order of the arguments, for each class and for all field values. *)
Theorem Add_Multiply_commutative :
  (forall a b : Vector2.t,
      Vector2.Add a (Vec b) = Vector2.Add b (Vec a)
      /\ Vector2.Multiply a (Vec b) = Vector2.Multiply b (Vec a))
  /\ (forall a b : Vector3.t,
      Vector3.Add a (Vec b) = Vector3.Add b (Vec a)
      /\ Vector3.Multiply a (Vec b) = Vector3.Multiply b (Vec a))
  /\ (forall a b : Vector4.t,
      Vector4.Add a (Vec b) = Vector4.Add b (Vec a)
      /\ Vector4.Multiply a (Vec b) = Vector4.Multiply b (Vec a)).
Proof.
  repeat apply conj; intros a b; split.
  - unfold Vector2.Add.
    now rewrite (add_comm (Vector2.x a) (Vector2.x b)), (add_comm (Vector2.y a) (Vector2.y b)).
  - unfold Vector2.Multiply.
    now rewrite (mul_comm (Vector2.x a) (Vector2.x b)), (mul_comm (Vector2.y a) (Vector2.y b)).
  - unfold Vector3.Add.
    now rewrite (add_comm (Vector3.x a) (Vector3.x b)), (add_comm (Vector3.y a) (Vector3.y b)), (add_comm (Vector3.z a) (Vector3.z b)).
  - unfold Vector3.Multiply.
    now rewrite (mul_comm (Vector3.x a) (Vector3.x b)), (mul_comm (Vector3.y a) (Vector3.y b)), (mul_comm (Vector3.z a) (Vector3.z b)).
  - unfold Vector4.Add.
    now rewrite (add_comm (Vector4.x a) (Vector4.x b)), (add_comm (Vector4.y a) (Vector4.y b)), (add_comm (Vector4.z a) (Vector4.z b)), (add_comm (Vector4.w a) (Vector4.w b)).
  - unfold Vector4.Multiply.
    now rewrite (mul_comm (Vector4.x a) (Vector4.x b)), (mul_comm (Vector4.y a) (Vector4.y b)), (mul_comm (Vector4.z a) (Vector4.z b)), (mul_comm (Vector4.w a) (Vector4.w b)).
Qed.

(** *** Results that are the [zero] accessor *)

(** [Multiply(a, 0)] is the value of the class's [zero] accessor for every
    [a], fields that are infinite or NaN included (their product with 0 is
    NaN, which the constructor drops); for [Vector4] that value has
    [w = 1]. *)
Theorem Multiply_by_zero :
  (forall (a : Vector2.t) (s : bool),
      Vector2.Multiply a (Num (S754_zero s)) = Vector2.zero)
  /\ (forall (a : Vector3.t) (s : bool),
      Vector3.Multiply a (Num (S754_zero s)) = Vector3.zero)
  /\ (forall (a : Vector4.t) (s : bool),
      Vector4.Multiply a (Num (S754_zero s)) = Vector4.zero).
Proof.
  repeat split; intros a s.
  - unfold Vector2.Multiply, Vector2.new, Vector2.constructor.
    now rewrite !init_mul_zero.
  - unfold Vector3.Multiply, Vector3.new, Vector3.constructor.
    now rewrite !init_mul_zero.
  - unfold Vector4.Multiply, Vector4.new, Vector4.constructor.
    now rewrite !init_mul_zero.
Qed.

(** [Subtract(v, v)] is the value of the class's [zero] accessor for every
    [v]; hence the distance from a [Vector4] to itself is 1. *)
Theorem Subtract_self_is_zero :
  (forall v : Vector2.t, Vector2.Subtract v (Vec v) = Vector2.zero)
  /\ (forall v : Vector3.t, Vector3.Subtract v (Vec v) = Vector3.zero)
  /\ (forall v : Vector4.t, Vector4.Subtract v (Vec v) = Vector4.zero)
  /\ (forall v : Vector4.t, Vector4.Distance v v = n1).
Proof.
  repeat split; intros v.
  - unfold Vector2.Subtract, Vector2.new, Vector2.constructor.
    now rewrite !init_sub_self.
  - unfold Vector3.Subtract, Vector3.new, Vector3.constructor.
    now rewrite !init_sub_self.
  - unfold Vector4.Subtract, Vector4.new, Vector4.constructor.
    now rewrite !init_sub_self.
  - unfold Vector4.Distance, Vector4.Subtract, Vector4.new, Vector4.constructor.
    now rewrite !init_sub_self.
Qed.

(** [Cross(a, a)] is the zero vector for every [a], in [Vector3] and in
    [Vector2]. *)
Theorem Cross_self_is_zero :
  (forall a : Vector3.t, Vector3.Cross a a = Vector3.zero)
  /\ (forall a : Vector2.t, Vector2.Cross a a = Vector2.zero).
Proof.
  split; intros a.
  - unfold Vector3.Cross, Vector3.new, Vector3.constructor.
    rewrite (mul_comm (Vector3.z a) (Vector3.y a)),
      (mul_comm (Vector3.x a) (Vector3.z a)),
      (mul_comm (Vector3.y a) (Vector3.x a)).
    now rewrite !init_sub_self.
  - unfold Vector2.Cross, Vector2.constructor.
    now rewrite init_sub_self.
Qed.

(** *** [magnitude] and [Distance] *)

(** The magnitude is NaN exactly when a field is NaN; otherwise its sign
    bit is clear. *)
Theorem magnitude_NaN_iff :
  (forall v : Vector2.t,
      (isNaN (Vector2.magnitude v) = false <-> Vector2.NaN_free v)
      /\ (Vector2.NaN_free v -> has_sign false (Vector2.magnitude v)))
  /\ (forall v : Vector3.t,
      (isNaN (Vector3.magnitude v) = false <-> Vector3.NaN_free v)
      /\ (Vector3.NaN_free v -> has_sign false (Vector3.magnitude v)))
  /\ (forall v : Vector4.t,
      (isNaN (Vector4.magnitude v) = false <-> Vector4.NaN_free v)
      /\ (Vector4.NaN_free v -> has_sign false (Vector4.magnitude v))).
Proof.
  repeat apply conj; intros v.
  - split; [split |]; [apply Vector2_magnitude_not_NaN | | apply Vector2_magnitude_has_sign].
    intros H. apply Vector2_magnitude_has_sign in H.
    destruct (Vector2.magnitude v); simpl in H; tauto.
  - split; [split |]; [apply Vector3_magnitude_not_NaN | | apply Vector3_magnitude_has_sign].
    intros H. apply Vector3_magnitude_has_sign in H.
    destruct (Vector3.magnitude v); simpl in H; tauto.
  - split; [split |]; [apply Vector4_magnitude_not_NaN | | apply Vector4_magnitude_has_sign].
    intros H. apply Vector4_magnitude_has_sign in H.
    destruct (Vector4.magnitude v); simpl in H; tauto.
Qed.

Lemma magnitude_NaN_iff_witness :
  Vector3.NaN_free v_3_4_0 /\ isNaN (Vector3.magnitude v_3_4_0) = false.
Proof.
  split; [repeat split |].
  exact (proj2 (proj1 (proj1 (proj2 magnitude_NaN_iff) v_3_4_0))
           (conj eq_refl (conj eq_refl eq_refl))).
Defined.

(** [Distance] never returns NaN nor a number with the sign bit set,
    whatever the fields of its arguments: the difference vector is built by
    the constructor, which stores no NaN. *)
Theorem Distance_is_a_number :
  (forall a b : Vector2.t, has_sign false (Vector2.Distance a b))
  /\ (forall a b : Vector3.t, has_sign false (Vector3.Distance a b))
  /\ (forall a b : Vector4.t, has_sign false (Vector4.Distance a b)).
Proof.
  repeat split; intros a b.
  - apply Vector2_magnitude_has_sign, Vector2_constructor_NaN_free.
  - apply Vector3_magnitude_has_sign, Vector3_constructor_NaN_free.
  - apply Vector4_magnitude_has_sign, Vector4_constructor_NaN_free.
Qed.

(** *** [Max] and [Min] *)

(** On vectors without NaN, [Max] and [Min] do not depend on the order of
    the arguments, for each class.  With a NaN they do: the comparison
    fails on both sides and the field of [rhs] is taken, so
    [Max((NaN, 0), (1, 1))] has [x = 1] and [Max((1, 1), (NaN, 0))] has
    [x = 0]. *)
Theorem Max_Min_commutative :
  (forall a b : Vector2.t,
      Vector2.NaN_free a -> Vector2.NaN_free b ->
      Vector2.Max a b = Vector2.Max b a /\ Vector2.Min a b = Vector2.Min b a)
  /\ (forall a b : Vector3.t,
      Vector3.NaN_free a -> Vector3.NaN_free b ->
      Vector3.Max a b = Vector3.Max b a /\ Vector3.Min a b = Vector3.Min b a)
  /\ (forall a b : Vector4.t,
      Vector4.NaN_free a -> Vector4.NaN_free b ->
      Vector4.Max a b = Vector4.Max b a /\ Vector4.Min a b = Vector4.Min b a)
  /\ (Vector2.x (Vector2.Max (Vector2.mk NaN n0) Vector2.one) = n1
      /\ Vector2.x (Vector2.Max Vector2.one (Vector2.mk NaN n0)) = n0).
Proof.
  repeat apply conj; try reflexivity.
  - intros a b (Hax & Hay) (Hbx & Hby). split.
    + unfold Vector2.Max, Vector2.new, Vector2.constructor.
      now rewrite (max_field_comm n0 _ _ Hax Hbx), (max_field_comm n0 _ _ Hay Hby).
    + unfold Vector2.Min, Vector2.new, Vector2.constructor.
      now rewrite (min_field_comm n0 _ _ Hax Hbx), (min_field_comm n0 _ _ Hay Hby).
  - intros a b (Hax & Hay & Haz) (Hbx & Hby & Hbz). split.
    + unfold Vector3.Max, Vector3.new, Vector3.constructor.
      now rewrite (max_field_comm n0 _ _ Hax Hbx), (max_field_comm n0 _ _ Hay Hby), (max_field_comm n0 _ _ Haz Hbz).
    + unfold Vector3.Min, Vector3.new, Vector3.constructor.
      now rewrite (min_field_comm n0 _ _ Hax Hbx), (min_field_comm n0 _ _ Hay Hby), (min_field_comm n0 _ _ Haz Hbz).
  - intros a b (Hax & Hay & Haz & Haw) (Hbx & Hby & Hbz & Hbw). split.
    + unfold Vector4.Max, Vector4.new, Vector4.constructor.
      now rewrite (max_field_comm n0 _ _ Hax Hbx), (max_field_comm n0 _ _ Hay Hby), (max_field_comm n0 _ _ Haz Hbz), (max_field_comm n1 _ _ Haw Hbw).
    + unfold Vector4.Min, Vector4.new, Vector4.constructor.
      now rewrite (min_field_comm n0 _ _ Hax Hbx), (min_field_comm n0 _ _ Hay Hby), (min_field_comm n0 _ _ Haz Hbz), (min_field_comm n1 _ _ Haw Hbw).
Qed.

Lemma Max_Min_commutative_witness :
  Vector2.NaN_free Vector2.one /\ Vector2.NaN_free Vector2.zero
  /\ Vector2.Max Vector2.one Vector2.zero = Vector2.Max Vector2.zero Vector2.one.
Proof.
  split; [split; reflexivity | split; [split; reflexivity |]].
  exact (proj1 (proj1 Max_Min_commutative Vector2.one Vector2.zero
                  (conj eq_refl eq_refl) (conj eq_refl eq_refl))).
Defined.

(** On vectors without NaN, every field of [Max(a, b)] is at least the
    same field of [a] and of [b], and every field of [Min(a, b)] is at most
    both, for [Vector2] and [Vector3]. *)
Theorem Max_upper_Min_lower :
  (forall a b : Vector2.t,
      Vector2.NaN_free a -> Vector2.NaN_free b ->
      (Vector2.x a <=? Vector2.x (Vector2.Max a b)) = true
      /\ (Vector2.x b <=? Vector2.x (Vector2.Max a b)) = true
      /\ (Vector2.x (Vector2.Min a b) <=? Vector2.x a) = true
      /\ (Vector2.x (Vector2.Min a b) <=? Vector2.x b) = true
      /\ (Vector2.y a <=? Vector2.y (Vector2.Max a b)) = true
      /\ (Vector2.y b <=? Vector2.y (Vector2.Max a b)) = true
      /\ (Vector2.y (Vector2.Min a b) <=? Vector2.y a) = true
      /\ (Vector2.y (Vector2.Min a b) <=? Vector2.y b) = true)
  /\ (forall a b : Vector3.t,
      Vector3.NaN_free a -> Vector3.NaN_free b ->
      (Vector3.x a <=? Vector3.x (Vector3.Max a b)) = true
      /\ (Vector3.x b <=? Vector3.x (Vector3.Max a b)) = true
      /\ (Vector3.x (Vector3.Min a b) <=? Vector3.x a) = true
      /\ (Vector3.x (Vector3.Min a b) <=? Vector3.x b) = true
      /\ (Vector3.y a <=? Vector3.y (Vector3.Max a b)) = true
      /\ (Vector3.y b <=? Vector3.y (Vector3.Max a b)) = true
      /\ (Vector3.y (Vector3.Min a b) <=? Vector3.y a) = true
      /\ (Vector3.y (Vector3.Min a b) <=? Vector3.y b) = true
      /\ (Vector3.z a <=? Vector3.z (Vector3.Max a b)) = true
      /\ (Vector3.z b <=? Vector3.z (Vector3.Max a b)) = true
      /\ (Vector3.z (Vector3.Min a b) <=? Vector3.z a) = true
      /\ (Vector3.z (Vector3.Min a b) <=? Vector3.z b) = true).
Proof.
  split.
  - intros a b (Hax & Hay) (Hbx & Hby).
    destruct (max_field_upper _ _ Hax Hbx) as [? ?].
    destruct (min_field_lower _ _ Hax Hbx) as [? ?].
    destruct (max_field_upper _ _ Hay Hby) as [? ?].
    destruct (min_field_lower _ _ Hay Hby) as [? ?].
    repeat split; assumption.
  - intros a b (Hax & Hay & Haz) (Hbx & Hby & Hbz).
    destruct (max_field_upper _ _ Hax Hbx) as [? ?].
    destruct (min_field_lower _ _ Hax Hbx) as [? ?].
    destruct (max_field_upper _ _ Hay Hby) as [? ?].
    destruct (min_field_lower _ _ Hay Hby) as [? ?].
    destruct (max_field_upper _ _ Haz Hbz) as [? ?].
    destruct (min_field_lower _ _ Haz Hbz) as [? ?].
    repeat split; assumption.
Qed.

Lemma Max_upper_Min_lower_witness :
  Vector2.NaN_free Vector2.one /\ Vector2.NaN_free Vector2.zero
  /\ (Vector2.x Vector2.zero <=? Vector2.x (Vector2.Max Vector2.one Vector2.zero))
     = true.
Proof.
  split; [split; reflexivity | split; [split; reflexivity |]].
  exact (proj1 (proj2 (proj1 Max_upper_Min_lower Vector2.one Vector2.zero
                  (conj eq_refl eq_refl) (conj eq_refl eq_refl)))).
Defined.

(** *** The constructor *)

(** For each class, an argument that is 0, -0 or NaN has the effect of an
    omitted one; an argument that is not NaN is stored as a number equal
    ([==]) to it in [x], [y] and [z]; and in [Vector4] a [w] argument that
    is 0 is stored as 1. *)
Theorem constructor_arguments :
  (forall ax ay : number,
      Vector2.new ax ay
      = Vector2.constructor (effective ax) (effective ay)
      /\ (isNaN ax = false ->
          (Vector2.x (Vector2.new ax ay) == ax) = true)
      /\ (isNaN ay = false ->
          (Vector2.y (Vector2.new ax ay) == ay) = true))
  /\ (forall ax ay az : number,
      Vector3.new ax ay az
      = Vector3.constructor (effective ax) (effective ay) (effective az)
      /\ (isNaN ax = false ->
          (Vector3.x (Vector3.new ax ay az) == ax) = true)
      /\ (isNaN ay = false ->
          (Vector3.y (Vector3.new ax ay az) == ay) = true)
      /\ (isNaN az = false ->
          (Vector3.z (Vector3.new ax ay az) == az) = true))
  /\ (forall ax ay az aw : number,
      Vector4.new ax ay az aw
      = Vector4.constructor (effective ax) (effective ay) (effective az) (effective aw)
      /\ (isNaN ax = false ->
          (Vector4.x (Vector4.new ax ay az aw) == ax) = true)
      /\ (isNaN ay = false ->
          (Vector4.y (Vector4.new ax ay az aw) == ay) = true)
      /\ (isNaN az = false ->
          (Vector4.z (Vector4.new ax ay az aw) == az) = true))
  /\ (forall (ax ay az : number) (s : bool),
      Vector4.w (Vector4.new ax ay az (S754_zero s)) = n1).
Proof.
  repeat apply conj; try reflexivity; intros.
  - split.
    + unfold Vector2.new, Vector2.constructor. now rewrite <- !init_effective.
    + repeat apply conj; intros H; now apply init_eqb.
  - split.
    + unfold Vector3.new, Vector3.constructor. now rewrite <- !init_effective.
    + repeat apply conj; intros H; now apply init_eqb.
  - split.
    + unfold Vector4.new, Vector4.constructor. now rewrite <- !init_effective.
    + repeat apply conj; intros H; now apply init_eqb.
Qed.

Lemma constructor_arguments_witness :
  isNaN n5 = false /\ (Vector2.x (Vector2.new n5 n0) == n5) = true.
Proof.
  split; [reflexivity |].
  exact (proj1 (proj2 (proj1 constructor_arguments n5 n0)) eq_refl).
Defined.

(** *** Neutral operands *)

(** For [Vector2] and [Vector3] and a vector [a] without NaN, the static
    [Add(a, 0)], [Subtract(a, 0)] and, when the fields are doubles,
    [Multiply(a, 1)] equal [a] field by field. *)
Theorem neutral_operands :
  (forall a : Vector2.t,
      Vector2.NaN_free a ->
      ((Vector2.x (Vector2.Add a (Num n0)) == Vector2.x a) = true
       /\ (Vector2.y (Vector2.Add a (Num n0)) == Vector2.y a) = true)
      /\ ((Vector2.x (Vector2.Subtract a (Num n0)) == Vector2.x a) = true
          /\ (Vector2.y (Vector2.Subtract a (Num n0)) == Vector2.y a) = true)
      /\ (valid (Vector2.x a) = true ->
          valid (Vector2.y a) = true ->
          (Vector2.x (Vector2.Multiply a (Num n1)) == Vector2.x a) = true
          /\ (Vector2.y (Vector2.Multiply a (Num n1)) == Vector2.y a) = true))
  /\ (forall a : Vector3.t,
      Vector3.NaN_free a ->
      ((Vector3.x (Vector3.Add a (Num n0)) == Vector3.x a) = true
       /\ (Vector3.y (Vector3.Add a (Num n0)) == Vector3.y a) = true
       /\ (Vector3.z (Vector3.Add a (Num n0)) == Vector3.z a) = true)
      /\ ((Vector3.x (Vector3.Subtract a (Num n0)) == Vector3.x a) = true
          /\ (Vector3.y (Vector3.Subtract a (Num n0)) == Vector3.y a) = true
          /\ (Vector3.z (Vector3.Subtract a (Num n0)) == Vector3.z a) = true)
      /\ (valid (Vector3.x a) = true ->
          valid (Vector3.y a) = true ->
          valid (Vector3.z a) = true ->
          (Vector3.x (Vector3.Multiply a (Num n1)) == Vector3.x a) = true
          /\ (Vector3.y (Vector3.Multiply a (Num n1)) == Vector3.y a) = true
          /\ (Vector3.z (Vector3.Multiply a (Num n1)) == Vector3.z a) = true)).
Proof.
  split.
  - intros a (Hx & Hy).
    unfold Vector2.Add, Vector2.Subtract, Vector2.Multiply, Vector2.new, Vector2.constructor.
    cbn [Vector2.x Vector2.y].
    rewrite !sub_n0_r. repeat apply conj; intros;
      rewrite ?mul_one_r by assumption; auto using init_add_n0, init_eqb.
  - intros a (Hx & Hy & Hz).
    unfold Vector3.Add, Vector3.Subtract, Vector3.Multiply, Vector3.new, Vector3.constructor.
    cbn [Vector3.x Vector3.y Vector3.z].
    rewrite !sub_n0_r. repeat apply conj; intros;
      rewrite ?mul_one_r by assumption; auto using init_add_n0, init_eqb.
Qed.

Lemma neutral_operands_witness :
  Vector3.NaN_free v_3_4_0
  /\ (Vector3.y (Vector3.Multiply v_3_4_0 (Num n1)) == Vector3.y v_3_4_0) = true.
Proof.
  split; [repeat split |].
  exact (proj1 (proj2 (proj2 (proj2 (proj2 neutral_operands v_3_4_0
           (conj eq_refl (conj eq_refl eq_refl))))
           eq_refl eq_refl eq_refl))).
Defined.

(** *** [Lerp] with a NaN parameter *)

(** [Lerp(a, b, NaN)] is [Lerp(a, b, 0)]: NaN is neither below 0 nor above
    1, and the product of the difference by NaN or by 0 is dropped by the
    constructor alike.  For each class and all [a], [b]. *)
Theorem Lerp_NaN_parameter :
  (forall (a b : Vector2.t) (s : bool),
      Vector2.Lerp a b NaN = Vector2.Lerp a b (S754_zero s))
  /\ (forall (a b : Vector3.t) (s : bool),
      Vector3.Lerp a b NaN = Vector3.Lerp a b (S754_zero s))
  /\ (forall (a b : Vector4.t) (s : bool),
      Vector4.Lerp a b NaN = Vector4.Lerp a b (S754_zero s)).
Proof.
  repeat split; intros a b s.
  - unfold Vector2.Lerp.
    destruct (Lerp_at_zero_is_DoLerp s) as [E0 E1]; rewrite E0, E1.
    change (NaN <? n0) with false. change (NaN >? n1) with false. cbv iota.
    change (Vector2.DoLerp a b NaN) with
      (Vector2.mk (lerp_field n0 (Vector2.x a) (Vector2.x b) NaN) (lerp_field n0 (Vector2.y a) (Vector2.y b) NaN)).
    change (Vector2.DoLerp a b (S754_zero s)) with
      (Vector2.mk (lerp_field n0 (Vector2.x a) (Vector2.x b) (S754_zero s)) (lerp_field n0 (Vector2.y a) (Vector2.y b) (S754_zero s))).
    now rewrite !lerp_field_NaN, !lerp_field_at_zero.
  - unfold Vector3.Lerp.
    destruct (Lerp_at_zero_is_DoLerp s) as [E0 E1]; rewrite E0, E1.
    change (NaN <? n0) with false. change (NaN >? n1) with false. cbv iota.
    change (Vector3.DoLerp a b NaN) with
      (Vector3.mk (lerp_field n0 (Vector3.x a) (Vector3.x b) NaN) (lerp_field n0 (Vector3.y a) (Vector3.y b) NaN) (lerp_field n0 (Vector3.z a) (Vector3.z b) NaN)).
    change (Vector3.DoLerp a b (S754_zero s)) with
      (Vector3.mk (lerp_field n0 (Vector3.x a) (Vector3.x b) (S754_zero s)) (lerp_field n0 (Vector3.y a) (Vector3.y b) (S754_zero s)) (lerp_field n0 (Vector3.z a) (Vector3.z b) (S754_zero s))).
    now rewrite !lerp_field_NaN, !lerp_field_at_zero.
  - unfold Vector4.Lerp.
    destruct (Lerp_at_zero_is_DoLerp s) as [E0 E1]; rewrite E0, E1.
    change (NaN <? n0) with false. change (NaN >? n1) with false. cbv iota.
    change (Vector4.DoLerp a b NaN) with
      (Vector4.mk (lerp_field n0 (Vector4.x a) (Vector4.x b) NaN) (lerp_field n0 (Vector4.y a) (Vector4.y b) NaN) (lerp_field n0 (Vector4.z a) (Vector4.z b) NaN) (lerp_field n1 (Vector4.w a) (Vector4.w b) NaN)).
    change (Vector4.DoLerp a b (S754_zero s)) with
      (Vector4.mk (lerp_field n0 (Vector4.x a) (Vector4.x b) (S754_zero s)) (lerp_field n0 (Vector4.y a) (Vector4.y b) (S754_zero s)) (lerp_field n0 (Vector4.z a) (Vector4.z b) (S754_zero s)) (lerp_field n1 (Vector4.w a) (Vector4.w b) (S754_zero s))).
    now rewrite !lerp_field_NaN, !lerp_field_at_zero.
Qed.

(** *** [normalized] of a vector holding NaN or an infinity *)

Lemma has_sign_Infinity : has_sign false Infinity.
Proof. reflexivity. Qed.

Lemma Vector2_magnitude_infinite (v : Vector2.t) :
  Vector2.NaN_free v ->
  is_infinite (Vector2.x v) || is_infinite (Vector2.y v) = true ->
  Vector2.magnitude v = Infinity.
Proof.
  intros (Hx & Hy) Hi.
  pose proof (mul_self_has_sign _ Hx) as Sx.
  pose proof (mul_self_has_sign _ Hy) as Sy.
  unfold Vector2.magnitude.
  assert (E : Vector2.x v * Vector2.x v + Vector2.y v * Vector2.y v = Infinity);
    [| now rewrite E].
  repeat (apply orb_prop in Hi as [Hi | Hi]);
    apply mul_self_infinite in Hi;
    eauto 8 using add_infinity_l, add_infinity_r, add_has_sign, has_sign_Infinity.
Qed.

Lemma Vector3_magnitude_infinite (v : Vector3.t) :
  Vector3.NaN_free v ->
  is_infinite (Vector3.x v) || is_infinite (Vector3.y v) || is_infinite (Vector3.z v) = true ->
  Vector3.magnitude v = Infinity.
Proof.
  intros (Hx & Hy & Hz) Hi.
  pose proof (mul_self_has_sign _ Hx) as Sx.
  pose proof (mul_self_has_sign _ Hy) as Sy.
  pose proof (mul_self_has_sign _ Hz) as Sz.
  unfold Vector3.magnitude.
  assert (E : Vector3.x v * Vector3.x v + Vector3.y v * Vector3.y v + Vector3.z v * Vector3.z v = Infinity);
    [| now rewrite E].
  repeat (apply orb_prop in Hi as [Hi | Hi]);
    apply mul_self_infinite in Hi;
    eauto 8 using add_infinity_l, add_infinity_r, add_has_sign, has_sign_Infinity.
Qed.

Lemma Vector4_magnitude_infinite (v : Vector4.t) :
  Vector4.NaN_free v ->
  is_infinite (Vector4.x v) || is_infinite (Vector4.y v) || is_infinite (Vector4.z v) || is_infinite (Vector4.w v) = true ->
  Vector4.magnitude v = Infinity.
Proof.
  intros (Hx & Hy & Hz & Hw) Hi.
  pose proof (mul_self_has_sign _ Hx) as Sx.
  pose proof (mul_self_has_sign _ Hy) as Sy.
  pose proof (mul_self_has_sign _ Hz) as Sz.
  pose proof (mul_self_has_sign _ Hw) as Sw.
  unfold Vector4.magnitude.
  assert (E : Vector4.x v * Vector4.x v + Vector4.y v * Vector4.y v + Vector4.z v * Vector4.z v + Vector4.w v * Vector4.w v = Infinity);
    [| now rewrite E].
  repeat (apply orb_prop in Hi as [Hi | Hi]);
    apply mul_self_infinite in Hi;
    eauto 8 using add_infinity_l, add_infinity_r, add_has_sign, has_sign_Infinity.
Qed.

(** For each class, [normalized] of a vector with a NaN field, or with an
    infinite field and no NaN, is the value of the class's [zero] accessor:
    the magnitude is NaN, which is not above 0, or it is [Infinity], by
    which every quotient is 0 or NaN. *)
Theorem normalized_of_NaN_or_infinite :
  (forall v : Vector2.t,
      (isNaN (Vector2.x v) || isNaN (Vector2.y v) = true ->
       Vector2.normalized v = Vector2.zero)
      /\ (Vector2.NaN_free v ->
          is_infinite (Vector2.x v) || is_infinite (Vector2.y v) = true ->
          Vector2.normalized v = Vector2.zero))
  /\ (forall v : Vector3.t,
      (isNaN (Vector3.x v) || isNaN (Vector3.y v) || isNaN (Vector3.z v) = true ->
       Vector3.normalized v = Vector3.zero)
      /\ (Vector3.NaN_free v ->
          is_infinite (Vector3.x v) || is_infinite (Vector3.y v) || is_infinite (Vector3.z v) = true ->
          Vector3.normalized v = Vector3.zero))
  /\ (forall v : Vector4.t,
      (isNaN (Vector4.x v) || isNaN (Vector4.y v) || isNaN (Vector4.z v) || isNaN (Vector4.w v) = true ->
       Vector4.normalized v = Vector4.zero)
      /\ (Vector4.NaN_free v ->
          is_infinite (Vector4.x v) || is_infinite (Vector4.y v) || is_infinite (Vector4.z v) || is_infinite (Vector4.w v) = true ->
          Vector4.normalized v = Vector4.zero)).
Proof.
  repeat apply conj; intros v.
  - split.
    + intros Hn. unfold Vector2.normalized. cbv zeta.
      destruct (isNaN (Vector2.magnitude v)) eqn:E.
      * now rewrite (isNaN_true _ E).
      * apply Vector2_magnitude_not_NaN in E. red in E.
        destruct E as (Ex & Ey).
        rewrite Ex, Ey in Hn. discriminate.
    + intros Hf Hi. unfold Vector2.normalized. cbv zeta.
      rewrite (Vector2_magnitude_infinite v Hf Hi).
      change (Infinity >? n0) with true. cbv iota.
      unfold Vector2.new, Vector2.constructor. now rewrite !init_div_infinity.
  - split.
    + intros Hn. unfold Vector3.normalized. cbv zeta.
      destruct (isNaN (Vector3.magnitude v)) eqn:E.
      * now rewrite (isNaN_true _ E).
      * apply Vector3_magnitude_not_NaN in E. red in E.
        destruct E as (Ex & Ey & Ez).
        rewrite Ex, Ey, Ez in Hn. discriminate.
    + intros Hf Hi. unfold Vector3.normalized. cbv zeta.
      rewrite (Vector3_magnitude_infinite v Hf Hi).
      change (Infinity >? n0) with true. cbv iota.
      unfold Vector3.new, Vector3.constructor. now rewrite !init_div_infinity.
  - split.
    + intros Hn. unfold Vector4.normalized. cbv zeta.
      destruct (isNaN (Vector4.magnitude v)) eqn:E.
      * now rewrite (isNaN_true _ E).
      * apply Vector4_magnitude_not_NaN in E. red in E.
        destruct E as (Ex & Ey & Ez & Ew).
        rewrite Ex, Ey, Ez, Ew in Hn. discriminate.
    + intros Hf Hi. unfold Vector4.normalized. cbv zeta.
      rewrite (Vector4_magnitude_infinite v Hf Hi).
      change (Infinity >? n0) with true. cbv iota.
      unfold Vector4.new, Vector4.constructor. now rewrite !init_div_infinity.
Qed.

Lemma normalized_of_NaN_or_infinite_witness :
  Vector2.NaN_free Vector2.positiveInfinity
  /\ is_infinite (Vector2.x Vector2.positiveInfinity)
     || is_infinite (Vector2.y Vector2.positiveInfinity) = true
  /\ Vector2.normalized Vector2.positiveInfinity = Vector2.zero.
Proof.
  split; [split; reflexivity | split; [reflexivity |]].
  exact (proj2 (proj1 normalized_of_NaN_or_infinite Vector2.positiveInfinity)
           (conj eq_refl eq_refl) eq_refl).
Defined.

(** *** [ClampMagnitude] without a bound *)

(** For each class and every vector of doubles, [ClampMagnitude] with the
    bound NaN or [Infinity] is the constructor applied to the fields
    themselves: no magnitude is above either. *)
Theorem ClampMagnitude_unbounded :
  (forall v : Vector2.t,
      valid (Vector2.x v) = true ->
      valid (Vector2.y v) = true ->
      Vector2.ClampMagnitude v NaN = Vector2.new (Vector2.x v) (Vector2.y v)
      /\ Vector2.ClampMagnitude v Infinity = Vector2.new (Vector2.x v) (Vector2.y v))
  /\ (forall v : Vector3.t,
      valid (Vector3.x v) = true ->
      valid (Vector3.y v) = true ->
      valid (Vector3.z v) = true ->
      Vector3.ClampMagnitude v NaN = Vector3.new (Vector3.x v) (Vector3.y v) (Vector3.z v)
      /\ Vector3.ClampMagnitude v Infinity = Vector3.new (Vector3.x v) (Vector3.y v) (Vector3.z v))
  /\ (forall v : Vector4.t,
      valid (Vector4.x v) = true ->
      valid (Vector4.y v) = true ->
      valid (Vector4.z v) = true ->
      valid (Vector4.w v) = true ->
      Vector4.ClampMagnitude v NaN = Vector4.new (Vector4.x v) (Vector4.y v) (Vector4.z v) (Vector4.w v)
      /\ Vector4.ClampMagnitude v Infinity = Vector4.new (Vector4.x v) (Vector4.y v) (Vector4.z v) (Vector4.w v)).
Proof.
  repeat apply conj; intros v; intros;
    unfold Vector2.ClampMagnitude, Vector3.ClampMagnitude,
      Vector4.ClampMagnitude; cbv zeta;
    rewrite gt_infinity; change (_ >? NaN) with false; cbv iota;
    rewrite !mul_one_r by assumption; split; reflexivity.
Qed.

Lemma ClampMagnitude_unbounded_witness :
  valid (Vector2.x Vector2.one) = true /\ valid (Vector2.y Vector2.one) = true
  /\ Vector2.ClampMagnitude Vector2.one NaN = Vector2.one.
Proof.
  split; [reflexivity | split; [reflexivity |]].
  exact (proj1 (proj1 ClampMagnitude_unbounded Vector2.one eq_refl eq_refl)).
Defined.

(** *** Static and instance arithmetic *)

(** For [Vector2] and [Vector3] and each of [Add], [Subtract], [Multiply],
    [Divide], with a scalar or a vector operand: when the instance method
    leaves no NaN in the receiver, the static function returns a vector
    equal to it field by field. *)
Theorem static_agrees_with_method :
  (forall (a : Vector2.t) (b : operand Vector2.t),
      (Vector2.NaN_free (Vector2.Method.Add a b) ->
          (Vector2.x (Vector2.Add a b) == Vector2.x (Vector2.Method.Add a b)) = true
          /\ (Vector2.y (Vector2.Add a b) == Vector2.y (Vector2.Method.Add a b)) = true)
      /\ (Vector2.NaN_free (Vector2.Method.Subtract a b) ->
          (Vector2.x (Vector2.Subtract a b) == Vector2.x (Vector2.Method.Subtract a b)) = true
          /\ (Vector2.y (Vector2.Subtract a b) == Vector2.y (Vector2.Method.Subtract a b)) = true)
      /\ (Vector2.NaN_free (Vector2.Method.Multiply a b) ->
          (Vector2.x (Vector2.Multiply a b) == Vector2.x (Vector2.Method.Multiply a b)) = true
          /\ (Vector2.y (Vector2.Multiply a b) == Vector2.y (Vector2.Method.Multiply a b)) = true)
      /\ (Vector2.NaN_free (Vector2.Method.Divide a b) ->
          (Vector2.x (Vector2.Divide a b) == Vector2.x (Vector2.Method.Divide a b)) = true
          /\ (Vector2.y (Vector2.Divide a b) == Vector2.y (Vector2.Method.Divide a b)) = true))
  /\ (forall (a : Vector3.t) (b : operand Vector3.t),
      (Vector3.NaN_free (Vector3.Method.Add a b) ->
          (Vector3.x (Vector3.Add a b) == Vector3.x (Vector3.Method.Add a b)) = true
          /\ (Vector3.y (Vector3.Add a b) == Vector3.y (Vector3.Method.Add a b)) = true
          /\ (Vector3.z (Vector3.Add a b) == Vector3.z (Vector3.Method.Add a b)) = true)
      /\ (Vector3.NaN_free (Vector3.Method.Subtract a b) ->
          (Vector3.x (Vector3.Subtract a b) == Vector3.x (Vector3.Method.Subtract a b)) = true
          /\ (Vector3.y (Vector3.Subtract a b) == Vector3.y (Vector3.Method.Subtract a b)) = true
          /\ (Vector3.z (Vector3.Subtract a b) == Vector3.z (Vector3.Method.Subtract a b)) = true)
      /\ (Vector3.NaN_free (Vector3.Method.Multiply a b) ->
          (Vector3.x (Vector3.Multiply a b) == Vector3.x (Vector3.Method.Multiply a b)) = true
          /\ (Vector3.y (Vector3.Multiply a b) == Vector3.y (Vector3.Method.Multiply a b)) = true
          /\ (Vector3.z (Vector3.Multiply a b) == Vector3.z (Vector3.Method.Multiply a b)) = true)
      /\ (Vector3.NaN_free (Vector3.Method.Divide a b) ->
          (Vector3.x (Vector3.Divide a b) == Vector3.x (Vector3.Method.Divide a b)) = true
          /\ (Vector3.y (Vector3.Divide a b) == Vector3.y (Vector3.Method.Divide a b)) = true
          /\ (Vector3.z (Vector3.Divide a b) == Vector3.z (Vector3.Method.Divide a b)) = true)).
Proof.
  split; intros a b; repeat apply conj; intros H; red in H;
    decompose [and] H; destruct b; repeat split; now apply init_eqb.
Qed.

Lemma static_agrees_with_method_witness :
  Vector2.NaN_free (Vector2.Method.Add Vector2.one (Num n1))
  /\ (Vector2.x (Vector2.Add Vector2.one (Num n1))
      == Vector2.x (Vector2.Method.Add Vector2.one (Num n1))) = true.
Proof.
  split; [split; reflexivity |].
  exact (proj1 (proj1 (proj1 static_agrees_with_method Vector2.one (Num n1))
                  (conj eq_refl eq_refl))).
Defined.

End MoreVectorFacts.

(** ** More on objects *)

Section MoreObjectFacts.

Context {V : Type}.
Variables (vAdd vSubtract vMultiply : V -> operand V -> V).
Variable vmagnitude : V -> number.

Implicit Types (h : Obj.heap V) (a b r : Obj.ref) (t : number).

Local Open Scope num_scope.

Lemma keeps_ret {A : Type} (x : A) : keeps_objects (V := V) (Obj.ret x).
Proof. intros h r h' E. injection E as <- <-. auto. Qed.

Lemma keeps_load r : keeps_objects (V := V) (Obj.load r).
Proof.
  intros h x h' E. unfold Obj.load in E.
  destruct (h !! r); [injection E as <- <- | discriminate]. auto.
Qed.

Lemma keeps_alloc (v : V) : keeps_objects (Obj.alloc v).
Proof.
  intros h r h' E. injection E as <- <-. intros i w Hi.
  now apply lookup_alloc.
Qed.

Lemma keeps_bind {A B : Type} (m : Obj.M V A) (k : A -> Obj.M V B) :
  keeps_objects m -> (forall x, keeps_objects (k x)) ->
  keeps_objects (Obj.bind m k).
Proof.
  intros Hm Hk h r h' E. unfold Obj.bind in E.
  destruct (m h) as [[x h1]|] eqn:E1; [| discriminate].
  intros i w Hi. eapply Hk; [exact E |]. eapply Hm; eauto.
Qed.

Lemma keeps_load_operand (b : operand Obj.ref) :
  keeps_objects (V := V) (Obj.load_operand b).
Proof.
  destruct b; [apply keeps_ret |].
  apply keeps_bind; [apply keeps_load | intros; apply keeps_ret].
Qed.

Lemma keeps_static (f : V -> operand V -> V) a (b : operand Obj.ref) :
  keeps_objects (Obj.static f a b).
Proof.
  apply keeps_bind; [apply keeps_load | intros va].
  apply keeps_bind; [apply keeps_load_operand | intros vb].
  apply keeps_alloc.
Qed.

Lemma keeps_load_alloc (f : V -> V) r :
  keeps_objects (Obj.bind (Obj.load r) (fun x => Obj.alloc (f x))).
Proof. apply keeps_bind; [apply keeps_load | intros; apply keeps_alloc]. Qed.

Lemma keeps_DoLerp a b t :
  keeps_objects (Obj.DoLerp vAdd vSubtract vMultiply a b t).
Proof.
  repeat (apply keeps_bind; [apply keeps_static | intros ?]).
  apply keeps_ret.
Qed.

Lemma keeps_Lerp a b t :
  keeps_objects (Obj.Lerp vAdd vSubtract vMultiply a b t).
Proof.
  unfold Obj.Lerp.
  destruct (t <? n0); [apply keeps_ret |].
  destruct (t >? n1); [apply keeps_ret | apply keeps_DoLerp].
Qed.

Lemma keeps_Distance a b :
  keeps_objects (Obj.Distance vSubtract vmagnitude a b).
Proof.
  apply keeps_bind; [apply keeps_static | intros d].
  apply keeps_bind; [apply keeps_load | intros; apply keeps_ret].
Qed.

Lemma keeps_MoveTowards a b t :
  keeps_objects (Obj.MoveTowards vAdd vSubtract vMultiply vmagnitude a b t).
Proof.
  apply keeps_bind; [apply keeps_Distance | intros d; apply keeps_Lerp].
Qed.

(** An instance method changes the receiver and nothing else. *)
Lemma method_receiver_only (f : V -> operand V -> V) :
  receiver_only (Obj.method f) f.
Proof.
  intros h this rhs u h' E.
  unfold Obj.method, Obj.bind, Obj.load, Obj.assign in E.
  destruct (h !! this) as [v|] eqn:Ht; [| discriminate].
  assert (exists vr, operand_value h rhs vr
                     /\ h' = <[this := f v vr]> h) as (vr & Hr & ->).
  { destruct rhs as [n | r]; simpl in E.
    - rewrite Ht in E. injection E as <-. now exists (Num n).
    - unfold Obj.bind, Obj.load in E.
      destruct (h !! r) as [w|] eqn:Hw; [| discriminate].
      simpl in E. rewrite Ht in E. injection E as <-. now exists (Vec w). }
  split; [apply length_insert |].
  split; [intros i Hi; now apply list_lookup_insert_ne |].
  exists v, vr. split; [reflexivity | split; [exact Hr |]].
  apply list_lookup_insert_eq. now apply ref_in_use_lt in Ht.
Qed.

End MoreObjectFacts.

Section MoreClassObjectFacts.

Local Open Scope num_scope.

(** For each class, whenever a static function returns, every object that
    was in the heap is still there with the same fields: [Add],
    [Subtract], [Multiply], [Divide], [Lerp], [LerpUnclamped],
    [MoveTowards], [Distance], [ClampMagnitude] and the getter
    [normalized] never assign a field of their arguments. *)
Theorem static_functions_keep_objects :
  (forall (a : Obj.ref) (b : operand Obj.ref),
      keeps_objects (Vector2Obj.Add a b)
      /\ keeps_objects (Vector2Obj.Subtract a b)
      /\ keeps_objects (Vector2Obj.Multiply a b)
      /\ keeps_objects (Vector2Obj.Divide a b))
  /\ (forall (a b : Obj.ref) (t : number),
      keeps_objects (Vector2Obj.Lerp a b t)
      /\ keeps_objects (Vector2Obj.LerpUnclamped a b t)
      /\ keeps_objects (Vector2Obj.MoveTowards a b t))
  /\ (forall a b : Obj.ref, keeps_objects (Vector2Obj.Distance a b))
  /\ (forall (a : Obj.ref) (m : number),
      keeps_objects (Vector2Obj.ClampMagnitude a m)
      /\ keeps_objects (Vector2Obj.normalized a))
  /\ (forall (a : Obj.ref) (b : operand Obj.ref),
      keeps_objects (Vector3Obj.Add a b)
      /\ keeps_objects (Vector3Obj.Subtract a b)
      /\ keeps_objects (Vector3Obj.Multiply a b)
      /\ keeps_objects (Vector3Obj.Divide a b))
  /\ (forall (a b : Obj.ref) (t : number),
      keeps_objects (Vector3Obj.Lerp a b t)
      /\ keeps_objects (Vector3Obj.LerpUnclamped a b t)
      /\ keeps_objects (Vector3Obj.MoveTowards a b t))
  /\ (forall a b : Obj.ref, keeps_objects (Vector3Obj.Distance a b))
  /\ (forall (a : Obj.ref) (m : number),
      keeps_objects (Vector3Obj.ClampMagnitude a m)
      /\ keeps_objects (Vector3Obj.normalized a))
  /\ (forall (a : Obj.ref) (b : operand Obj.ref),
      keeps_objects (Vector4Obj.Add a b)
      /\ keeps_objects (Vector4Obj.Subtract a b)
      /\ keeps_objects (Vector4Obj.Multiply a b)
      /\ keeps_objects (Vector4Obj.Divide a b))
  /\ (forall (a b : Obj.ref) (t : number),
      keeps_objects (Vector4Obj.Lerp a b t)
      /\ keeps_objects (Vector4Obj.LerpUnclamped a b t)
      /\ keeps_objects (Vector4Obj.MoveTowards a b t))
  /\ (forall a b : Obj.ref, keeps_objects (Vector4Obj.Distance a b))
  /\ (forall (a : Obj.ref) (m : number),
      keeps_objects (Vector4Obj.ClampMagnitude a m)
      /\ keeps_objects (Vector4Obj.normalized a)).
Proof.
  repeat apply conj.
  - intros a b. repeat apply conj; apply keeps_static.
  - intros a b t. repeat apply conj.
    + apply keeps_Lerp.
    + apply keeps_DoLerp.
    + apply keeps_MoveTowards.
  - intros a b. apply keeps_Distance.
  - intros a m. split; apply keeps_load_alloc.
  - intros a b. repeat apply conj; apply keeps_static.
  - intros a b t. repeat apply conj.
    + apply keeps_Lerp.
    + apply keeps_DoLerp.
    + apply keeps_MoveTowards.
  - intros a b. apply keeps_Distance.
  - intros a m. split; apply keeps_load_alloc.
  - intros a b. repeat apply conj; apply keeps_static.
  - intros a b t. repeat apply conj.
    + apply keeps_Lerp.
    + apply keeps_DoLerp.
    + apply keeps_MoveTowards.
  - intros a b. apply keeps_Distance.
  - intros a m. split; apply keeps_load_alloc.
Qed.

(** After [MoveTowards] on the heap holding (1, 1) twice, reference 0
    still holds (1, 1). *)
Lemma static_functions_keep_objects_witness :
  Vector2Obj.MoveTowards 0%nat 1%nat n1 [Vector2.one; Vector2.one]
  = Some (1%nat, [Vector2.one; Vector2.one; Vector2.zero])
  /\ [Vector2.one; Vector2.one; Vector2.zero] !! 0%nat = Some Vector2.one.
Proof.
  split; [reflexivity |].
  exact (proj2 (proj2 (proj1 (proj2 static_functions_keep_objects)
                  0%nat 1%nat n1))
           [Vector2.one; Vector2.one] 1%nat
           [Vector2.one; Vector2.one; Vector2.zero] eq_refl
           0%nat Vector2.one eq_refl).
Defined.

(** For each class and each of the instance methods [Add], [Subtract],
    [Multiply], [Divide], on a receiver holding the fields [v]: the call
    with a number [n] returns and leaves the heap as it was but for the
    receiver, which holds [v.x op n], [v.y op n], ...; the call with an
    object holding [w] leaves the receiver with [v.x op w.x],
    [v.y op w.y], ..., also when that object is the receiver itself; so,
    whenever a call returns, the heap has the same size, every object but
    the receiver is untouched, and the receiver holds the field-wise
    result on its former fields and the operand. *)
Theorem instance_methods_change_receiver_only :
  (forall (h : Vector2Obj.heap) (this : Obj.ref) (v : Vector2.t),
      h !! this = Some v ->
      (forall n : number,
          Vector2Obj.Add_method this (Num n) h
          = Some (tt, <[this := Vector2.mk (Vector2.x v + n) (Vector2.y v + n)]> h)
          /\ Vector2Obj.Subtract_method this (Num n) h
          = Some (tt, <[this := Vector2.mk (Vector2.x v - n) (Vector2.y v - n)]> h)
          /\ Vector2Obj.Multiply_method this (Num n) h
          = Some (tt, <[this := Vector2.mk (Vector2.x v * n) (Vector2.y v * n)]> h)
          /\ Vector2Obj.Divide_method this (Num n) h
          = Some (tt, <[this := Vector2.mk (Vector2.x v / n) (Vector2.y v / n)]> h))
      /\ (forall (r : Obj.ref) (w : Vector2.t),
          h !! r = Some w ->
          Vector2Obj.Add_method this (Vec r) h
          = Some (tt, <[this := Vector2.mk (Vector2.x v + Vector2.x w) (Vector2.y v + Vector2.y w)]> h)
          /\ Vector2Obj.Subtract_method this (Vec r) h
          = Some (tt, <[this := Vector2.mk (Vector2.x v - Vector2.x w) (Vector2.y v - Vector2.y w)]> h)
          /\ Vector2Obj.Multiply_method this (Vec r) h
          = Some (tt, <[this := Vector2.mk (Vector2.x v * Vector2.x w) (Vector2.y v * Vector2.y w)]> h)
          /\ Vector2Obj.Divide_method this (Vec r) h
          = Some (tt, <[this := Vector2.mk (Vector2.x v / Vector2.x w) (Vector2.y v / Vector2.y w)]> h)))
  /\ (forall (h : Vector3Obj.heap) (this : Obj.ref) (v : Vector3.t),
      h !! this = Some v ->
      (forall n : number,
          Vector3Obj.Add_method this (Num n) h
          = Some (tt, <[this := Vector3.mk (Vector3.x v + n) (Vector3.y v + n) (Vector3.z v + n)]> h)
          /\ Vector3Obj.Subtract_method this (Num n) h
          = Some (tt, <[this := Vector3.mk (Vector3.x v - n) (Vector3.y v - n) (Vector3.z v - n)]> h)
          /\ Vector3Obj.Multiply_method this (Num n) h
          = Some (tt, <[this := Vector3.mk (Vector3.x v * n) (Vector3.y v * n) (Vector3.z v * n)]> h)
          /\ Vector3Obj.Divide_method this (Num n) h
          = Some (tt, <[this := Vector3.mk (Vector3.x v / n) (Vector3.y v / n) (Vector3.z v / n)]> h))
      /\ (forall (r : Obj.ref) (w : Vector3.t),
          h !! r = Some w ->
          Vector3Obj.Add_method this (Vec r) h
          = Some (tt, <[this := Vector3.mk (Vector3.x v + Vector3.x w) (Vector3.y v + Vector3.y w) (Vector3.z v + Vector3.z w)]> h)
          /\ Vector3Obj.Subtract_method this (Vec r) h
          = Some (tt, <[this := Vector3.mk (Vector3.x v - Vector3.x w) (Vector3.y v - Vector3.y w) (Vector3.z v - Vector3.z w)]> h)
          /\ Vector3Obj.Multiply_method this (Vec r) h
          = Some (tt, <[this := Vector3.mk (Vector3.x v * Vector3.x w) (Vector3.y v * Vector3.y w) (Vector3.z v * Vector3.z w)]> h)
          /\ Vector3Obj.Divide_method this (Vec r) h
          = Some (tt, <[this := Vector3.mk (Vector3.x v / Vector3.x w) (Vector3.y v / Vector3.y w) (Vector3.z v / Vector3.z w)]> h)))
  /\ (forall (h : Vector4Obj.heap) (this : Obj.ref) (v : Vector4.t),
      h !! this = Some v ->
      (forall n : number,
          Vector4Obj.Add_method this (Num n) h
          = Some (tt, <[this := Vector4.mk (Vector4.x v + n) (Vector4.y v + n) (Vector4.z v + n) (Vector4.w v + n)]> h)
          /\ Vector4Obj.Subtract_method this (Num n) h
          = Some (tt, <[this := Vector4.mk (Vector4.x v - n) (Vector4.y v - n) (Vector4.z v - n) (Vector4.w v - n)]> h)
          /\ Vector4Obj.Multiply_method this (Num n) h
          = Some (tt, <[this := Vector4.mk (Vector4.x v * n) (Vector4.y v * n) (Vector4.z v * n) (Vector4.w v * n)]> h)
          /\ Vector4Obj.Divide_method this (Num n) h
          = Some (tt, <[this := Vector4.mk (Vector4.x v / n) (Vector4.y v / n) (Vector4.z v / n) (Vector4.w v / n)]> h))
      /\ (forall (r : Obj.ref) (w : Vector4.t),
          h !! r = Some w ->
          Vector4Obj.Add_method this (Vec r) h
          = Some (tt, <[this := Vector4.mk (Vector4.x v + Vector4.x w) (Vector4.y v + Vector4.y w) (Vector4.z v + Vector4.z w) (Vector4.w v + Vector4.w w)]> h)
          /\ Vector4Obj.Subtract_method this (Vec r) h
          = Some (tt, <[this := Vector4.mk (Vector4.x v - Vector4.x w) (Vector4.y v - Vector4.y w) (Vector4.z v - Vector4.z w) (Vector4.w v - Vector4.w w)]> h)
          /\ Vector4Obj.Multiply_method this (Vec r) h
          = Some (tt, <[this := Vector4.mk (Vector4.x v * Vector4.x w) (Vector4.y v * Vector4.y w) (Vector4.z v * Vector4.z w) (Vector4.w v * Vector4.w w)]> h)
          /\ Vector4Obj.Divide_method this (Vec r) h
          = Some (tt, <[this := Vector4.mk (Vector4.x v / Vector4.x w) (Vector4.y v / Vector4.y w) (Vector4.z v / Vector4.z w) (Vector4.w v / Vector4.w w)]> h)))
  /\ receiver_only Vector2Obj.Add_method Vector2.Method.Add
  /\ receiver_only Vector2Obj.Subtract_method Vector2.Method.Subtract
  /\ receiver_only Vector2Obj.Multiply_method Vector2.Method.Multiply
  /\ receiver_only Vector2Obj.Divide_method Vector2.Method.Divide
  /\ receiver_only Vector3Obj.Add_method Vector3.Method.Add
  /\ receiver_only Vector3Obj.Subtract_method Vector3.Method.Subtract
  /\ receiver_only Vector3Obj.Multiply_method Vector3.Method.Multiply
  /\ receiver_only Vector3Obj.Divide_method Vector3.Method.Divide
  /\ receiver_only Vector4Obj.Add_method Vector4.Method.Add
  /\ receiver_only Vector4Obj.Subtract_method Vector4.Method.Subtract
  /\ receiver_only Vector4Obj.Multiply_method Vector4.Method.Multiply
  /\ receiver_only Vector4Obj.Divide_method Vector4.Method.Divide.
Proof.
  repeat apply conj; try apply method_receiver_only.
  - intros h this v Hv. split.
    + intros n. repeat apply conj.
      * exact (method_Num Vector2.Method.Add h this n v Hv).
      * exact (method_Num Vector2.Method.Subtract h this n v Hv).
      * exact (method_Num Vector2.Method.Multiply h this n v Hv).
      * exact (method_Num Vector2.Method.Divide h this n v Hv).
    + intros r w Hw. repeat apply conj.
      * exact (method_Vec Vector2.Method.Add h this r v w Hv Hw).
      * exact (method_Vec Vector2.Method.Subtract h this r v w Hv Hw).
      * exact (method_Vec Vector2.Method.Multiply h this r v w Hv Hw).
      * exact (method_Vec Vector2.Method.Divide h this r v w Hv Hw).
  - intros h this v Hv. split.
    + intros n. repeat apply conj.
      * exact (method_Num Vector3.Method.Add h this n v Hv).
      * exact (method_Num Vector3.Method.Subtract h this n v Hv).
      * exact (method_Num Vector3.Method.Multiply h this n v Hv).
      * exact (method_Num Vector3.Method.Divide h this n v Hv).
    + intros r w Hw. repeat apply conj.
      * exact (method_Vec Vector3.Method.Add h this r v w Hv Hw).
      * exact (method_Vec Vector3.Method.Subtract h this r v w Hv Hw).
      * exact (method_Vec Vector3.Method.Multiply h this r v w Hv Hw).
      * exact (method_Vec Vector3.Method.Divide h this r v w Hv Hw).
  - intros h this v Hv. split.
    + intros n. repeat apply conj.
      * exact (method_Num Vector4.Method.Add h this n v Hv).
      * exact (method_Num Vector4.Method.Subtract h this n v Hv).
      * exact (method_Num Vector4.Method.Multiply h this n v Hv).
      * exact (method_Num Vector4.Method.Divide h this n v Hv).
    + intros r w Hw. repeat apply conj.
      * exact (method_Vec Vector4.Method.Add h this r v w Hv Hw).
      * exact (method_Vec Vector4.Method.Subtract h this r v w Hv Hw).
      * exact (method_Vec Vector4.Method.Multiply h this r v w Hv Hw).
      * exact (method_Vec Vector4.Method.Divide h this r v w Hv Hw).
Qed.

(** [v.Add(v)] on (1, 1): the receiver becomes (2, 2) and the other object
    stays (0, 0). *)
Lemma instance_methods_change_receiver_only_witness :
  [Vector2.one; Vector2.zero] !! 0%nat = Some Vector2.one
  /\ Vector2Obj.Add_method 0%nat (Vec 0%nat) [Vector2.one; Vector2.zero]
     = Some (tt, [Vector2.mk n2 n2; Vector2.zero]).
Proof.
  split; [reflexivity |].
  exact (proj1 (proj2 ((proj1 instance_methods_change_receiver_only)
                         [Vector2.one; Vector2.zero] 0%nat Vector2.one eq_refl)
                  0%nat Vector2.one eq_refl)).
Defined.

(** [v.Subtract(v)] sets every field of [v] to 0 when the fields are
    finite, for each class; for [Vector4] this includes [w], which no
    constructor call can set to 0. *)
Theorem Subtract_method_self :
  (forall (h : Vector2Obj.heap) (this : Obj.ref) (v : Vector2.t),
      h !! this = Some v ->
      is_finite (Vector2.x v) = true ->
      is_finite (Vector2.y v) = true ->
      Vector2Obj.Subtract_method this (Vec this) h
      = Some (tt, <[this := Vector2.mk n0 n0]> h))
  /\ (forall (h : Vector3Obj.heap) (this : Obj.ref) (v : Vector3.t),
      h !! this = Some v ->
      is_finite (Vector3.x v) = true ->
      is_finite (Vector3.y v) = true ->
      is_finite (Vector3.z v) = true ->
      Vector3Obj.Subtract_method this (Vec this) h
      = Some (tt, <[this := Vector3.mk n0 n0 n0]> h))
  /\ (forall (h : Vector4Obj.heap) (this : Obj.ref) (v : Vector4.t),
      h !! this = Some v ->
      is_finite (Vector4.x v) = true ->
      is_finite (Vector4.y v) = true ->
      is_finite (Vector4.z v) = true ->
      is_finite (Vector4.w v) = true ->
      Vector4Obj.Subtract_method this (Vec this) h
      = Some (tt, <[this := Vector4.mk n0 n0 n0 n0]> h)).
Proof.
  repeat apply conj; intros h this v Hv; intros;
    repeat match goal with
      | H : is_finite _ = true |- _ =>
          apply negb_true_iff, orb_false_iff in H as [? ?]
      end.
  - unfold Vector2Obj.Subtract_method, Obj.Subtract_method.
    rewrite (method_Vec _ h this this v v Hv Hv). unfold Vector2.Method.Subtract.
    now rewrite !sub_self_finite by assumption.
  - unfold Vector3Obj.Subtract_method, Obj.Subtract_method.
    rewrite (method_Vec _ h this this v v Hv Hv). unfold Vector3.Method.Subtract.
    now rewrite !sub_self_finite by assumption.
  - unfold Vector4Obj.Subtract_method, Obj.Subtract_method.
    rewrite (method_Vec _ h this this v v Hv Hv). unfold Vector4.Method.Subtract.
    now rewrite !sub_self_finite by assumption.
Qed.

Lemma Subtract_method_self_witness :
  Vector4Obj.Subtract_method 0%nat (Vec 0%nat) [Vector4.one]
  = Some (tt, [Vector4.mk n0 n0 n0 n0]).
Proof.
  exact (proj2 (proj2 Subtract_method_self) [Vector4.one] 0%nat Vector4.one
           eq_refl eq_refl eq_refl eq_refl eq_refl).
Defined.

End MoreClassObjectFacts.
